(** * Defold graphics device binding (OpenGL) and the dlib test helper

    A shallow embedding of [src/opengl/opengl_device.cpp] (namespace
    [dmGraphics]) and of [engine/dlib/src/test/testutil.cpp] (namespace
    [dmTestUtil]), followed by the properties proved about them.

    The C++ functions are translated statement by statement into a small
    state-and-failure monad.  Calls into OpenGL and GLFW are recorded, in
    order, in a history of native calls; what the native side answers
    (error flag, generated names, window creation) is a parameter of the
    development (class [Driver]). *)

From Stdlib Require Import ZArith List Lia.
From stdpp Require Import base numbers list list_numbers gmap strings.

Local Open Scope Z_scope.

(** ** Outcomes and the execution monad *)

(** A C++ call either returns ([Done], with the new program state), stops
    the process in [assert] ([AssertFailed]; the sources are compiled with
    assertions on, they do not define NDEBUG), or does something the
    language leaves undefined ([Undefined]: a read outside an array, a read
    of an indeterminate value, a null dereference, signed overflow). *)
Inductive outcome (S A : Type) : Type :=
| Done (a : A) (s : S)
| AssertFailed
| Undefined.
Arguments Done {S A} a s.
Arguments AssertFailed {S A}.
Arguments Undefined {S A}.

Definition M (S A : Type) : Type := S -> outcome S A.

Definition ret {S A} (a : A) : M S A := fun s => Done a s.

Definition bind {S A B} (m : M S A) (k : A -> M S B) : M S B :=
  fun s => match m s with
           | Done a s' => k a s'
           | AssertFailed => AssertFailed
           | Undefined => Undefined
           end.

Declare Scope run_scope.
Delimit Scope run_scope with run.
Notation "x <- m ;; k" := (bind m (fun x => k))
  (at level 100, m at level 99, k at level 200, right associativity,
   only parsing) : run_scope.
Notation "m ;;; k" := (bind m (fun _ => k))
  (at level 100, k at level 200, right associativity, only parsing) : run_scope.
Local Open Scope run_scope.

(** [assert(e)] *)
Definition assert_that {S} (b : bool) : M S unit :=
  fun s => if b then Done tt s else AssertFailed.

Definition undefined {S A} : M S A := fun _ => Undefined.

(** Reading a value that may be absent (an array slot out of range, an
    indeterminate field, a dangling pointer). *)
Definition defined {S A} (o : option A) : M S A :=
  match o with Some a => ret a | None => undefined end.

Definition get_state {S} : M S S := fun s => Done s s.
Definition modify_state {S} (f : S -> S) : M S unit := fun s => Done tt (f s).

(** [for (T i = start; ...; i++) body], for a loop that runs [n] times. *)
Fixpoint for_range {S} (n : nat) (i : Z) (body : Z -> M S unit) : M S unit :=
  match n with
  | O => ret tt
  | S n' => body i ;;; for_range n' (i + 1) body
  end.

(** ** Fixed-width integers *)

(** An unsigned integer of [bits] bits holds its value modulo [2^bits]. *)
Definition wrap (bits x : Z) : Z := x mod 2 ^ bits.
Definition uint32 (x : Z) : Z := wrap 32 x.

Definition INT_MAX : Z := 2147483647.
Definition INT_MIN : Z := -2147483648.

(** Conversion of an integer to a signed 32-bit type, as at a call whose
    parameter is a [GLint] or a [GLsizei]: the value of [INT_MIN .. INT_MAX]
    congruent to it modulo [2^32] (two's complement; an unsigned value from
    [2^31] arrives negative). *)
Definition int32 (x : Z) : Z := (x + 2 ^ 31) mod 2 ^ 32 - 2 ^ 31.

(** Arithmetic on [int]: a result outside the type is undefined behaviour. *)
Definition int_result {S} (x : Z) : M S Z :=
  if decide (INT_MIN <= x <= INT_MAX) then ret x else undefined.

Module dmGraphics.

(** ** Data model *)

(** Pointers and native object names are integers; the null pointer and the
    reserved name are [0]. *)
Definition NULL : Z := 0.

(** A [float] is carried as its 32-bit pattern: the functions embedded here
    pass floats on and never compute with them. *)
Definition float : Type := Z.

(** [enum Type].  The seven tags [GetTypeSize] names, and [TYPE_other] for
    any other value a variable of the enumeration type may hold. *)
Inductive Type_ : Type :=
| TYPE_BYTE
| TYPE_UNSIGNED_BYTE
| TYPE_SHORT
| TYPE_UNSIGNED_SHORT
| TYPE_INT
| TYPE_UNSIGNED_INT
| TYPE_FLOAT
| TYPE_other (tag : Z).

(** [struct VertexElement], the caller's description of one stream: the
    fields [NewVertexDeclaration] reads, [m_Size], [m_Usage], [m_Type] and
    [m_UsageIndex].  Record projections share one name space, so the fields
    of this structure carry the prefix [ve_]; those of [Stream] keep the
    names of the source. *)
Record VertexElement : Type := {
  ve_Size : Z;
  ve_Usage : Z;
  ve_Type : Type_;
  ve_UsageIndex : Z;
}.

(** [VertexDeclaration::Stream] *)
Record Stream : Type := {
  m_Index : Z;
  m_Size : Z;
  m_Usage : Z;
  m_Type : Type_;
  m_UsageIndex : Z;
  m_Offset : Z;
}.

(** [struct VertexDeclaration].  [new VertexDeclaration] leaves every field
    indeterminate, so each field is optional: [None] until it is assigned. *)
Record VertexDeclaration : Type := {
  m_Streams : list (option Stream);
  m_StreamCount : option Z;
  m_Stride : option Z;
}.

(** [struct Texture] and [struct RenderTarget] *)
Record Texture : Type := { m_Texture : option Z }.

Record RenderTarget : Type := {
  rt_Texture : option Z;   (* HTexture m_Texture: pointer to the owned Texture *)
  m_FboId : option Z;
  m_RboId : option Z;
}.

(** [Vectormath::Aos::Vector4]: four consecutive floats, x, y, z and w. *)
Record Vector4 : Type := { v_x : float; v_y : float; v_z : float; v_w : float }.

(** [HDevice]: null, or the address of the one global [gdevice]. *)
Inductive HDevice : Type := null_device | address_of_gdevice.

(** [struct Device]: the fields this file uses. *)
Record Device : Type := {
  m_DisplayWidth : Z;
  m_DisplayHeight : Z;
}.

(** [struct CreateDeviceParams]; its fields [m_DisplayWidth], ... carry the
    prefix [p_]. *)
Record CreateDeviceParams : Type := {
  p_DisplayWidth : Z;
  p_DisplayHeight : Z;
  p_AppTitle : string;
  p_Fullscreen : bool;
  p_PrintDeviceInfo : bool;
}.

(** What the missing header [opengl_device.h] fixes and this file only uses:
    the number of entries of the array [m_Streams] and the width in bits of
    the unsigned fields [m_Offset] and [m_Stride]. *)
Class Layout : Type := {
  STREAM_CAPACITY : Z;
  field_bits : Z;
}.

(** Buffer binding points, program targets and the other GL tokens that
    appear as literal arguments. *)
Inductive BufferTarget : Type := GL_ARRAY_BUFFER | GL_ELEMENT_ARRAY_BUFFER.
Inductive ProgramTarget : Type := GL_VERTEX_PROGRAM_ARB | GL_FRAGMENT_PROGRAM_ARB.
Inductive StringName : Type := GL_RENDERER | GL_VERSION | GL_VENDOR | GL_EXTENSIONS.

Global Instance BufferTarget_eq_dec : EqDecision BufferTarget.
Proof. solve_decision. Defined.
Global Instance ProgramTarget_eq_dec : EqDecision ProgramTarget.
Proof. solve_decision. Defined.

(** [enum TextureFormat]; [TEXTURE_FORMAT_other] is any value outside the
    seven the file names.  A format also stands for the GL token
    [SetTextureData] selects for it. *)
Inductive TextureFormat : Type :=
| TEXTURE_FORMAT_LUMINANCE
| TEXTURE_FORMAT_RGB
| TEXTURE_FORMAT_RGBA
| TEXTURE_FORMAT_RGB_DXT1
| TEXTURE_FORMAT_RGBA_DXT1
| TEXTURE_FORMAT_RGBA_DXT3
| TEXTURE_FORMAT_RGBA_DXT5
| TEXTURE_FORMAT_other (tag : Z).

(** The native calls the embedded functions make, with their arguments.
    Data pointers ([const void*]) are addresses. *)
Inductive Call : Type :=
| glfwInit
| glfwOpenWindow (width height : Z)
| glfwTerminate
| glfwSetWindowTitle (title : string)
| glfwSwapInterval (interval : Z)
| glGetString (name : StringName)
| printf_info (name : StringName)
| glBindBufferARB (target : BufferTarget) (buffer : Z)
| glBufferDataARB (target : BufferTarget) (size data usage : Z)
| glBufferSubDataARB (target : BufferTarget) (offset size data : Z)
| glMapBufferARB (target : BufferTarget) (access : Z)
| glUnmapBufferARB (target : BufferTarget)
| glEnableVertexAttribArray (index : Z)
| glDisableVertexAttribArray (index : Z)
| glVertexAttribPointer (index size : Z) (type : Type_) (normalized : bool)
                        (stride pointer : Z)
| glProgramLocalParameter4fARB (target : ProgramTarget) (index : Z)
                               (x y z w : float)
| glGenTextures
| glBindTexture (texture : Z)
| glTexParameteri_no_mipmap
| glTexParameteri_min_linear
| glTexParameteri_mag_linear
| glTexImage2D (mip_map internal_format width height : Z)
               (format : TextureFormat) (data : Z)
| glCompressedTexImage2D (mip_map : Z) (format : TextureFormat)
                         (width height data_size data : Z)
| glGenFramebuffers
| glBindFramebuffer (framebuffer : Z)
| glGenRenderbuffers
| glBindRenderbuffer (renderbuffer : Z)
| glRenderbufferStorage_depth (width height : Z)
| glFramebufferTexture2D_color0 (texture : Z)
| glFramebufferRenderbuffer_depth (renderbuffer : Z)
| glDeleteFramebuffers (framebuffer : Z)
| glDeleteRenderbuffers (renderbuffer : Z)
| glDeleteTextures (texture : Z).

(** The native side.  Each answer is a function of the calls made so far
    (the last element of the list is the call being answered). *)
Class Driver : Type := {
  glGetError : list Call -> Z;
  glfwOpenWindow_result : list Call -> Z;
  glGen_name : list Call -> Z;
  glMapBufferARB_result : list Call -> Z;
  glUnmapBufferARB_result : list Call -> bool;
}.

(** Program state: the global [gdevice], the history of native calls
    (oldest first) and the objects allocated with [new]. *)
Record State : Type := {
  gdevice : Device;
  calls : list Call;
  heap_vd : gmap Z VertexDeclaration;
  heap_tex : gmap Z Texture;
  heap_rt : gmap Z RenderTarget;
}.

Definition set_gdevice (d : Device) (s : State) : State :=
  {| gdevice := d; calls := calls s; heap_vd := heap_vd s;
     heap_tex := heap_tex s; heap_rt := heap_rt s |}.
Definition set_calls (c : list Call) (s : State) : State :=
  {| gdevice := gdevice s; calls := c; heap_vd := heap_vd s;
     heap_tex := heap_tex s; heap_rt := heap_rt s |}.
Definition set_heap_vd (h : gmap Z VertexDeclaration) (s : State) : State :=
  {| gdevice := gdevice s; calls := calls s; heap_vd := h;
     heap_tex := heap_tex s; heap_rt := heap_rt s |}.
Definition set_heap_tex (h : gmap Z Texture) (s : State) : State :=
  {| gdevice := gdevice s; calls := calls s; heap_vd := heap_vd s;
     heap_tex := h; heap_rt := heap_rt s |}.
Definition set_heap_rt (h : gmap Z RenderTarget) (s : State) : State :=
  {| gdevice := gdevice s; calls := calls s; heap_vd := heap_vd s;
     heap_tex := heap_tex s; heap_rt := h |}.

(** A native call is appended to the history. *)
Definition native (c : Call) : M State unit :=
  modify_state (fun s => set_calls (calls s ++ [c]) s).

(** A native call that returns a value: the driver answers. *)
Definition native_answer {A} (c : Call) (answer : list Call -> A) : M State A :=
  native c ;;; s <- get_state ;; ret (answer (calls s)).

Section ErrorCheck.
Context `{Driver}.

(** The macro [CHECK_GL_ERROR]: query the error flag and stop in
    [assert(0)] when it is set.  The query is not entered in the history:
    control continues only after a query that found the flag clear, and
    such a query leaves the native state as it was. *)
Definition CHECK_GL_ERROR : M State unit :=
  s <- get_state ;;
  if decide (glGetError (calls s) = 0) then ret tt else assert_that false.

End ErrorCheck.

(** [new T]: an address that is neither null nor in use. *)
Definition new_address {V} (heap : gmap Z V) : Z := fresh ({[NULL]} ∪ dom heap).

(** ** Vertex declarations *)

(** [static uint32_t GetTypeSize(Type type)].  The function reads no global,
    so it runs in any state. *)
Definition GetTypeSize {S} (type : Type_) : M S Z :=
  let size := 0 in
  size <- match type with
          | TYPE_BYTE | TYPE_UNSIGNED_BYTE => ret 1
          | TYPE_SHORT | TYPE_UNSIGNED_SHORT => ret 2
          | TYPE_INT | TYPE_UNSIGNED_INT | TYPE_FLOAT => ret 4
          | TYPE_other _ => assert_that false ;;; ret size
          end ;;
  ret size.

Section WithLayout.
Context `{Layout}.

(** [new VertexDeclaration]: every field indeterminate. *)
Definition indeterminate_VertexDeclaration : VertexDeclaration :=
  {| m_Streams := replicate (Z.to_nat STREAM_CAPACITY) None;
     m_StreamCount := None;
     m_Stride := None |}.

Definition new_VertexDeclaration : M State Z :=
  s <- get_state ;;
  let vd := new_address (heap_vd s) in
  modify_state (set_heap_vd (<[vd := indeterminate_VertexDeclaration]> (heap_vd s))) ;;;
  ret vd.

(** [*vd] as an rvalue, and an assignment through [vd]. *)
Definition load_vd (vd : Z) : M State VertexDeclaration :=
  s <- get_state ;; defined (heap_vd s !! vd).

Definition store_vd (vd : Z) (d : VertexDeclaration) : M State unit :=
  modify_state (fun s => set_heap_vd (<[vd := d]> (heap_vd s)) s).

Definition with_Stride (v : Z) (d : VertexDeclaration) : VertexDeclaration :=
  {| m_Streams := m_Streams d; m_StreamCount := m_StreamCount d;
     m_Stride := Some v |}.
Definition with_StreamCount (v : Z) (d : VertexDeclaration) : VertexDeclaration :=
  {| m_Streams := m_Streams d; m_StreamCount := Some v;
     m_Stride := m_Stride d |}.
Definition with_Stream (i : nat) (st : Stream) (d : VertexDeclaration) : VertexDeclaration :=
  {| m_Streams := <[i := Some st]> (m_Streams d);
     m_StreamCount := m_StreamCount d; m_Stride := m_Stride d |}.

(** The body of the loop of [NewVertexDeclaration], for index [i].  The six
    assignments to [vd->m_Streams[i]] are one store of a whole [Stream].
    The product is computed in [uint32_t] (the type [GetTypeSize] returns),
    the sum likewise, and the result is converted to the type of
    [m_Stride]. *)
Definition NewVertexDeclaration_body (vd : Z) (element : list VertexElement)
    (i : Z) : M State unit :=
  e <- defined (element !! Z.to_nat i) ;;
  d <- load_vd vd ;;
  stride <- defined (m_Stride d) ;;
  (if decide (Z.to_nat i < length (m_Streams d))%nat then ret tt else undefined) ;;;
  store_vd vd (with_Stream (Z.to_nat i)
                 {| m_Index := i;
                    m_Size := ve_Size e;
                    m_Usage := ve_Usage e;
                    m_Type := ve_Type e;
                    m_UsageIndex := ve_UsageIndex e;
                    m_Offset := stride |} d) ;;;
  type_size <- GetTypeSize (ve_Type e) ;;
  d <- load_vd vd ;;
  stride <- defined (m_Stride d) ;;
  store_vd vd (with_Stride
                 (wrap field_bits (uint32 (stride + uint32 (ve_Size e * type_size)))) d).

(** [HVertexDeclaration NewVertexDeclaration(VertexElement* element, uint32_t count)].
    [element] is the caller's array; reading past its end is undefined. *)
Definition NewVertexDeclaration (element : list VertexElement) (count : Z) : M State Z :=
  vd <- new_VertexDeclaration ;;
  d <- load_vd vd ;;
  store_vd vd (with_Stride 0 d) ;;;
  assert_that (bool_decide (count < STREAM_CAPACITY)) ;;;
  for_range (Z.to_nat count) 0 (NewVertexDeclaration_body vd element) ;;;
  d <- load_vd vd ;;
  store_vd vd (with_StreamCount count d) ;;;
  ret vd.

(** [void DeleteVertexDeclaration(HVertexDeclaration)]: [delete]. *)
Definition DeleteVertexDeclaration (vertex_declaration : Z) : M State unit :=
  if decide (vertex_declaration = NULL) then ret tt
  else
    _ <- load_vd vertex_declaration ;;
    modify_state (fun s => set_heap_vd (delete vertex_declaration (heap_vd s)) s).

End WithLayout.

Section WithDriver.
Context `{Driver}.

(** [vertex_declaration->m_Streams[i]] *)
Definition stream_at (d : VertexDeclaration) (i : Z) : M State Stream :=
  slot <- defined (m_Streams d !! Z.to_nat i) ;; defined slot.

(** [void EnableVertexDeclaration(HContext, HVertexDeclaration, HVertexBuffer)].
    [GL_ARRAY_BUFFER] and [GL_ARRAY_BUFFER_ARB] are one token.  The loop
    bound [m_StreamCount] is read once: nothing in the loop writes it.
    [glVertexAttribPointer] takes its size as a [GLint] and its stride as a
    [GLsizei] ([PFNGLVERTEXATTRIBPTRPROC]): the fields [m_Size] and
    [m_Stride] are converted at the call. *)
Definition EnableVertexDeclaration (context vertex_declaration vertex_buffer : Z)
    : M State unit :=
  assert_that (bool_decide (context <> NULL)) ;;;
  assert_that (bool_decide (vertex_buffer <> 0)) ;;;
  assert_that (bool_decide (vertex_declaration <> NULL)) ;;;
  native (glBindBufferARB GL_ARRAY_BUFFER vertex_buffer) ;;;
  CHECK_GL_ERROR ;;;
  d <- load_vd vertex_declaration ;;
  count <- defined (m_StreamCount d) ;;
  for_range (Z.to_nat count) 0 (fun i =>
    st <- stream_at d i ;;
    native (glEnableVertexAttribArray (m_Index st)) ;;;
    CHECK_GL_ERROR ;;;
    stride <- defined (m_Stride d) ;;
    native (glVertexAttribPointer (m_Index st) (int32 (m_Size st)) (m_Type st) false
                                  (int32 stride) (m_Offset st)) ;;;
    CHECK_GL_ERROR).

(** [void DisableVertexDeclaration(HContext, HVertexDeclaration)] *)
Definition DisableVertexDeclaration (context vertex_declaration : Z) : M State unit :=
  assert_that (bool_decide (context <> NULL)) ;;;
  assert_that (bool_decide (vertex_declaration <> NULL)) ;;;
  d <- load_vd vertex_declaration ;;
  count <- defined (m_StreamCount d) ;;
  for_range (Z.to_nat count) 0 (fun i =>
    native (glDisableVertexAttribArray i) ;;;
    CHECK_GL_ERROR) ;;;
  native (glBindBufferARB GL_ARRAY_BUFFER 0) ;;;
  CHECK_GL_ERROR ;;;
  native (glBindBufferARB GL_ELEMENT_ARRAY_BUFFER 0) ;;;
  CHECK_GL_ERROR.

(** ** Vertex and index buffers

    [DM_PROFILE] opens a profiling scope and has no part in what follows. *)

Definition SetVertexBufferData (buffer size data buffer_usage : Z) : M State unit :=
  native (glBindBufferARB GL_ARRAY_BUFFER buffer) ;;;
  CHECK_GL_ERROR ;;;
  native (glBufferDataARB GL_ARRAY_BUFFER size data buffer_usage) ;;;
  CHECK_GL_ERROR ;;;
  native (glBindBufferARB GL_ARRAY_BUFFER 0) ;;;
  CHECK_GL_ERROR.

Definition SetVertexBufferSubData (buffer offset size data : Z) : M State unit :=
  native (glBindBufferARB GL_ARRAY_BUFFER buffer) ;;;
  CHECK_GL_ERROR ;;;
  native (glBufferSubDataARB GL_ARRAY_BUFFER offset size data) ;;;
  CHECK_GL_ERROR ;;;
  native (glBindBufferARB GL_ARRAY_BUFFER 0) ;;;
  CHECK_GL_ERROR.

Definition MapVertexBuffer (buffer access : Z) : M State Z :=
  native (glBindBufferARB GL_ARRAY_BUFFER buffer) ;;;
  CHECK_GL_ERROR ;;;
  result <- native_answer (glMapBufferARB GL_ARRAY_BUFFER access) glMapBufferARB_result ;;
  CHECK_GL_ERROR ;;;
  native (glBindBufferARB GL_ARRAY_BUFFER 0) ;;;
  CHECK_GL_ERROR ;;;
  ret result.

Definition UnmapVertexBuffer (buffer : Z) : M State bool :=
  native (glBindBufferARB GL_ARRAY_BUFFER buffer) ;;;
  CHECK_GL_ERROR ;;;
  result <- native_answer (glUnmapBufferARB GL_ARRAY_BUFFER) glUnmapBufferARB_result ;;
  CHECK_GL_ERROR ;;;
  native (glBindBufferARB GL_ARRAY_BUFFER 0) ;;;
  CHECK_GL_ERROR ;;;
  ret result.

Definition SetIndexBufferData (buffer size data buffer_usage : Z) : M State unit :=
  native (glBindBufferARB GL_ELEMENT_ARRAY_BUFFER buffer) ;;;
  CHECK_GL_ERROR ;;;
  native (glBufferDataARB GL_ELEMENT_ARRAY_BUFFER size data buffer_usage) ;;;
  CHECK_GL_ERROR ;;;
  native (glBindBufferARB GL_ELEMENT_ARRAY_BUFFER 0) ;;;
  CHECK_GL_ERROR.

Definition SetIndexBufferSubData (buffer offset size data : Z) : M State unit :=
  native (glBindBufferARB GL_ELEMENT_ARRAY_BUFFER buffer) ;;;
  CHECK_GL_ERROR ;;;
  native (glBufferSubDataARB GL_ELEMENT_ARRAY_BUFFER offset size data) ;;;
  CHECK_GL_ERROR ;;;
  native (glBindBufferARB GL_ELEMENT_ARRAY_BUFFER 0) ;;;
  CHECK_GL_ERROR.

Definition MapIndexBuffer (buffer access : Z) : M State Z :=
  native (glBindBufferARB GL_ELEMENT_ARRAY_BUFFER buffer) ;;;
  CHECK_GL_ERROR ;;;
  result <- native_answer (glMapBufferARB GL_ELEMENT_ARRAY_BUFFER access) glMapBufferARB_result ;;
  CHECK_GL_ERROR ;;;
  native (glBindBufferARB GL_ELEMENT_ARRAY_BUFFER 0) ;;;
  CHECK_GL_ERROR ;;;
  ret result.

Definition UnmapIndexBuffer (buffer : Z) : M State bool :=
  native (glBindBufferARB GL_ELEMENT_ARRAY_BUFFER buffer) ;;;
  CHECK_GL_ERROR ;;;
  result <- native_answer (glUnmapBufferARB GL_ELEMENT_ARRAY_BUFFER) glUnmapBufferARB_result ;;
  CHECK_GL_ERROR ;;;
  native (glBindBufferARB GL_ELEMENT_ARRAY_BUFFER 0) ;;;
  CHECK_GL_ERROR ;;;
  ret result.

(** ** Program constants *)

(** The cast of [data] to a pointer to [float]: the vectors as one array
    of floats. *)
Definition floats_of (data : list Vector4) : list float :=
  flat_map (fun v => [v_x v; v_y v; v_z v; v_w v]) data.

(** [f[k + reg]]: the index is an [int] sum, the read is inside the array or
    undefined. *)
Definition float_at (f : list float) (k reg : Z) : M State float :=
  index <- int_result (k + reg) ;;
  if decide (0 <= index) then defined (f !! Z.to_nat index) else undefined.

(** The loop [for (int i=0; i<num_vectors; i++, reg+=4)], with [n]
    iterations left.  The register index [base_register+i] is an [int] sum,
    converted to the [GLuint] parameter. *)
Fixpoint SetProgramConstantBlock_loop (n : nat) (type : ProgramTarget)
    (f : list float) (base_register i reg : Z) : M State unit :=
  match n with
  | O => ret tt
  | S n' =>
      index <- int_result (base_register + i) ;;
      f0 <- float_at f 0 reg ;;
      f1 <- float_at f 1 reg ;;
      f2 <- float_at f 2 reg ;;
      f3 <- float_at f 3 reg ;;
      native (glProgramLocalParameter4fARB type (uint32 index) f0 f1 f2 f3) ;;;
      CHECK_GL_ERROR ;;;
      i' <- int_result (i + 1) ;;
      reg' <- int_result (reg + 4) ;;
      SetProgramConstantBlock_loop n' type f base_register i' reg'
  end.

(** [static void SetProgramConstantBlock(HContext, GLenum type, const Vector4* data,
    int base_register, int num_vectors)]; a null [data] is [None]. *)
Definition SetProgramConstantBlock (context : Z) (type : ProgramTarget)
    (data : option (list Vector4)) (base_register num_vectors : Z) : M State unit :=
  assert_that (bool_decide (context <> NULL)) ;;;
  assert_that (bool_decide (is_Some data)) ;;;
  assert_that (bool_decide (base_register >= 0)) ;;;
  assert_that (bool_decide (num_vectors >= 0)) ;;;
  vectors <- defined data ;;
  let f := floats_of vectors in
  let reg := 0 in
  SetProgramConstantBlock_loop (Z.to_nat num_vectors) type f base_register 0 reg.

Definition SetFragmentConstant (context : Z) (data : option (list Vector4))
    (base_register : Z) : M State unit :=
  assert_that (bool_decide (context <> NULL)) ;;;
  SetProgramConstantBlock context GL_FRAGMENT_PROGRAM_ARB data base_register 1 ;;;
  CHECK_GL_ERROR.

Definition SetVertexConstantBlock (context : Z) (data : option (list Vector4))
    (base_register num_vectors : Z) : M State unit :=
  assert_that (bool_decide (context <> NULL)) ;;;
  SetProgramConstantBlock context GL_VERTEX_PROGRAM_ARB data base_register num_vectors ;;;
  CHECK_GL_ERROR.

Definition SetFragmentConstantBlock (context : Z) (data : option (list Vector4))
    (base_register num_vectors : Z) : M State unit :=
  assert_that (bool_decide (context <> NULL)) ;;;
  SetProgramConstantBlock context GL_FRAGMENT_PROGRAM_ARB data base_register num_vectors ;;;
  CHECK_GL_ERROR.

(** ** Device creation *)

(** [HDevice NewDevice(int* argc, char** argv, CreateDeviceParams* params)];
    [argc] and [argv] are not used, a null [params] is [None].  The constant
    arguments of [glfwOpenWindow] are left out of the recorded call.  The
    block under [_WIN32], which only loads extension entry points after the
    window exists, is not part of this build. *)
Definition NewDevice (params : option CreateDeviceParams) : M State HDevice :=
  assert_that (bool_decide (is_Some params)) ;;;
  p <- defined params ;;
  native glfwInit ;;;
  opened <- native_answer (glfwOpenWindow (p_DisplayWidth p) (p_DisplayHeight p))
                          glfwOpenWindow_result ;;
  if decide (opened = 0) then
    native glfwTerminate ;;;
    ret null_device
  else
    native (glfwSetWindowTitle (p_AppTitle p)) ;;;
    native (glfwSwapInterval 1) ;;;
    CHECK_GL_ERROR ;;;
    modify_state (fun s => set_gdevice
      {| m_DisplayWidth := p_DisplayWidth p;
         m_DisplayHeight := m_DisplayHeight (gdevice s) |} s) ;;;
    modify_state (fun s => set_gdevice
      {| m_DisplayWidth := m_DisplayWidth (gdevice s);
         m_DisplayHeight := p_DisplayHeight p |} s) ;;;
    (if p_PrintDeviceInfo p then
       native (glGetString GL_RENDERER) ;;; native (printf_info GL_RENDERER) ;;;
       native (glGetString GL_VERSION) ;;; native (printf_info GL_VERSION) ;;;
       native (glGetString GL_VENDOR) ;;; native (printf_info GL_VENDOR) ;;;
       native (glGetString GL_EXTENSIONS) ;;; native (printf_info GL_EXTENSIONS)
     else ret tt) ;;;
    ret address_of_gdevice.

Definition DeleteDevice (device : HDevice) : M State unit :=
  native glfwTerminate.

Definition GetWindowWidth : M State Z :=
  s <- get_state ;; ret (m_DisplayWidth (gdevice s)).

Definition GetWindowHeight : M State Z :=
  s <- get_state ;; ret (m_DisplayHeight (gdevice s)).

(** ** Textures and render targets *)

Definition load_tex (texture : Z) : M State Texture :=
  s <- get_state ;; defined (heap_tex s !! texture).

Definition load_rt (rendertarget : Z) : M State RenderTarget :=
  s <- get_state ;; defined (heap_rt s !! rendertarget).

Definition store_rt (rendertarget : Z) (r : RenderTarget) : M State unit :=
  modify_state (fun s => set_heap_rt (<[rendertarget := r]> (heap_rt s)) s).

(** [HTexture NewTexture()] *)
Definition NewTexture : M State Z :=
  t <- native_answer glGenTextures glGen_name ;;
  CHECK_GL_ERROR ;;;
  native (glBindTexture t) ;;;
  CHECK_GL_ERROR ;;;
  native glTexParameteri_no_mipmap ;;;
  CHECK_GL_ERROR ;;;
  native glTexParameteri_min_linear ;;;
  CHECK_GL_ERROR ;;;
  native glTexParameteri_mag_linear ;;;
  CHECK_GL_ERROR ;;;
  s <- get_state ;;
  let tex := new_address (heap_tex s) in
  modify_state (set_heap_tex (<[tex := {| m_Texture := None |}]> (heap_tex s))) ;;;
  modify_state (fun s => set_heap_tex (<[tex := {| m_Texture := Some t |}]> (heap_tex s)) s) ;;;
  ret tex.

(** [void SetTextureData(HTexture, uint16_t mip_map, uint16_t width, uint16_t height,
    TextureFormat, const void* data, uint32_t data_size)].  The first
    [switch] chooses [gl_format] (here the format itself) and, for the
    uncompressed formats, [internal_format]; the second uploads.  The
    16-bit arguments keep their values as [GLint] and [GLsizei];
    [data_size], a [uint32_t], is converted to the [GLsizei] that
    [glCompressedTexImage2D] takes ([PFNGLTEXPARAM2DPROC]). *)
Definition SetTextureData (texture mip_map width height : Z)
    (texture_format : TextureFormat) (data data_size : Z) : M State unit :=
  let mip_map := wrap 16 mip_map in
  let width := wrap 16 width in
  let height := wrap 16 height in
  tex <- load_tex texture ;;
  name <- defined (m_Texture tex) ;;
  native (glBindTexture name) ;;;
  CHECK_GL_ERROR ;;;
  internal_format <-
    match texture_format with
    | TEXTURE_FORMAT_LUMINANCE => ret (Some 1)
    | TEXTURE_FORMAT_RGB => ret (Some 3)
    | TEXTURE_FORMAT_RGBA => ret (Some 4)
    | TEXTURE_FORMAT_RGB_DXT1 | TEXTURE_FORMAT_RGBA_DXT1
    | TEXTURE_FORMAT_RGBA_DXT3 => ret None
    | TEXTURE_FORMAT_RGBA_DXT5 => CHECK_GL_ERROR ;;; ret None
    | TEXTURE_FORMAT_other _ => assert_that false ;;; ret None
    end ;;
  match texture_format with
  | TEXTURE_FORMAT_LUMINANCE | TEXTURE_FORMAT_RGB | TEXTURE_FORMAT_RGBA =>
      internal_format <- defined internal_format ;;
      native (glTexImage2D mip_map internal_format width height texture_format data) ;;;
      CHECK_GL_ERROR
  | TEXTURE_FORMAT_RGB_DXT1 | TEXTURE_FORMAT_RGBA_DXT1
  | TEXTURE_FORMAT_RGBA_DXT3 | TEXTURE_FORMAT_RGBA_DXT5 =>
      native (glCompressedTexImage2D mip_map texture_format width height
                                     (int32 data_size) data) ;;;
      CHECK_GL_ERROR
  | TEXTURE_FORMAT_other _ => assert_that false
  end.

(** [void DeleteTexture(HTexture texture)] *)
Definition DeleteTexture (texture : Z) : M State unit :=
  assert_that (bool_decide (texture <> NULL)) ;;;
  tex <- load_tex texture ;;
  name <- defined (m_Texture tex) ;;
  native (glDeleteTextures name) ;;;
  modify_state (fun s => set_heap_tex (delete texture (heap_tex s)) s).

(** [HRenderTarget NewRenderTarget(uint32_t width, uint32_t height, TextureFormat format)].
    [format] is not used: the texture is always RGBA.  [glRenderbufferStorage]
    takes its width and height as [GLsizei] ([PFNGLRENDERBUFFERSTORAGEPROC]):
    the two [uint32_t] arguments are converted at the call. *)
Definition NewRenderTarget (width height : Z) (format : TextureFormat) : M State Z :=
  s <- get_state ;;
  let rt := new_address (heap_rt s) in
  store_rt rt {| rt_Texture := None; m_FboId := None; m_RboId := None |} ;;;
  texture <- NewTexture ;;
  r <- load_rt rt ;;
  store_rt rt {| rt_Texture := Some texture; m_FboId := m_FboId r; m_RboId := m_RboId r |} ;;;
  SetTextureData texture 0 width height TEXTURE_FORMAT_RGBA 0 0 ;;;
  fbo <- native_answer glGenFramebuffers glGen_name ;;
  r <- load_rt rt ;;
  store_rt rt {| rt_Texture := rt_Texture r; m_FboId := Some fbo; m_RboId := m_RboId r |} ;;;
  CHECK_GL_ERROR ;;;
  native (glBindFramebuffer fbo) ;;;
  CHECK_GL_ERROR ;;;
  rbo <- native_answer glGenRenderbuffers glGen_name ;;
  r <- load_rt rt ;;
  store_rt rt {| rt_Texture := rt_Texture r; m_FboId := m_FboId r; m_RboId := Some rbo |} ;;;
  CHECK_GL_ERROR ;;;
  native (glBindRenderbuffer rbo) ;;;
  CHECK_GL_ERROR ;;;
  native (glRenderbufferStorage_depth (int32 width) (int32 height)) ;;;
  CHECK_GL_ERROR ;;;
  native (glBindRenderbuffer 0) ;;;
  CHECK_GL_ERROR ;;;
  tex <- load_tex texture ;;
  name <- defined (m_Texture tex) ;;
  native (glFramebufferTexture2D_color0 name) ;;;
  CHECK_GL_ERROR ;;;
  native (glFramebufferRenderbuffer_depth rbo) ;;;
  CHECK_GL_ERROR ;;;
  native (glBindFramebuffer 0) ;;;
  CHECK_GL_ERROR ;;;
  native (glBindRenderbuffer 0) ;;;
  CHECK_GL_ERROR ;;;
  ret rt.

(** [void DeleteRenderTarget(HRenderTarget rendertarget)] *)
Definition DeleteRenderTarget (rendertarget : Z) : M State unit :=
  r <- load_rt rendertarget ;;
  fbo <- defined (m_FboId r) ;;
  native (glDeleteFramebuffers fbo) ;;;
  rbo <- defined (m_RboId r) ;;
  native (glDeleteRenderbuffers rbo) ;;;
  texture <- defined (rt_Texture r) ;;
  DeleteTexture texture ;;;
  modify_state (fun s => set_heap_rt (delete rendertarget (heap_rt s)) s).

(** [HTexture GetRenderTargetTexture(HRenderTarget rendertarget)] *)
Definition GetRenderTargetTexture (rendertarget : Z) : M State Z :=
  r <- load_rt rendertarget ;;
  defined (rt_Texture r).

(** [void EnableRenderTarget(HContext, HRenderTarget)] *)
Definition EnableRenderTarget (context rendertarget : Z) : M State unit :=
  r <- load_rt rendertarget ;;
  fbo <- defined (m_FboId r) ;;
  native (glBindFramebuffer fbo).

(** [void DisableRenderTarget(HContext, HRenderTarget)] *)
Definition DisableRenderTarget (context rendertarget : Z) : M State unit :=
  native (glBindFramebuffer 0).

End WithDriver.

(** ** The state the native side keeps, read off the history *)

(** The buffer bound to a binding point: the one named by the latest
    [glBindBufferARB] on that point, [0] before any. *)
Definition bound_buffer (target : BufferTarget) (history : list Call) : Z :=
  fold_left (fun bound c =>
               match c with
               | glBindBufferARB t buffer =>
                   if decide (t = target) then buffer else bound
               | _ => bound
               end) history 0.

(** The framebuffer bound for rendering, likewise. *)
Definition bound_framebuffer (history : list Call) : Z :=
  fold_left (fun bound c =>
               match c with
               | glBindFramebuffer framebuffer => framebuffer
               | _ => bound
               end) history 0.

(** Whether a vertex attribute array is enabled: set by
    [glEnableVertexAttribArray], cleared by [glDisableVertexAttribArray],
    off before any. *)
Definition attribute_enabled (index : Z) (history : list Call) : bool :=
  fold_left (fun enabled c =>
               match c with
               | glEnableVertexAttribArray i => if decide (i = index) then true else enabled
               | glDisableVertexAttribArray i => if decide (i = index) then false else enabled
               | _ => enabled
               end) history false.

End dmGraphics.

Module dmTestUtil.

(** ** Reading the test sockets from a configuration *)

(** What the helper does to the outside: lookups in the configuration and
    stores through the output pointers, in order. *)
Inductive Event : Type :=
| Lookup (key : string)
| Store (address value : Z).

(** The caller's memory ([int] objects by address) and the events so far. *)
Record State : Type := {
  memory : gmap Z Z;
  events : list Event;
}.

(** [dmConfigFile::HConfig] and [dmConfigFile::GetInt] are declared in
    dlib's [configfile.h]; the helper only calls them.  What a lookup
    returns is a parameter here. *)
Class ConfigFile : Type := {
  HConfig : Type;
  GetInt_value : HConfig -> string -> Z -> Z;
}.

Section WithConfigFile.
Context `{ConfigFile}.

(** A call of [dmConfigFile::GetInt(config, key, default_value)]. *)
Definition GetInt (config : HConfig) (key : string) (default_value : Z) : M State Z :=
  modify_state (fun s => {| memory := memory s; events := events s ++ [Lookup key] |}) ;;;
  ret (GetInt_value config key default_value).

(** [*p = v] for a non-null [p]. *)
Definition store_int (p v : Z) : M State unit :=
  modify_state (fun s => {| memory := <[p := v]> (memory s);
                            events := events s ++ [Store p v] |}).

(** [void GetSocketsFromConfig(dmConfigFile::HConfig config, int* socket,
    int* socket_ssl, int* socket_ssl_test)] *)
Definition GetSocketsFromConfig (config : HConfig)
    (socket socket_ssl socket_ssl_test : Z) : M State unit :=
  (if decide (socket <> 0) then
     v <- GetInt config "server.socket" (-1) ;; store_int socket v
   else ret tt) ;;;
  (if decide (socket_ssl <> 0) then
     v <- GetInt config "server.socket_ssl" (-1) ;; store_int socket_ssl v
   else ret tt) ;;;
  (if decide (socket_ssl_test <> 0) then
     v <- GetInt config "server.socket_ssl_test" (-1) ;; store_int socket_ssl_test v
   else ret tt).

End WithConfigFile.

(** Modelled from the spec: [dmConfigFile::GetInt] is defined in dlib's
    configuration module, which is not among the sources.  The
    configuration is a key-value store of integers; a lookup returns the
    stored integer, or the default given by the caller when the store has
    no entry for the key. *)
Definition spec_ConfigFile : ConfigFile :=
  {| HConfig := gmap string Z;
     GetInt_value := fun config key default_value =>
                       default default_value (config !! key) |}.

End dmTestUtil.

(** * Vocabulary of the properties *)

(** [wp strict m s Q]: the run of [m] from [s] is not undefined and, when it
    returns, [Q] holds of the result and the final state.  With
    [strict = true] the run moreover returns: no assertion stops it. *)
Definition wp {S A} (strict : bool) (m : M S A) (s : S) (Q : A -> S -> Prop) : Prop :=
  match m s with
  | Done a s' => Q a s'
  | AssertFailed => strict = false
  | Undefined => False
  end.

(** Two runs that end the same way, with results and final states related
    by [R] when they return. *)
Definition lockstep {S A} (R : A -> S -> A -> S -> Prop) (o1 o2 : outcome S A) : Prop :=
  match o1, o2 with
  | Done a1 s1, Done a2 s2 => R a1 s1 a2 s2
  | AssertFailed, AssertFailed => True
  | Undefined, Undefined => True
  | _, _ => False
  end.

Module GraphicsSpec.
Import dmGraphics.

(** The native side never reports an error. *)
Definition quiet `{Driver} : Prop := forall history, glGetError history = 0.

(** *** Vertex declarations *)

(** The component byte size of a type tag, as [GetTypeSize] returns it. *)
Definition type_size (t : Type_) : option Z :=
  match GetTypeSize t tt with Done n _ => Some n | _ => None end.

(** Component count times component byte size of one stream, and the sum
    over a sequence of streams. *)
Definition stream_bytes (e : VertexElement) : Z :=
  ve_Size e * default 0 (type_size (ve_Type e)).

Definition total_bytes (element : list VertexElement) : Z :=
  foldr (fun e acc => stream_bytes e + acc) 0 element.

(** The objects at [p1] in [s1] and at [p2] in [s2] are equal. *)
Definition same_object (p1 p2 : Z) (s1 s2 : State) : Prop :=
  heap_vd s1 !! p1 = heap_vd s2 !! p2.

Section WithLayout.
Context `{Layout}.

(** The stream written at index [i] for element [e] once the elements
    before it are laid out. *)
Definition laid_out (element : list VertexElement) (i : nat) (e : VertexElement) : Stream :=
  {| m_Index := Z.of_nat i;
     m_Size := ve_Size e;
     m_Usage := ve_Usage e;
     m_Type := ve_Type e;
     m_UsageIndex := ve_UsageIndex e;
     m_Offset := wrap field_bits (total_bytes (take i element)) |}.

(** The loop of [NewVertexDeclaration] has laid out the first [k] streams
    of the object at [vd]. *)
Definition layout_done (vd : Z) (element : list VertexElement) (k : nat) (s : State) : Prop :=
  exists d, heap_vd s !! vd = Some d /\
    length (m_Streams d) = Z.to_nat STREAM_CAPACITY /\
    m_Stride d = Some (wrap field_bits (total_bytes (take k element))) /\
    forall (j : nat) e, (j < k)%nat -> element !! j = Some e ->
      m_Streams d !! j = Some (Some (laid_out element j e)).

End WithLayout.

(** A declaration whose first [m_StreamCount] streams are [streams] and
    whose stride is [stride]. *)
Definition declares (d : VertexDeclaration) (streams : list Stream) (stride : Z) : Prop :=
  m_StreamCount d = Some (Z.of_nat (length streams)) /\
  m_Stride d = Some stride /\
  forall (i : nat) st, streams !! i = Some st -> m_Streams d !! i = Some (Some st).

(** *** Counting native calls *)

Fixpoint count_calls (p : Call -> bool) (l : list Call) : nat :=
  match l with
  | [] => 0
  | c :: l' => (if p c then 1 else 0) + count_calls p l'
  end.

Definition is_enable (c : Call) : bool :=
  match c with glEnableVertexAttribArray _ => true | _ => false end.
Definition is_disable (c : Call) : bool :=
  match c with glDisableVertexAttribArray _ => true | _ => false end.
Definition is_set_pointer (c : Call) : bool :=
  match c with glVertexAttribPointer _ _ _ _ _ _ => true | _ => false end.
Definition is_release (c : Call) : bool :=
  match c with
  | glDeleteFramebuffers _ | glDeleteRenderbuffers _ | glDeleteTextures _ => true
  | _ => false
  end.

(** The two calls [EnableVertexDeclaration] makes for one stream of a
    declaration whose field [m_Stride] holds [stride] (size and stride
    arrive as [GLint] and [GLsizei]), and the calls
    [DisableVertexDeclaration] makes for [n] streams. *)
Definition enable_calls (stride : Z) (st : Stream) : list Call :=
  [glEnableVertexAttribArray (m_Index st);
   glVertexAttribPointer (m_Index st) (int32 (m_Size st)) (m_Type st) false
                         (int32 stride) (m_Offset st)].

Definition disable_calls (n : nat) : list Call :=
  (fun i : nat => glDisableVertexAttribArray (Z.of_nat i)) <$> seq 0 n.

(** The attribute indices a list of calls enables, and disables. *)
Definition enabled_indices (l : list Call) : list Z :=
  omap (fun c => match c with glEnableVertexAttribArray i => Some i | _ => None end) l.
Definition disabled_indices (l : list Call) : list Z :=
  omap (fun c => match c with glDisableVertexAttribArray i => Some i | _ => None end) l.

(** *** Buffer data operations *)

(** The eight operations, with their arguments. *)
Inductive BufferOp : Type :=
| OpSetVertexBufferData (buffer size data buffer_usage : Z)
| OpSetVertexBufferSubData (buffer offset size data : Z)
| OpMapVertexBuffer (buffer access : Z)
| OpUnmapVertexBuffer (buffer : Z)
| OpSetIndexBufferData (buffer size data buffer_usage : Z)
| OpSetIndexBufferSubData (buffer offset size data : Z)
| OpMapIndexBuffer (buffer access : Z)
| OpUnmapIndexBuffer (buffer : Z).

(** The binding point an operation works on, the buffer it is given and
    the native call that does its work. *)
Definition op_target (op : BufferOp) : BufferTarget :=
  match op with
  | OpSetVertexBufferData _ _ _ _ | OpSetVertexBufferSubData _ _ _ _
  | OpMapVertexBuffer _ _ | OpUnmapVertexBuffer _ => GL_ARRAY_BUFFER
  | OpSetIndexBufferData _ _ _ _ | OpSetIndexBufferSubData _ _ _ _
  | OpMapIndexBuffer _ _ | OpUnmapIndexBuffer _ => GL_ELEMENT_ARRAY_BUFFER
  end.

Definition op_buffer (op : BufferOp) : Z :=
  match op with
  | OpSetVertexBufferData b _ _ _ | OpSetVertexBufferSubData b _ _ _
  | OpMapVertexBuffer b _ | OpUnmapVertexBuffer b
  | OpSetIndexBufferData b _ _ _ | OpSetIndexBufferSubData b _ _ _
  | OpMapIndexBuffer b _ | OpUnmapIndexBuffer b => b
  end.

Definition op_work (op : BufferOp) : Call :=
  match op with
  | OpSetVertexBufferData _ size data usage =>
      glBufferDataARB GL_ARRAY_BUFFER size data usage
  | OpSetVertexBufferSubData _ offset size data =>
      glBufferSubDataARB GL_ARRAY_BUFFER offset size data
  | OpMapVertexBuffer _ access => glMapBufferARB GL_ARRAY_BUFFER access
  | OpUnmapVertexBuffer _ => glUnmapBufferARB GL_ARRAY_BUFFER
  | OpSetIndexBufferData _ size data usage =>
      glBufferDataARB GL_ELEMENT_ARRAY_BUFFER size data usage
  | OpSetIndexBufferSubData _ offset size data =>
      glBufferSubDataARB GL_ELEMENT_ARRAY_BUFFER offset size data
  | OpMapIndexBuffer _ access => glMapBufferARB GL_ELEMENT_ARRAY_BUFFER access
  | OpUnmapIndexBuffer _ => glUnmapBufferARB GL_ELEMENT_ARRAY_BUFFER
  end.

(** Running an operation; the value the map and unmap operations return is
    dropped. *)
Definition run_buffer_op `{Driver} (op : BufferOp) : M State unit :=
  match op with
  | OpSetVertexBufferData b size data usage => SetVertexBufferData b size data usage
  | OpSetVertexBufferSubData b offset size data => SetVertexBufferSubData b offset size data
  | OpMapVertexBuffer b access => _ <- MapVertexBuffer b access ;; ret tt
  | OpUnmapVertexBuffer b => _ <- UnmapVertexBuffer b ;; ret tt
  | OpSetIndexBufferData b size data usage => SetIndexBufferData b size data usage
  | OpSetIndexBufferSubData b offset size data => SetIndexBufferSubData b offset size data
  | OpMapIndexBuffer b access => _ <- MapIndexBuffer b access ;; ret tt
  | OpUnmapIndexBuffer b => _ <- UnmapIndexBuffer b ;; ret tt
  end.

(** *** Program constants *)

(** The register writes for the vectors [vs], the first at register [index]. *)
Fixpoint register_writes (type : ProgramTarget) (index : Z) (vs : list Vector4)
    : list Call :=
  match vs with
  | [] => []
  | v :: vs' =>
      glProgramLocalParameter4fARB type index (v_x v) (v_y v) (v_z v) (v_w v)
        :: register_writes type (index + 1) vs'
  end.

(** *** Render targets *)

(** A render target as [NewRenderTarget] leaves it: the object at
    [rendertarget] names framebuffer [fbo] and renderbuffer [rbo] and owns
    the texture object at [texture], whose native name is [name]. *)
Definition render_target_at (s : State) (rendertarget fbo rbo texture name : Z) : Prop :=
  heap_rt s !! rendertarget =
    Some {| rt_Texture := Some texture; m_FboId := Some fbo; m_RboId := Some rbo |} /\
  texture <> NULL /\
  heap_tex s !! texture = Some {| m_Texture := Some name |}.

(** *** Concrete inputs *)

Definition empty_state : State :=
  {| gdevice := {| m_DisplayWidth := 0; m_DisplayHeight := 0 |};
     calls := [];
     heap_vd := ∅; heap_tex := ∅; heap_rt := ∅ |}.

(** A native side that reports no error, opens the window and numbers the
    objects it generates by the length of the history. *)
Definition quiet_driver : Driver :=
  {| glGetError := fun _ => 0;
     glfwOpenWindow_result := fun _ => 1;
     glGen_name := fun history => Z.of_nat (length history);
     glMapBufferARB_result := fun _ => 4096;
     glUnmapBufferARB_result := fun _ => true |}.

(** The same, but no window can be opened. *)
Definition no_window_driver : Driver :=
  {| glGetError := fun _ => 0;
     glfwOpenWindow_result := fun _ => 0;
     glGen_name := fun history => Z.of_nat (length history);
     glMapBufferARB_result := fun _ => 4096;
     glUnmapBufferARB_result := fun _ => true |}.

(** Eight streams, 32-bit offsets and stride. *)
Definition layout_8x32 : Layout := {| STREAM_CAPACITY := 8; field_bits := 32 |}.

(** A position of three floats and a colour of four unsigned bytes. *)
Definition position_colour : list VertexElement :=
  [ {| ve_Size := 3; ve_Usage := 0; ve_Type := TYPE_FLOAT; ve_UsageIndex := 0 |};
    {| ve_Size := 4; ve_Usage := 1; ve_Type := TYPE_UNSIGNED_BYTE; ve_UsageIndex := 0 |} ].

(** A first stream of [2^30] floats, [2^32] bytes, and a second of three. *)
Definition oversized : list VertexElement :=
  [ {| ve_Size := 1073741824; ve_Usage := 0; ve_Type := TYPE_FLOAT; ve_UsageIndex := 0 |};
    {| ve_Size := 3; ve_Usage := 1; ve_Type := TYPE_FLOAT; ve_UsageIndex := 0 |} ].

(** One stream of [2^30 - 1] floats, [2^32 - 4] bytes. *)
Definition wide_stream : list VertexElement :=
  [ {| ve_Size := 1073741823; ve_Usage := 0; ve_Type := TYPE_FLOAT; ve_UsageIndex := 0 |} ].

(** The declaration [NewVertexDeclaration] builds for [position_colour],
    at address [1] of an otherwise empty state. *)
Definition position_colour_streams : list Stream :=
  [ {| m_Index := 0; m_Size := 3; m_Usage := 0; m_Type := TYPE_FLOAT;
       m_UsageIndex := 0; m_Offset := 0 |};
    {| m_Index := 1; m_Size := 4; m_Usage := 1; m_Type := TYPE_UNSIGNED_BYTE;
       m_UsageIndex := 0; m_Offset := 12 |} ].

Definition position_colour_declaration : VertexDeclaration :=
  {| m_Streams := (Some <$> position_colour_streams) ++ replicate 6 None;
     m_StreamCount := Some 2;
     m_Stride := Some 16 |}.

Definition declared_state : State :=
  {| gdevice := {| m_DisplayWidth := 0; m_DisplayHeight := 0 |};
     calls := [];
     heap_vd := {[ 1 := position_colour_declaration ]};
     heap_tex := ∅; heap_rt := ∅ |}.

Definition window_params : CreateDeviceParams :=
  {| p_DisplayWidth := 640; p_DisplayHeight := 480; p_AppTitle := "test";
     p_Fullscreen := false; p_PrintDeviceInfo := true |}.

Definition two_vectors : list Vector4 :=
  [ {| v_x := 1; v_y := 2; v_z := 3; v_w := 4 |};
    {| v_x := 5; v_y := 6; v_z := 7; v_w := 8 |} ].

(** [2^29 + 1] vectors. *)
Definition many_vectors : list Vector4 :=
  replicate (Z.to_nat 536870913) {| v_x := 0; v_y := 0; v_z := 0; v_w := 0 |}.

(** The state [NewRenderTarget] leaves when it creates a 640 by 480 target
    from the empty state: the target is the object at address [1], its
    texture object is at address [1] of the texture heap with native name 1,
    its framebuffer is 8 and its renderbuffer 10. *)
Definition created_render_state : State :=
  Eval vm_compute in
    match @NewRenderTarget quiet_driver 640 480 TEXTURE_FORMAT_RGBA empty_state with
    | Done _ s => s
    | _ => empty_state
    end.

(** *** Frames *)

(** [s'] differs from [s] at most in the history of native calls. *)
Definition same_but_calls (s s' : State) : Prop :=
  gdevice s' = gdevice s /\ heap_vd s' = heap_vd s /\
  heap_tex s' = heap_tex s /\ heap_rt s' = heap_rt s.

(** A computation that only makes native calls. *)
Definition only_calls {A} (m : M State A) : Prop :=
  forall s a s', m s = Done a s' -> same_but_calls s s'.

(** The run of [m] from [s] is not undefined, has made exactly the calls
    [issued] when it returns, and returns when [healthy] holds. *)
Definition runs_issuing (m : M State unit) (s : State) (issued : list Call)
    (healthy : Prop) : Prop :=
  m s <> Undefined /\
  (forall s', m s = Done tt s' -> calls s' = calls s ++ issued) /\
  (healthy -> exists s', m s = Done tt s').

(** *** Objects and the calls that make them *)

(** The state [s] with the declaration [d] stored at [vd]. *)
Definition with_declaration (vd : Z) (d : VertexDeclaration) (s : State) : State :=
  set_heap_vd (<[vd := d]> (heap_vd s)) s.

(** What the calls of a list leave of the enabled flag of attribute
    [index], starting from [enabled]. *)
Definition attribute_after (index : Z) (l : list Call) (enabled : bool) : bool :=
  fold_left (fun enabled c =>
               match c with
               | glEnableVertexAttribArray i => if decide (i = index) then true else enabled
               | glDisableVertexAttribArray i => if decide (i = index) then false else enabled
               | _ => enabled
               end) l enabled.

(** The queries and prints [NewDevice] makes when asked for device
    information. *)
Definition device_info_calls (print : bool) : list Call :=
  if print then
    [glGetString GL_RENDERER; printf_info GL_RENDERER;
     glGetString GL_VERSION; printf_info GL_VERSION;
     glGetString GL_VENDOR; printf_info GL_VENDOR;
     glGetString GL_EXTENSIONS; printf_info GL_EXTENSIONS]
  else [].

(** The native calls of [NewTexture], for the generated name [t]. *)
Definition texture_calls (t : Z) : list Call :=
  [glGenTextures; glBindTexture t; glTexParameteri_no_mipmap;
   glTexParameteri_min_linear; glTexParameteri_mag_linear].

(** The native calls of [NewRenderTarget] after those of [NewTexture], for
    the generated names [t], [fbo] and [rbo]: the texture image takes the
    arguments reduced to [uint16_t], the depth buffer takes them converted
    to [GLsizei]. *)
Definition render_target_calls (t fbo rbo width height : Z) : list Call :=
  [glBindTexture t;
   glTexImage2D 0 4 (width mod 2 ^ 16) (height mod 2 ^ 16) TEXTURE_FORMAT_RGBA 0;
   glGenFramebuffers; glBindFramebuffer fbo;
   glGenRenderbuffers; glBindRenderbuffer rbo;
   glRenderbufferStorage_depth (int32 width) (int32 height); glBindRenderbuffer 0;
   glFramebufferTexture2D_color0 t; glFramebufferRenderbuffer_depth rbo;
   glBindFramebuffer 0; glBindRenderbuffer 0].

(** The upload call of [SetTextureData] for a format the file names; the
    compressed upload takes [data_size] converted to [GLsizei]. *)
Definition upload_call (format : TextureFormat) (mip_map width height data data_size : Z)
    : option Call :=
  match format with
  | TEXTURE_FORMAT_LUMINANCE => Some (glTexImage2D mip_map 1 width height format data)
  | TEXTURE_FORMAT_RGB => Some (glTexImage2D mip_map 3 width height format data)
  | TEXTURE_FORMAT_RGBA => Some (glTexImage2D mip_map 4 width height format data)
  | TEXTURE_FORMAT_RGB_DXT1 | TEXTURE_FORMAT_RGBA_DXT1
  | TEXTURE_FORMAT_RGBA_DXT3 | TEXTURE_FORMAT_RGBA_DXT5 =>
      Some (glCompressedTexImage2D mip_map format width height (int32 data_size) data)
  | TEXTURE_FORMAT_other _ => None
  end.

(** The state [NewRenderTarget] leaves, for the generated names. *)
Definition with_render_target (t fbo rbo width height : Z) (s : State) : State :=
  let rt := new_address (heap_rt s) in
  let tex := new_address (heap_tex s) in
  set_heap_rt (<[rt := {| rt_Texture := Some tex; m_FboId := Some fbo;
                          m_RboId := Some rbo |}]> (heap_rt s))
    (set_heap_tex (<[tex := {| m_Texture := Some t |}]> (heap_tex s))
       (set_calls (calls s ++ texture_calls t ++ render_target_calls t fbo rbo width height)
          s)).

(** Eight descriptors: as many as [layout_8x32] has streams. *)
Definition eight_elements : list VertexElement :=
  replicate 8 {| ve_Size := 1; ve_Usage := 0; ve_Type := TYPE_FLOAT; ve_UsageIndex := 0 |}.

(** A native side that opens the window and reports an error at every
    query. *)
Definition error_driver : Driver :=
  {| glGetError := fun _ => 1;
     glfwOpenWindow_result := fun _ => 1;
     glGen_name := fun history => Z.of_nat (length history);
     glMapBufferARB_result := fun _ => 4096;
     glUnmapBufferARB_result := fun _ => true |}.

End GraphicsSpec.

Module SocketsSpec.
Import dmTestUtil.

(** The three outputs of [GetSocketsFromConfig], by the key each receives. *)
Inductive Key : Type := Socket | SocketSsl | SocketSslTest.

Global Instance Key_eq_dec : EqDecision Key.
Proof. solve_decision. Defined.

Definition key_name (k : Key) : string :=
  match k with
  | Socket => "server.socket"
  | SocketSsl => "server.socket_ssl"
  | SocketSslTest => "server.socket_ssl_test"
  end.

Definition pointers (socket socket_ssl socket_ssl_test : Z) (k : Key) : Z :=
  match k with
  | Socket => socket
  | SocketSsl => socket_ssl
  | SocketSslTest => socket_ssl_test
  end.

(** No two outputs share an [int] object. *)
Definition no_alias (pointer : Key -> Z) : Prop :=
  forall k1 k2, k1 <> k2 -> pointer k1 <> 0 -> pointer k1 <> pointer k2.

Section WithConfigFile.
Context `{ConfigFile}.

(** One [if] block of [GetSocketsFromConfig], and the blocks run in a
    given order. *)
Definition read_key (config : HConfig) (pointer : Key -> Z) (k : Key) : M State unit :=
  if decide (pointer k <> 0) then
    v <- GetInt config (key_name k) (-1) ;; store_int (pointer k) v
  else ret tt.

Fixpoint read_in_order (config : HConfig) (pointer : Key -> Z) (order : list Key)
    : M State unit :=
  match order with
  | [] => ret tt
  | [k] => read_key config pointer k
  | k :: rest => read_key config pointer k ;;; read_in_order config pointer rest
  end.

(** The events of one block. *)
Definition block (config : HConfig) (pointer : Key -> Z) (k : Key) : list Event :=
  if decide (pointer k <> 0) then
    [Lookup (key_name k); Store (pointer k) (GetInt_value config (key_name k) (-1))]
  else [].

(** The memory after the blocks for [order] have run. *)
Definition stored (config : HConfig) (pointer : Key -> Z) (order : list Key)
    (m : gmap Z Z) : gmap Z Z :=
  foldl (fun m k =>
           if decide (pointer k <> 0)
           then <[pointer k := GetInt_value config (key_name k) (-1)]> m
           else m) m order.

End WithConfigFile.

(** The position of a key's block in [GetSocketsFromConfig]. *)
Definition key_index (k : Key) : nat :=
  match k with
  | Socket => 0
  | SocketSsl => 1
  | SocketSslTest => 2
  end.

(** A store with two of the three keys, and a caller with no memory yet. *)
Definition two_socket_config : gmap string Z :=
  {[ "server.socket" := 9001; "server.socket_ssl_test" := 9003 ]}.

Definition empty_memory : State := {| memory := ∅; events := [] |}.

End SocketsSpec.

(** * Properties *)

(** ** Rules for runs *)

Lemma wp_ret {S A} strict (a : A) (s : S) Q : Q a s -> wp strict (ret a) s Q.
Proof. done. Qed.

Lemma wp_bind {S A B} strict (m : M S A) (k : A -> M S B) s Q :
  wp strict m s (fun a s' => wp strict (k a) s' Q) -> wp strict (bind m k) s Q.
Proof. unfold wp, bind. by destruct (m s). Qed.

Lemma wp_mono {S A} strict (m : M S A) s (Q Q' : A -> S -> Prop) :
  wp strict m s Q -> (forall a s', Q a s' -> Q' a s') -> wp strict m s Q'.
Proof. unfold wp. destruct (m s); auto. Qed.

Lemma wp_assert {S} strict (b : bool) (s : S) Q :
  (strict = true -> b = true) -> (b = true -> Q tt s) ->
  wp strict (assert_that b) s Q.
Proof.
  unfold wp, assert_that. destruct b; [auto|].
  intros Hs _. destruct strict; [by specialize (Hs eq_refl)|done].
Qed.

Lemma wp_defined {S A} strict (o : option A) (a : A) (s : S) Q :
  o = Some a -> Q a s -> wp strict (defined o) s Q.
Proof. by intros ->. Qed.

Lemma wp_get {S} strict (s : S) Q : Q s s -> wp strict get_state s Q.
Proof. done. Qed.

Lemma wp_modify {S} strict (f : S -> S) (s : S) Q :
  Q tt (f s) -> wp strict (modify_state f) s Q.
Proof. done. Qed.

Lemma wp_int_result {S} strict x (s : S) (Q : Z -> S -> Prop) :
  INT_MIN <= x <= INT_MAX -> Q x s -> wp strict (int_result x) s Q.
Proof. intros Hx HQ. unfold wp, int_result. by rewrite decide_True. Qed.

(** What a run proved with [wp] gives: the postcondition when it returns,
    never an undefined outcome, and a return when the proof is strict. *)
Lemma wp_done {S A} strict (m : M S A) s Q a s' :
  wp strict m s Q -> m s = Done a s' -> Q a s'.
Proof. unfold wp. intros Hw Hm. by rewrite Hm in Hw. Qed.

Lemma wp_not_undefined {S A} strict (m : M S A) s Q :
  wp strict m s Q -> m s <> Undefined.
Proof. unfold wp. by destruct (m s). Qed.

Lemma wp_returns {S A} (m : M S A) s Q :
  wp true m s Q -> exists a s', m s = Done a s' /\ Q a s'.
Proof. unfold wp. destruct (m s); [eauto|done..]. Qed.

(** The loop rule: [Inv k] holds after [k] iterations. *)
Lemma wp_for_range {S} strict (Inv : nat -> S -> Prop) n i body (s : S) :
  Inv 0%nat s ->
  (forall k sa, (k < n)%nat -> Inv k sa ->
     wp strict (body (i + Z.of_nat k)) sa (fun _ sb => Inv (Datatypes.S k) sb)) ->
  wp strict (for_range n i body) s (fun _ s' => Inv n s').
Proof.
  revert Inv i s. induction n as [|n IH]; intros Inv i s H0 Hstep; [done|].
  simpl. apply wp_bind.
  eapply wp_mono.
  { specialize (Hstep 0%nat s). rewrite Z.add_0_r in Hstep. apply Hstep; [lia|done]. }
  intros u s1 H1. cbv beta in H1 |- *.
  apply (IH (fun k => Inv (Datatypes.S k))); [done|].
  intros k sa Hk Hsa.
  replace (i + 1 + Z.of_nat k) with (i + Z.of_nat (Datatypes.S k)) by lia.
  apply Hstep; [lia|done].
Qed.

Lemma lockstep_bind {S A B} (R : A -> S -> A -> S -> Prop)
    (R' : B -> S -> B -> S -> Prop) (m1 m2 : M S A) (k1 k2 : A -> M S B) s1 s2 :
  lockstep R (m1 s1) (m2 s2) ->
  (forall a1 t1 a2 t2, R a1 t1 a2 t2 -> lockstep R' (k1 a1 t1) (k2 a2 t2)) ->
  lockstep R' (bind m1 k1 s1) (bind m2 k2 s2).
Proof.
  unfold lockstep at 1, bind. destruct (m1 s1), (m2 s2); try done. auto.
Qed.

Lemma lockstep_for_range {S} (R : S -> S -> Prop) (body1 body2 : Z -> M S unit) :
  (forall i t1 t2, R t1 t2 ->
     lockstep (fun _ u1 _ u2 => R u1 u2) (body1 i t1) (body2 i t2)) ->
  forall n i s1 s2, R s1 s2 ->
    lockstep (fun _ u1 _ u2 => R u1 u2)
             (for_range n i body1 s1) (for_range n i body2 s2).
Proof.
  intros Hbody. induction n as [|n IH]; intros i s1 s2 HR; [done|].
  simpl. eapply lockstep_bind; [by apply Hbody|].
  intros u1 t1 u2 t2 Ht. by apply IH.
Qed.

Module GraphicsProofs.
Import dmGraphics GraphicsSpec.

(** ** Component sizes *)

(** C5.  [GetTypeSize] returns 1 for [TYPE_BYTE] and [TYPE_UNSIGNED_BYTE],
    2 for [TYPE_SHORT] and [TYPE_UNSIGNED_SHORT], 4 for [TYPE_INT],
    [TYPE_UNSIGNED_INT] and [TYPE_FLOAT], in any state and without changing
    it; for every other tag it stops in [assert(0)] and returns nothing. *)
Theorem GetTypeSize_component_sizes (S : Type) (s : S) :
  GetTypeSize TYPE_BYTE s = Done 1 s /\
  GetTypeSize TYPE_UNSIGNED_BYTE s = Done 1 s /\
  GetTypeSize TYPE_SHORT s = Done 2 s /\
  GetTypeSize TYPE_UNSIGNED_SHORT s = Done 2 s /\
  GetTypeSize TYPE_INT s = Done 4 s /\
  GetTypeSize TYPE_UNSIGNED_INT s = Done 4 s /\
  GetTypeSize TYPE_FLOAT s = Done 4 s /\
  (forall tag, GetTypeSize (TYPE_other tag) s = AssertFailed).
Proof. repeat split. Qed.

Lemma GetTypeSize_run {S} (t : Type_) (s : S) :
  GetTypeSize t s =
    match type_size t with Some n => Done n s | None => AssertFailed end.
Proof. by destruct t. Qed.

(** ** Conversion to a signed 32-bit integer *)

Lemma int32_range x : INT_MIN <= int32 x <= INT_MAX.
Proof.
  unfold int32, INT_MIN, INT_MAX.
  pose proof (Z.mod_pos_bound (x + 2 ^ 31) (2 ^ 32) ltac:(lia)). lia.
Qed.

Lemma int32_small x : INT_MIN <= x <= INT_MAX -> int32 x = x.
Proof.
  unfold int32, INT_MIN, INT_MAX. intros Hx.
  rewrite Z.mod_small by lia. lia.
Qed.

Lemma int32_negative x : INT_MAX < x < 2 ^ 32 -> int32 x = x - 2 ^ 32.
Proof.
  unfold int32, INT_MAX. intros Hx.
  replace (x + 2 ^ 31) with ((x - 2 ^ 31) + 1 * 2 ^ 32) by lia.
  rewrite Z_mod_plus_full, Z.mod_small by lia. lia.
Qed.

(** ** Construction of a vertex declaration *)

Lemma wrap_accumulate bits a b :
  0 <= bits <= 32 ->
  wrap bits (uint32 (wrap bits a + uint32 b)) = wrap bits (a + b).
Proof.
  intros Hb. unfold uint32, wrap.
  assert (2 ^ 32 = 2 ^ bits * 2 ^ (32 - bits)) as Hpow.
  { rewrite <- Z.pow_add_r by lia. f_equal. lia. }
  assert (0 < 2 ^ bits) by (apply Z.pow_pos_nonneg; lia).
  assert (0 < 2 ^ (32 - bits)) by (apply Z.pow_pos_nonneg; lia).
  assert (forall x, (x mod 2 ^ 32) mod 2 ^ bits = x mod 2 ^ bits) as Hdiv.
  { intros x. apply Z.mod_mod_divide. exists (2 ^ (32 - bits)). lia. }
  rewrite Hdiv. rewrite Zplus_mod, Hdiv. rewrite Zmod_mod.
  by rewrite <- Zplus_mod.
Qed.

Lemma wrap_two_pow_32 bits x :
  0 <= bits <= 32 -> wrap bits (4294967296 + x) = wrap bits x.
Proof.
  intros Hb. unfold wrap.
  assert (4294967296 = 2 ^ (32 - bits) * 2 ^ bits) as ->.
  { rewrite <- Z.pow_add_r by lia. replace (32 - bits + bits) with 32 by lia. done. }
  rewrite Z.add_comm. apply Z_mod_plus_full.
Qed.

Lemma total_bytes_app l1 l2 :
  total_bytes (l1 ++ l2) = total_bytes l1 + total_bytes l2.
Proof. induction l1 as [|e l1 IH]; simpl; [done|]. rewrite IH. lia. Qed.

Lemma total_bytes_take_S element (i : nat) e :
  element !! i = Some e ->
  total_bytes (take (S i) element) = total_bytes (take i element) + stream_bytes e.
Proof.
  intros He. rewrite (take_S_r _ _ _ He), total_bytes_app. simpl. lia.
Qed.

Lemma total_bytes_nonneg element :
  Forall (fun e => 0 <= stream_bytes e) element -> 0 <= total_bytes element.
Proof. induction 1; simpl; lia. Qed.

Lemma total_bytes_take_le element (i : nat) :
  Forall (fun e => 0 <= stream_bytes e) element ->
  0 <= total_bytes (take i element) <= total_bytes element.
Proof.
  intros Hall. rewrite <- (take_drop i element) at 3. rewrite total_bytes_app.
  pose proof (total_bytes_nonneg (take i element)) as H1.
  pose proof (total_bytes_nonneg (drop i element)) as H2.
  rewrite <- (take_drop i element) in Hall. apply Forall_app in Hall as [Ha Hb].
  specialize (H1 Ha). specialize (H2 Hb). lia.
Qed.

(** [new] never returns the null pointer. *)
Lemma new_address_not_null {V} (heap : gmap Z V) : new_address heap <> NULL.
Proof.
  unfold new_address. intros Heq.
  pose proof (is_fresh ({[NULL]} ∪ dom heap)) as Hfresh.
  rewrite Heq in Hfresh. apply Hfresh. apply elem_of_union_l. by apply elem_of_singleton.
Qed.

(** A loop that returns has kept an invariant indexed by the number of
    iterations done. *)
Lemma for_range_invariant {St} (Inv : nat -> St -> Prop) (body : Z -> M St unit) :
  (forall (k : nat) sa sb,
     Inv k sa -> body (Z.of_nat k) sa = Done tt sb -> Inv (S k) sb) ->
  forall (n k : nat) s s',
    Inv k s -> for_range n (Z.of_nat k) body s = Done tt s' -> Inv (k + n)%nat s'.
Proof.
  intros Hbody. induction n as [|n IH]; intros k s s' Hs Hrun.
  - injection Hrun as <-. by rewrite Nat.add_0_r.
  - cbn [for_range] in Hrun. unfold bind in Hrun.
    destruct (body (Z.of_nat k) s) as [[] s1| |] eqn:Hb; [|done..].
    replace (Z.of_nat k + 1) with (Z.of_nat (S k)) in Hrun by lia.
    replace (k + S n)%nat with (S k + n)%nat by lia.
    eapply IH; [|exact Hrun]. eapply Hbody; [exact Hs|exact Hb].
Qed.

Section VertexDeclarations.
Context `{Layout}.

(** Two runs of the loop body on equal objects do the same and leave equal
    objects. *)
Lemma body_lockstep p1 p2 element i t1 t2 :
  same_object p1 p2 t1 t2 ->
  lockstep (fun _ u1 _ u2 => same_object p1 p2 u1 u2)
    (NewVertexDeclaration_body p1 element i t1)
    (NewVertexDeclaration_body p2 element i t2).
Proof.
  unfold same_object. intros HR.
  unfold NewVertexDeclaration_body, load_vd, store_vd, bind, get_state, defined,
    modify_state, ret, undefined.
  destruct (element !! Z.to_nat i) as [e|]; [|done].
  rewrite HR. destruct (heap_vd t2 !! p2) as [d|] eqn:Hd; [|done].
  destruct (m_Stride d) as [stride|] eqn:Hs; [|done].
  destruct (decide _); [|done].
  rewrite !GetTypeSize_run. destruct (type_size (ve_Type e)) as [n|]; [|done].
  simpl. rewrite !lookup_insert_eq. simpl. rewrite Hs. simpl.
  by rewrite !lookup_insert_eq.
Qed.

(** Two runs of [NewVertexDeclaration] on the same descriptor sequence and
    count, in any two states, end the same way and leave objects with
    equal fields. *)
Lemma NewVertexDeclaration_lockstep (element : list VertexElement)
    (count : Z) (s1 s2 : State) :
  lockstep (fun p1 u1 p2 u2 =>
              exists d1 d2, heap_vd u1 !! p1 = Some d1 /\ heap_vd u2 !! p2 = Some d2 /\
                m_StreamCount d1 = m_StreamCount d2 /\
                m_Stride d1 = m_Stride d2 /\
                (forall i : nat, m_Streams d1 !! i = m_Streams d2 !! i))
    (NewVertexDeclaration element count s1)
    (NewVertexDeclaration element count s2).
Proof.
  unfold NewVertexDeclaration.
  set (p1 := new_address (heap_vd s1)). set (p2 := new_address (heap_vd s2)).
  unfold new_VertexDeclaration, load_vd, store_vd, bind, get_state, defined,
    modify_state, ret, undefined, assert_that. simpl.
  fold p1 p2. rewrite !lookup_insert_eq.
  destruct (bool_decide (count < STREAM_CAPACITY)); [|done].
  match goal with
  | |- context [for_range _ _ _ ?t1] =>
      match goal with
      | |- context [lockstep _ _ (match for_range _ _ _ ?t2 with _ => _ end)] =>
          pose proof (lockstep_for_range (same_object p1 p2) _ _
                        (body_lockstep p1 p2 element) (Z.to_nat count) 0 t1 t2) as Hl
      end
  end.
  match type of Hl with
  | same_object _ _ ?t1 ?t2 -> lockstep _ ?o1 ?o2 =>
      assert (same_object p1 p2 t1 t2) as HR
        by (unfold same_object; simpl; by rewrite !lookup_insert_eq);
      specialize (Hl HR); clear HR;
      destruct o1 as [u1 t1'| |], o2 as [u2 t2'| |]; try done
  end.
  unfold same_object in Hl. unfold lockstep. rewrite Hl.
  destruct (heap_vd t2' !! p2) as [d|]; [|done].
  eexists _, _. simpl. rewrite !lookup_insert_eq. done.
Qed.

(** One iteration of the loop lays out one more stream. *)
Lemma body_step vd element (k : nat) s :
  0 <= field_bits <= 32 ->
  (k < Z.to_nat STREAM_CAPACITY)%nat ->
  (k < length element)%nat ->
  (forall e, element !! k = Some e -> is_Some (type_size (ve_Type e))) ->
  layout_done vd element k s ->
  wp true (NewVertexDeclaration_body vd element (0 + Z.of_nat k)) s
     (fun _ s' => layout_done vd element (S k) s').
Proof.
  intros Hbits Hcap Hlen Hty (d & Hd & Hl & Hs & Hstreams).
  destruct (lookup_lt_is_Some_2 element k Hlen) as [e He].
  destruct (Hty e He) as [n Hn].
  unfold wp, NewVertexDeclaration_body, load_vd, store_vd, bind, get_state,
    defined, modify_state, ret, undefined.
  rewrite Z.add_0_l, Nat2Z.id, He, Hd, Hs.
  destruct (decide _) as [_|Hno]; [|lia].
  rewrite GetTypeSize_run, Hn. simpl. rewrite !lookup_insert_eq. simpl. rewrite Hs.
  simpl. exists (with_Stride
    (wrap field_bits (uint32 (wrap field_bits (total_bytes (take k element))
                              + uint32 (ve_Size e * n))))
    (with_Stream k
       {| m_Index := Z.of_nat k; m_Size := ve_Size e; m_Usage := ve_Usage e;
          m_Type := ve_Type e; m_UsageIndex := ve_UsageIndex e;
          m_Offset := wrap field_bits (total_bytes (take k element)) |} d)).
  split; [cbn [heap_vd set_heap_vd]; by rewrite lookup_insert_eq|].
  split; [by simpl; rewrite length_insert|].
  split.
  - simpl. f_equal. rewrite (wrap_accumulate _ _ _ Hbits).
    rewrite (total_bytes_take_S _ _ _ He). unfold stream_bytes. by rewrite Hn.
  - intros j e' Hj He'. simpl.
    destruct (decide (j = k)) as [->|Hne].
    + rewrite list_lookup_insert_eq by lia. by simplify_eq.
    + rewrite list_lookup_insert_ne by done. apply Hstreams; [lia|done].
Qed.

(** The declaration built for a sequence of recognised descriptors that
    fits the stream array. *)
Lemma NewVertexDeclaration_run (element : list VertexElement) (s : State) :
  0 <= field_bits <= 32 ->
  Z.of_nat (length element) < STREAM_CAPACITY ->
  Forall (fun e => is_Some (type_size (ve_Type e))) element ->
  exists vd s' d,
    NewVertexDeclaration element (Z.of_nat (length element)) s = Done vd s' /\
    vd = new_address (heap_vd s) /\
    heap_vd s' !! vd = Some d /\
    m_StreamCount d = Some (Z.of_nat (length element)) /\
    m_Stride d = Some (wrap field_bits (total_bytes element)) /\
    (forall (i : nat) e, element !! i = Some e ->
       m_Streams d !! i = Some (Some (laid_out element i e))).
Proof.
  intros Hbits Hcap Hty.
  unfold NewVertexDeclaration.
  set (vd := new_address (heap_vd s)).
  unfold new_VertexDeclaration, load_vd, store_vd, bind, get_state, defined,
    modify_state, ret, undefined, assert_that. simpl.
  fold vd. rewrite !lookup_insert_eq.
  rewrite bool_decide_eq_true_2 by done.
  rewrite Nat2Z.id.
  match goal with
  | |- context [for_range _ _ _ ?t] =>
      pose proof (wp_for_range true (layout_done vd element) (length element) 0
                    (NewVertexDeclaration_body vd element) t) as Hloop
  end.
  apply wp_returns in Hloop as (u & s' & -> & d & Hd & Hl & Hs & Hstreams).
  - rewrite Hd. eexists vd, _, _. split; [done|]. split; [done|].
    cbn [heap_vd set_heap_vd]. rewrite lookup_insert_eq.
    rewrite firstn_all in Hs.
    split; [done|]. split; [done|]. split; [done|].
    intros i e He. apply Hstreams; [|done]. by eapply lookup_lt_Some.
  - exists (with_Stride 0 indeterminate_VertexDeclaration).
    cbn [heap_vd set_heap_vd]. rewrite lookup_insert_eq.
    split; [done|]. split; [by simpl; rewrite length_replicate|].
    split; [done|]. intros j e Hj. lia.
  - intros k sa Hk Hsa. apply body_step; try done.
    + lia.
    + intros e He. eapply Forall_lookup_1 in Hty; [|done]. done.
Qed.

(** An iteration that returns has assigned the stream of its index and
    left a stride. *)
Lemma body_assigns vd element (k : nat) sa sb :
  (exists d stride, heap_vd sa !! vd = Some d /\ m_Stride d = Some stride /\
     forall j : nat, (j < k)%nat -> exists st, m_Streams d !! j = Some (Some st)) ->
  NewVertexDeclaration_body vd element (Z.of_nat k) sa = Done tt sb ->
  exists d stride, heap_vd sb !! vd = Some d /\ m_Stride d = Some stride /\
    forall j : nat, (j < S k)%nat -> exists st, m_Streams d !! j = Some (Some st).
Proof.
  intros (d & stride & Hd & Hs & Hstreams).
  unfold NewVertexDeclaration_body, load_vd, store_vd, bind, get_state, defined,
    modify_state, ret, undefined.
  rewrite Nat2Z.id.
  destruct (element !! k) as [e|]; [|done].
  rewrite Hd, Hs.
  destruct (decide _) as [Hlen|]; [|done].
  rewrite GetTypeSize_run. destruct (type_size (ve_Type e)) as [n|]; [|done].
  cbn [heap_vd set_heap_vd]. rewrite !lookup_insert_eq. cbn [m_Stride with_Stream].
  rewrite Hs. intros Hrun. injection Hrun as <-.
  eexists _, _. cbn [heap_vd set_heap_vd]. rewrite lookup_insert_eq.
  split; [done|]. split; [done|].
  intros j Hj. cbn [m_Streams with_Stride with_Stream].
  destruct (decide (j = k)) as [->|Hne].
  - eexists. by rewrite list_lookup_insert_eq.
  - rewrite list_lookup_insert_ne by done. apply Hstreams. lia.
Qed.

(** A run of [NewVertexDeclaration] that returns has assigned the stream
    count it was given, a stride, and every stream below the count. *)
Lemma NewVertexDeclaration_assigned element count s vd s' :
  NewVertexDeclaration element count s = Done vd s' ->
  exists d stride, heap_vd s' !! vd = Some d /\
    m_StreamCount d = Some count /\ m_Stride d = Some stride /\
    forall i : nat, (i < Z.to_nat count)%nat ->
      exists st, m_Streams d !! i = Some (Some st).
Proof.
  unfold NewVertexDeclaration.
  set (p := new_address (heap_vd s)).
  unfold new_VertexDeclaration, load_vd, store_vd, bind, get_state, defined,
    modify_state, ret, undefined, assert_that. cbn [heap_vd set_heap_vd].
  fold p. rewrite !lookup_insert_eq.
  destruct (bool_decide (count < STREAM_CAPACITY)); [|done].
  match goal with
  | |- context [for_range ?n ?i ?b ?t] =>
      destruct (for_range n i b t) as [[] s1| |] eqn:Hloop; [|done..];
      pose proof (for_range_invariant
                    (fun k u => exists d stride,
                       heap_vd u !! p = Some d /\ m_Stride d = Some stride /\
                       forall j : nat, (j < k)%nat ->
                         exists st, m_Streams d !! j = Some (Some st))
                    b (body_assigns p element) n 0%nat t s1) as Hinv
  end.
  destruct Hinv as (d & stride & Hd & Hs & Hstreams); [|exact Hloop|].
  { eexists _, _. cbn [heap_vd set_heap_vd]. rewrite lookup_insert_eq.
    split; [done|]. split; [done|]. intros j Hj. lia. }
  rewrite Hd. intros Hrun. injection Hrun as <- <-.
  exists (with_StreamCount count d), stride.
  cbn [heap_vd set_heap_vd]. rewrite lookup_insert_eq.
  split; [done|]. split; [done|]. split; [done|].
  intros i Hi. apply Hstreams. lia.
Qed.

(** The loop of [NewVertexDeclaration] runs to its end exactly when every
    type tag it meets is recognised; it stops in [assert] at the first one
    that is not. *)
Lemma layout_loop_outcome vd element :
  forall (n k : nat) s,
    (exists d stride, heap_vd s !! vd = Some d /\ m_Stride d = Some stride /\
                      length (m_Streams d) = Z.to_nat STREAM_CAPACITY) ->
    (k + n <= length element)%nat ->
    (k + n <= Z.to_nat STREAM_CAPACITY)%nat ->
    (Forall (fun e => is_Some (type_size (ve_Type e))) (take n (drop k element)) ->
     exists s', for_range n (Z.of_nat k) (NewVertexDeclaration_body vd element) s
                  = Done tt s' /\ is_Some (heap_vd s' !! vd)) /\
    (~ Forall (fun e => is_Some (type_size (ve_Type e))) (take n (drop k element)) ->
     for_range n (Z.of_nat k) (NewVertexDeclaration_body vd element) s = AssertFailed).
Proof.
  induction n as [|n IH]; intros k s (d & stride & Hd & Hs & Hl) Hlen Hcap.
  { split; [intros _; exists s; split; [done|by rewrite Hd]|].
    intros Hno. exfalso. apply Hno. constructor. }
  destruct (lookup_lt_is_Some_2 element k) as [e He]; [lia|].
  rewrite (drop_S _ _ _ He). cbn [take for_range]. unfold bind.
  assert (NewVertexDeclaration_body vd element (Z.of_nat k) s =
          match type_size (ve_Type e) with
          | Some size =>
              Done tt (with_declaration vd
                (with_Stride (wrap field_bits (uint32 (stride + uint32 (ve_Size e * size))))
                   (with_Stream k {| m_Index := Z.of_nat k; m_Size := ve_Size e;
                                     m_Usage := ve_Usage e; m_Type := ve_Type e;
                                     m_UsageIndex := ve_UsageIndex e;
                                     m_Offset := stride |} d)) s)
          | None => AssertFailed
          end) as Hbody.
  { unfold NewVertexDeclaration_body, load_vd, store_vd, bind, get_state, defined,
      modify_state, ret, undefined.
    rewrite Nat2Z.id, He, Hd, Hs. rewrite decide_True by lia.
    rewrite GetTypeSize_run. destruct (type_size (ve_Type e)) as [size|]; [|done].
    cbn [heap_vd set_heap_vd]. rewrite !lookup_insert_eq. cbn [m_Stride with_Stream].
    rewrite Hs. unfold with_declaration, set_heap_vd. cbn. by rewrite insert_insert_eq. }
  rewrite Hbody. destruct (type_size (ve_Type e)) as [size|] eqn:Hsize.
  - replace (Z.of_nat k + 1) with (Z.of_nat (S k)) by lia.
    match goal with
    | |- context [for_range n _ _ ?t] => destruct (IH (S k) t) as [Hyes Hno]
    end.
    + eexists _, _. unfold with_declaration. cbn [heap_vd set_heap_vd].
      rewrite lookup_insert_eq. split; [done|]. split; [done|].
      cbn [m_Streams with_Stride with_Stream]. by rewrite length_insert.
    + lia.
    + lia.
    + split.
      * intros Hall. apply Forall_cons in Hall as [_ Hall]. by apply Hyes.
      * intros Hnall. apply Hno. intros Hall. apply Hnall. constructor; [eauto|done].
  - split; [|done]. intros Hall. apply Forall_cons in Hall as [[? Hc] _]. congruence.
Qed.

(** [NewVertexDeclaration] returns for a count within the caller's array
    and below the size of the stream array when the type tags of the
    descriptors it reads are recognised. *)
Lemma NewVertexDeclaration_returns element count s :
  count <= Z.of_nat (length element) ->
  count < STREAM_CAPACITY ->
  Forall (fun e => is_Some (type_size (ve_Type e))) (take (Z.to_nat count) element) ->
  exists vd s', NewVertexDeclaration element count s = Done vd s'.
Proof.
  intros Hlen Hcap Hall. unfold NewVertexDeclaration.
  set (p := new_address (heap_vd s)).
  unfold new_VertexDeclaration, load_vd, store_vd, bind, get_state, defined,
    modify_state, ret, undefined, assert_that. cbn [heap_vd set_heap_vd].
  fold p. rewrite !lookup_insert_eq.
  rewrite bool_decide_eq_true_2 by done.
  match goal with
  | |- context [for_range _ _ _ ?t] =>
      destruct (layout_loop_outcome p element (Z.to_nat count) 0%nat t)
        as [Hyes _]
  end.
  - eexists _, _. cbn [heap_vd set_heap_vd]. rewrite lookup_insert_eq.
    split; [done|]. split; [done|]. cbn. by rewrite length_replicate.
  - lia.
  - lia.
  - rewrite drop_0 in Hyes. change (Z.of_nat 0) with 0 in Hyes.
    destruct (Hyes Hall) as (s1 & -> & [d1 ->]). eauto.
Qed.

(** C7.  Two calls of [NewVertexDeclaration] with the same descriptor
    sequence and count, in any two states (so also one after the other),
    end the same way.  When they return, both declarations carry the stream
    count that was given, both carry one and the same stride, every stream
    below the count is assigned in both and is the same stream in both,
    hence with the same offset, and the stream arrays agree entry by
    entry.  The two calls do return when the count is within the
    descriptor sequence and below the size of the stream array and the type
    tags of the descriptors read are recognised. *)
Theorem NewVertexDeclaration_deterministic (element : list VertexElement)
    (count : Z) (s1 s2 : State) :
  lockstep (fun p1 u1 p2 u2 =>
              exists d1 d2 stride,
                heap_vd u1 !! p1 = Some d1 /\ heap_vd u2 !! p2 = Some d2 /\
                m_StreamCount d1 = Some count /\ m_StreamCount d2 = Some count /\
                m_Stride d1 = Some stride /\ m_Stride d2 = Some stride /\
                (forall i : nat, (i < Z.to_nat count)%nat ->
                   exists st, m_Streams d1 !! i = Some (Some st) /\
                              m_Streams d2 !! i = Some (Some st)) /\
                (forall i : nat, m_Streams d1 !! i = m_Streams d2 !! i))
    (NewVertexDeclaration element count s1)
    (NewVertexDeclaration element count s2) /\
  (count <= Z.of_nat (length element) ->
   count < STREAM_CAPACITY ->
   Forall (fun e => is_Some (type_size (ve_Type e))) (take (Z.to_nat count) element) ->
   exists p1 u1 p2 u2,
     NewVertexDeclaration element count s1 = Done p1 u1 /\
     NewVertexDeclaration element count s2 = Done p2 u2).
Proof.
  split.
  - pose proof (NewVertexDeclaration_lockstep element count s1 s2) as Hl.
    destruct (NewVertexDeclaration element count s1) as [p1 u1| |] eqn:H1,
             (NewVertexDeclaration element count s2) as [p2 u2| |] eqn:H2;
      try done.
    destruct Hl as (d1 & d2 & Hd1 & Hd2 & _ & Hstride & Hstreams).
    destruct (NewVertexDeclaration_assigned _ _ _ _ _ H1)
      as (d1' & stride & Hd1' & Hc1 & Hs1 & Hst1).
    destruct (NewVertexDeclaration_assigned _ _ _ _ _ H2)
      as (d2' & stride' & Hd2' & Hc2 & _ & _).
    rewrite Hd1 in Hd1'. injection Hd1' as <-.
    rewrite Hd2 in Hd2'. injection Hd2' as <-.
    exists d1, d2, stride. cbn.
    split; [done|]. split; [done|]. split; [done|]. split; [done|].
    split; [done|]. split; [by rewrite <- Hstride|]. split; [|done].
    intros i Hi. destruct (Hst1 i Hi) as [st Hst]. exists st.
    split; [done|]. by rewrite <- Hstreams.
  - intros Hlen Hcap Hall.
    destruct (NewVertexDeclaration_returns element count s1 Hlen Hcap Hall)
      as (p1 & u1 & H1).
    destruct (NewVertexDeclaration_returns element count s2 Hlen Hcap Hall)
      as (p2 & u2 & H2).
    by exists p1, u1, p2, u2.
Qed.

(** C1, as amended.  For a sequence of descriptors with recognised type
    tags that fits the stream array, [NewVertexDeclaration] returns a
    declaration in which the offset of stream [i] is the sum of component
    count times component byte size over streams [0..i-1], and the stride
    is that sum over all streams, both reduced modulo [2^field_bits], the
    width of the two fields (at most 32 bits).  Offsets and stride are the
    plain sums whenever no stream has a negative size and the sum over all
    streams is below [2^field_bits]. *)
Theorem NewVertexDeclaration_offsets_modular (element : list VertexElement)
    (s : State) :
  0 <= field_bits <= 32 ->
  Z.of_nat (length element) < STREAM_CAPACITY ->
  Forall (fun e => is_Some (type_size (ve_Type e))) element ->
  exists vd s' d,
    NewVertexDeclaration element (Z.of_nat (length element)) s = Done vd s' /\
    heap_vd s' !! vd = Some d /\
    m_StreamCount d = Some (Z.of_nat (length element)) /\
    m_Stride d = Some (wrap field_bits (total_bytes element)) /\
    (forall (i : nat) e, element !! i = Some e ->
       exists st, m_Streams d !! i = Some (Some st) /\
         m_Index st = Z.of_nat i /\
         m_Offset st = wrap field_bits (total_bytes (take i element))) /\
    (Forall (fun e => 0 <= stream_bytes e) element ->
     total_bytes element < 2 ^ field_bits ->
     m_Stride d = Some (total_bytes element) /\
     forall (i : nat) e, element !! i = Some e ->
       exists st, m_Streams d !! i = Some (Some st) /\
         m_Offset st = total_bytes (take i element)).
Proof.
  intros Hbits Hcap Hty.
  destruct (NewVertexDeclaration_run element s Hbits Hcap Hty)
    as (vd & s' & d & Hrun & _ & Hd & Hcount & Hstride & Hstreams).
  exists vd, s', d.
  split; [done|]. split; [done|]. split; [done|]. split; [done|]. split.
  - intros i e He. exists (laid_out element i e). by rewrite (Hstreams i e He).
  - intros Hpos Hfit.
    assert (forall i : nat, wrap field_bits (total_bytes (take i element))
                            = total_bytes (take i element)) as Hsmall.
    { intros i. unfold wrap. apply Z.mod_small.
      pose proof (total_bytes_take_le element i Hpos). lia. }
    split.
    + rewrite Hstride. f_equal. rewrite <- (firstn_all element) at 1.
      by rewrite Hsmall, firstn_all.
    + intros i e He. exists (laid_out element i e).
      rewrite (Hstreams i e He). split; [done|]. simpl. apply Hsmall.
Qed.

(** The declaration built declares the laid out streams, each with its
    position as index. *)
Lemma NewVertexDeclaration_declares (element : list VertexElement) (s : State) :
  0 <= field_bits <= 32 ->
  Z.of_nat (length element) < STREAM_CAPACITY ->
  Forall (fun e => is_Some (type_size (ve_Type e))) element ->
  exists vd s' d,
    NewVertexDeclaration element (Z.of_nat (length element)) s = Done vd s' /\
    heap_vd s' !! vd = Some d /\
    vd <> NULL /\
    declares d (imap (laid_out element) element)
             (wrap field_bits (total_bytes element)) /\
    (forall (i : nat) st, imap (laid_out element) element !! i = Some st ->
       m_Index st = Z.of_nat i).
Proof.
  intros Hbits Hcap Hty.
  destruct (NewVertexDeclaration_run element s Hbits Hcap Hty)
    as (vd & s' & d & Hrun & Hvd & Hd & Hcount & Hstride & Hstreams).
  exists vd, s', d. split; [done|]. split; [done|]. split; [|split].
  - rewrite Hvd. apply new_address_not_null.
  - split; [by rewrite length_imap|]. split; [done|].
    intros i st Hst. apply list_lookup_imap_Some in Hst as (e & He & ->).
    by apply Hstreams.
  - intros i st Hst. apply list_lookup_imap_Some in Hst as (e & He & ->). done.
Qed.

End VertexDeclarations.

(** The sentence of C1 read as written fails when a sum passes the width of
    the fields.  With 32-bit fields and a first stream of [2^30] floats,
    the second stream is put at offset 0, not [2^32], and the stride is 12,
    not [2^32 + 12]. *)
Lemma NewVertexDeclaration_offsets_overflow :
  exists vd s' d st,
    @NewVertexDeclaration layout_8x32 oversized 2 empty_state = Done vd s' /\
    heap_vd s' !! vd = Some d /\
    m_Streams d !! 1%nat = Some (Some st) /\
    total_bytes (take 1 oversized) = 4294967296 /\
    m_Offset st = 0 /\
    m_Offset st <> total_bytes (take 1 oversized) /\
    total_bytes oversized = 4294967308 /\
    m_Stride d = Some 12 /\
    m_Stride d <> Some (total_bytes oversized).
Proof.
  eexists _, _, _, _.
  split; [vm_compute; reflexivity|].
  split; [vm_compute; reflexivity|].
  split; [vm_compute; reflexivity|].
  repeat split; vm_compute; discriminate.
Qed.

(** The same happens whatever the width of the fields, up to 32 bits. *)
Lemma NewVertexDeclaration_offsets_overflow_any_width `{Layout} (s : State) :
  0 <= field_bits <= 32 ->
  2 < STREAM_CAPACITY ->
  exists vd s' d st,
    NewVertexDeclaration oversized 2 s = Done vd s' /\
    heap_vd s' !! vd = Some d /\
    m_Streams d !! 1%nat = Some (Some st) /\
    m_Offset st = 0 /\
    total_bytes (take 1 oversized) = 4294967296.
Proof.
  intros Hbits Hcap.
  destruct (NewVertexDeclaration_run oversized s Hbits)
    as (vd & s' & d & Hrun & _ & Hd & _ & _ & Hstreams).
  { simpl. lia. }
  { repeat constructor; by eexists. }
  exists vd, s', d, (laid_out oversized 1
                       {| ve_Size := 3; ve_Usage := 1; ve_Type := TYPE_FLOAT;
                          ve_UsageIndex := 0 |}).
  split; [done|]. split; [done|].
  split; [by apply Hstreams|].
  split; [|done].
  cbn [laid_out m_Offset].
  change (total_bytes (take 1 oversized)) with (4294967296 + 0).
  rewrite (wrap_two_pow_32 _ _ Hbits). done.
Qed.

(** C1, an instance: a position of three floats and a colour of four bytes
    get offsets 0 and 12 and stride 16. *)
Lemma NewVertexDeclaration_offsets_modular_witness :
  exists vd s' d,
    @NewVertexDeclaration layout_8x32 position_colour 2 empty_state = Done vd s' /\
    heap_vd s' !! vd = Some d /\
    m_Stride d = Some 16.
Proof.
  destruct (@NewVertexDeclaration_offsets_modular layout_8x32 position_colour empty_state)
    as (vd & s' & d & Hrun & Hd & _ & _ & _ & Hplain).
  - vm_compute. split; discriminate.
  - vm_compute. reflexivity.
  - repeat constructor; by eexists.
  - exists vd, s', d. split; [exact Hrun|]. split; [exact Hd|].
    destruct Hplain as [Hstride _]; [|vm_compute; reflexivity|exact Hstride].
    unfold position_colour.
    apply Forall_cons_2; [vm_compute; discriminate|].
    apply Forall_cons_2; [vm_compute; discriminate|].
    apply Forall_nil_2.
Defined.

(** C7, an instance: position and colour declared in the empty program
    and again in the state that holds the first declaration.  The two
    handles differ; both declarations have two streams, stride 16 and the
    colour at offset 12. *)
Lemma NewVertexDeclaration_deterministic_witness :
  exists p1 u1 p2 u2 d1 d2 st,
    @NewVertexDeclaration layout_8x32 position_colour 2 empty_state = Done p1 u1 /\
    @NewVertexDeclaration layout_8x32 position_colour 2 declared_state = Done p2 u2 /\
    p1 = 1 /\ p2 = 2 /\
    heap_vd u1 !! p1 = Some d1 /\ heap_vd u2 !! p2 = Some d2 /\
    m_StreamCount d1 = Some 2 /\ m_StreamCount d2 = Some 2 /\
    m_Stride d1 = Some 16 /\ m_Stride d2 = Some 16 /\
    m_Streams d1 !! 1%nat = Some (Some st) /\
    m_Streams d2 !! 1%nat = Some (Some st) /\
    m_Offset st = 12.
Proof.
  destruct (@NewVertexDeclaration_deterministic layout_8x32 position_colour 2
              empty_state declared_state) as [Hsame Hreturn].
  destruct Hreturn as (p1 & u1 & p2 & u2 & H1 & H2).
  - vm_compute. discriminate.
  - vm_compute. reflexivity.
  - repeat (apply List.Forall_cons; [eexists; reflexivity|]). apply List.Forall_nil.
  - rewrite H1, H2 in Hsame.
    destruct Hsame as (d1 & d2 & stride & Hd1 & Hd2 & Hc1 & Hc2 & Hs1 & Hs2 & Hst & _).
    destruct (Hst 1%nat) as (st & Hst1 & Hst2); [vm_compute; lia|].
    assert (@NewVertexDeclaration layout_8x32 position_colour 2 empty_state
              = Done 1 declared_state) as E1 by (vm_compute; reflexivity).
    rewrite E1 in H1. injection H1 as <- <-.
    assert (exists u, @NewVertexDeclaration layout_8x32 position_colour 2 declared_state
                        = Done 2 u) as [u E2] by (eexists; vm_compute; reflexivity).
    rewrite E2 in H2. injection H2 as <- <-.
    assert (heap_vd declared_state !! 1 = Some position_colour_declaration) as Hd
      by (vm_compute; reflexivity).
    rewrite Hd in Hd1. injection Hd1 as <-.
    exists 1, declared_state, 2, u, position_colour_declaration, d2, st.
    split; [reflexivity|]. split; [exact E2|]. split; [reflexivity|].
    split; [reflexivity|]. split; [exact Hd|]. split; [exact Hd2|].
    split; [exact Hc1|]. split; [exact Hc2|].
    assert (stride = 16) as -> by (injection Hs1 as <-; reflexivity).
    split; [reflexivity|]. split; [exact Hs2|].
    split; [exact Hst1|]. split; [exact Hst2|].
    vm_compute in Hst1. injection Hst1 as <-. reflexivity.
Defined.

(** [declared_state] is what [NewVertexDeclaration] makes of the position
    and colour descriptors. *)
Lemma declared_state_created :
  @NewVertexDeclaration layout_8x32 position_colour 2 empty_state
    = Done 1 declared_state.
Proof. vm_compute. reflexivity. Qed.

(** ** Enabling and disabling a vertex declaration *)

Lemma count_calls_app p l1 l2 :
  count_calls p (l1 ++ l2) = (count_calls p l1 + count_calls p l2)%nat.
Proof. induction l1 as [|c l1 IH]; simpl; [done|]. rewrite IH. lia. Qed.

Lemma count_enable_calls p stride streams :
  (forall st, count_calls p (enable_calls stride st) = 1%nat) ->
  count_calls p (flat_map (enable_calls stride) streams) = length streams.
Proof.
  intros Hone. induction streams as [|st l IH]; [reflexivity|].
  cbn [flat_map]. rewrite count_calls_app, Hone, IH. simpl. lia.
Qed.

Lemma count_disable_calls_from j n :
  count_calls is_disable
    ((fun i : nat => glDisableVertexAttribArray (Z.of_nat i)) <$> seq j n) = n /\
  count_calls is_set_pointer
    ((fun i : nat => glDisableVertexAttribArray (Z.of_nat i)) <$> seq j n) = 0%nat.
Proof.
  revert j. induction n as [|n IH]; intros j; [done|].
  destruct (IH (S j)) as (H1 & H2).
  cbn [seq fmap list_fmap count_calls is_disable is_set_pointer].
  change (list_fmap nat Call ?f ?l) with (f <$> l).
  rewrite H1, H2. done.
Qed.

Lemma flat_map_snoc {A B} (f : A -> list B) l x :
  flat_map f (l ++ [x]) = flat_map f l ++ f x.
Proof. rewrite flat_map_app. simpl. by rewrite app_nil_r. Qed.

Lemma enabled_indices_enable_calls stride streams :
  enabled_indices (flat_map (enable_calls stride) streams) = m_Index <$> streams.
Proof. induction streams as [|st l IH]; [done|]. simpl. f_equal. exact IH. Qed.

Lemma disabled_indices_disable_calls_from j n :
  disabled_indices
    ((fun i : nat => glDisableVertexAttribArray (Z.of_nat i)) <$> seq j n)
  = Z.of_nat <$> seq j n.
Proof. revert j. induction n as [|n IH]; intros j; [done|]. simpl. f_equal. apply IH. Qed.

Lemma disabled_indices_app l1 l2 :
  disabled_indices (l1 ++ l2) = disabled_indices l1 ++ disabled_indices l2.
Proof. apply omap_app. Qed.

(** When every stream carries its own position as index, as the streams of
    [NewVertexDeclaration] do, the indices are [0 .. n-1]. *)
Lemma indices_in_order (streams : list Stream) :
  (forall (i : nat) st, streams !! i = Some st -> m_Index st = Z.of_nat i) ->
  m_Index <$> streams = Z.of_nat <$> seq 0 (length streams).
Proof.
  intros Hidx. apply list_eq. intros i.
  rewrite !list_lookup_fmap.
  destruct (streams !! i) as [st|] eqn:Hst; simpl.
  - rewrite (Hidx i st Hst).
    rewrite lookup_seq_lt by (by eapply lookup_lt_Some). done.
  - rewrite lookup_seq_ge by (by apply lookup_ge_None). done.
Qed.

Section NativeCalls.
Context `{Driver}.

Lemma wp_native strict c s (Q : unit -> State -> Prop) :
  Q tt (set_calls (calls s ++ [c]) s) -> wp strict (native c) s Q.
Proof. done. Qed.

Lemma wp_native_answer {A} strict c (answer : list Call -> A) s (Q : A -> State -> Prop) :
  Q (answer (calls s ++ [c])) (set_calls (calls s ++ [c]) s) ->
  wp strict (native_answer c answer) s Q.
Proof. done. Qed.

Lemma wp_check strict s (Q : unit -> State -> Prop) :
  (strict = true -> glGetError (calls s) = 0) ->
  (glGetError (calls s) = 0 -> Q tt s) ->
  wp strict CHECK_GL_ERROR s Q.
Proof.
  intros Hs HQ. unfold wp, CHECK_GL_ERROR, bind, get_state.
  destruct (decide _) as [He|Hne]; [by apply HQ|].
  unfold assert_that. destruct strict; [|done]. by specialize (Hs eq_refl).
Qed.

Context `{Layout}.

Lemma wp_load_vd strict p d s (Q : VertexDeclaration -> State -> Prop) :
  heap_vd s !! p = Some d -> Q d s -> wp strict (load_vd p) s Q.
Proof. intros Hd HQ. unfold wp, load_vd, bind, get_state. by rewrite Hd. Qed.

Lemma wp_stream_at strict d (i : nat) st s (Q : Stream -> State -> Prop) :
  m_Streams d !! i = Some (Some st) -> Q st s ->
  wp strict (stream_at d (Z.of_nat i)) s Q.
Proof.
  intros Hst HQ. unfold wp, stream_at, bind. by rewrite Nat2Z.id, Hst.
Qed.

Lemma EnableVertexDeclaration_wp strict context vertex_declaration vertex_buffer
    s d streams stride :
  (strict = true ->
     quiet /\ context <> NULL /\ vertex_buffer <> 0 /\ vertex_declaration <> NULL) ->
  heap_vd s !! vertex_declaration = Some d ->
  declares d streams stride ->
  wp strict (EnableVertexDeclaration context vertex_declaration vertex_buffer) s
    (fun _ s' =>
       calls s' = calls s ++ glBindBufferARB GL_ARRAY_BUFFER vertex_buffer
                             :: flat_map (enable_calls stride) streams /\
       heap_vd s' = heap_vd s).
Proof.
  intros Hstrict Hd (Hcount & Hstride & Hstreams).
  unfold EnableVertexDeclaration.
  apply wp_bind, wp_assert;
    [intros Hs; apply bool_decide_eq_true_2; by destruct (Hstrict Hs) as (_ & ? & ? & ?)|intros _].
  apply wp_bind, wp_assert;
    [intros Hs; apply bool_decide_eq_true_2; by destruct (Hstrict Hs) as (_ & ? & ? & ?)|intros _].
  apply wp_bind, wp_assert;
    [intros Hs; apply bool_decide_eq_true_2; by destruct (Hstrict Hs) as (_ & ? & ? & ?)|intros _].
  apply wp_bind, wp_native.
  apply wp_bind, wp_check; [intros Hs; apply Hstrict, Hs|intros _].
  apply wp_bind, (wp_load_vd _ _ d); [done|].
  apply wp_bind, (wp_defined _ _ _ _ _ Hcount).
  rewrite Nat2Z.id.
  eapply wp_mono.
  - apply (wp_for_range strict (fun k sa =>
       calls sa = calls s ++ glBindBufferARB GL_ARRAY_BUFFER vertex_buffer
                             :: flat_map (enable_calls stride) (take k streams) /\
       heap_vd sa = heap_vd s)).
    + simpl. done.
    + intros k sa Hk [Hsa Hheap]. rewrite Z.add_0_l.
      destruct (lookup_lt_is_Some_2 streams k Hk) as [st Hst].
      apply wp_bind, (wp_stream_at _ _ _ st); [by apply Hstreams|].
      apply wp_bind, wp_native.
      apply wp_bind, wp_check; [intros Hs; apply Hstrict, Hs|intros _].
      apply wp_bind, (wp_defined _ _ _ _ _ Hstride).
      apply wp_bind, wp_native.
      apply wp_check; [intros Hs; apply Hstrict, Hs|intros _].
      split; [|exact Hheap].
      simpl. rewrite Hsa. rewrite (take_S_r _ _ _ Hst), flat_map_snoc.
      unfold enable_calls. by rewrite <- !app_assoc.
  - intros u s'. cbv beta. by rewrite firstn_all.
Qed.

Lemma DisableVertexDeclaration_wp strict context vertex_declaration s d streams stride :
  (strict = true -> quiet /\ context <> NULL /\ vertex_declaration <> NULL) ->
  heap_vd s !! vertex_declaration = Some d ->
  declares d streams stride ->
  wp strict (DisableVertexDeclaration context vertex_declaration) s
    (fun _ s' =>
       calls s' = calls s ++ disable_calls (length streams)
                          ++ [glBindBufferARB GL_ARRAY_BUFFER 0;
                              glBindBufferARB GL_ELEMENT_ARRAY_BUFFER 0] /\
       heap_vd s' = heap_vd s).
Proof.
  intros Hstrict Hd (Hcount & Hstride & Hstreams).
  unfold DisableVertexDeclaration.
  apply wp_bind, wp_assert;
    [intros Hs; apply bool_decide_eq_true_2; by destruct (Hstrict Hs) as (_ & ? & ?)|intros _].
  apply wp_bind, wp_assert;
    [intros Hs; apply bool_decide_eq_true_2; by destruct (Hstrict Hs) as (_ & ? & ?)|intros _].
  apply wp_bind, (wp_load_vd _ _ d); [done|].
  apply wp_bind, (wp_defined _ _ _ _ _ Hcount).
  rewrite Nat2Z.id.
  apply wp_bind. eapply wp_mono.
  - apply (wp_for_range strict (fun k sa =>
       calls sa = calls s ++ disable_calls k /\ heap_vd sa = heap_vd s)).
    + simpl. by rewrite app_nil_r.
    + intros k sa Hk [Hsa Hheap]. rewrite Z.add_0_l.
      apply wp_bind, wp_native.
      apply wp_check; [intros Hs; apply Hstrict, Hs|intros _].
      split; [|exact Hheap].
      simpl. rewrite Hsa. unfold disable_calls.
      rewrite seq_S, fmap_app. simpl. by rewrite <- !app_assoc.
  - intros u s1 [Hs1 Hheap]. cbv beta.
    apply wp_bind, wp_native.
    apply wp_bind, wp_check; [intros Hs; apply Hstrict, Hs|intros _].
    apply wp_bind, wp_native.
    apply wp_check; [intros Hs; apply Hstrict, Hs|intros _].
    split; [|exact Hheap].
    simpl. rewrite Hs1. by rewrite <- !app_assoc.
Qed.

(** C2.  Take a declaration with [n] streams (the object at
    [vertex_declaration] declares the streams [streams]).  When
    [EnableVertexDeclaration] returns it has made, after binding the vertex
    buffer, one [glEnableVertexAttribArray] and one [glVertexAttribPointer]
    per stream, in stream order: [n] of each.  When
    [DisableVertexDeclaration] returns it has made [n]
    [glDisableVertexAttribArray] calls, for the indices [0 .. n-1], then
    unbound the two buffer binding points, and no [glVertexAttribPointer];
    the indices it disables are the ones enabled when every stream carries
    its position as index.  Both calls leave the declaration as it is.
    Neither call is undefined, and both return when the handles are
    non-null and the native side reports no error. *)
Theorem vertex_declaration_enable_disable_calls
    (context vertex_declaration vertex_buffer : Z) (s : State)
    (d : VertexDeclaration) (streams : list Stream) (stride : Z) :
  heap_vd s !! vertex_declaration = Some d ->
  declares d streams stride ->
  let n := length streams in
  let enabling := glBindBufferARB GL_ARRAY_BUFFER vertex_buffer
                    :: flat_map (enable_calls stride) streams in
  let disabling := disable_calls n ++ [glBindBufferARB GL_ARRAY_BUFFER 0;
                                       glBindBufferARB GL_ELEMENT_ARRAY_BUFFER 0] in
  (count_calls is_enable enabling = n /\
   count_calls is_set_pointer enabling = n /\
   count_calls is_disable disabling = n /\
   count_calls is_set_pointer disabling = 0%nat) /\
  (forall s', EnableVertexDeclaration context vertex_declaration vertex_buffer s
                = Done tt s' ->
              calls s' = calls s ++ enabling /\ heap_vd s' = heap_vd s) /\
  (forall s', DisableVertexDeclaration context vertex_declaration s = Done tt s' ->
              calls s' = calls s ++ disabling /\ heap_vd s' = heap_vd s) /\
  ((forall (i : nat) st, streams !! i = Some st -> m_Index st = Z.of_nat i) ->
   disabled_indices disabling = enabled_indices enabling) /\
  EnableVertexDeclaration context vertex_declaration vertex_buffer s <> Undefined /\
  DisableVertexDeclaration context vertex_declaration s <> Undefined /\
  (quiet -> context <> NULL -> vertex_buffer <> 0 -> vertex_declaration <> NULL ->
   (exists s', EnableVertexDeclaration context vertex_declaration vertex_buffer s
                 = Done tt s') /\
   (exists s', DisableVertexDeclaration context vertex_declaration s = Done tt s')).
Proof.
  intros Hd Hdecl n enabling disabling.
  pose proof (EnableVertexDeclaration_wp false context vertex_declaration
                vertex_buffer s d streams stride ltac:(done) Hd Hdecl) as Hen.
  pose proof (DisableVertexDeclaration_wp false context vertex_declaration
                s d streams stride ltac:(done) Hd Hdecl) as Hdis.
  split; [|split; [|split; [|split; [|split; [|split]]]]].
  - unfold enabling, disabling, disable_calls.
    cbn [count_calls is_enable is_set_pointer].
    rewrite !count_enable_calls by done.
    rewrite !count_calls_app.
    destruct (count_disable_calls_from 0 n) as (-> & ->). simpl. lia.
  - intros s' Hrun. exact (wp_done _ _ _ _ _ _ Hen Hrun).
  - intros s' Hrun. exact (wp_done _ _ _ _ _ _ Hdis Hrun).
  - intros Hidx. unfold enabling, disabling, disable_calls.
    rewrite disabled_indices_app, disabled_indices_disable_calls_from.
    cbn [enabled_indices omap list_omap].
    change (list_omap _ _ ?f ?l) with (omap f l).
    fold (enabled_indices (flat_map (enable_calls stride) streams)).
    rewrite enabled_indices_enable_calls, (indices_in_order _ Hidx).
    simpl. by rewrite app_nil_r.
  - exact (wp_not_undefined _ _ _ _ Hen).
  - exact (wp_not_undefined _ _ _ _ Hdis).
  - intros Hq Hc Hb Hv. split.
    + destruct (wp_returns _ _ _ (EnableVertexDeclaration_wp true context
                  vertex_declaration vertex_buffer s d streams stride
                  (fun _ => conj Hq (conj Hc (conj Hb Hv))) Hd Hdecl))
        as ([] & s' & Hrun & _). eauto.
    + destruct (wp_returns _ _ _ (DisableVertexDeclaration_wp true context
                  vertex_declaration s d streams stride
                  (fun _ => conj Hq (conj Hc Hv)) Hd Hdecl))
        as ([] & s' & Hrun & _). eauto.
Qed.

(** A declaration made by [NewVertexDeclaration], enabled and disabled
    again: the attributes disabled are the attributes enabled, [0 .. n-1]. *)
Lemma created_declaration_enable_disable (element : list VertexElement)
    (context vertex_buffer : Z) (s : State) :
  quiet ->
  0 <= field_bits <= 32 ->
  Z.of_nat (length element) < STREAM_CAPACITY ->
  Forall (fun e => is_Some (type_size (ve_Type e))) element ->
  context <> NULL -> vertex_buffer <> 0 ->
  exists vd s1 s2 s3,
    NewVertexDeclaration element (Z.of_nat (length element)) s = Done vd s1 /\
    EnableVertexDeclaration context vd vertex_buffer s1 = Done tt s2 /\
    DisableVertexDeclaration context vd s2 = Done tt s3 /\
    enabled_indices (drop (length (calls s1)) (calls s2))
      = Z.of_nat <$> seq 0 (length element) /\
    disabled_indices (drop (length (calls s2)) (calls s3))
      = Z.of_nat <$> seq 0 (length element).
Proof.
  intros Hq Hbits Hcap Hty Hc Hb.
  destruct (NewVertexDeclaration_declares element s Hbits Hcap Hty)
    as (vd & s1 & d & Hnew & Hd & Hvd & Hdecl & Hidx).
  destruct (wp_returns _ _ _
              (EnableVertexDeclaration_wp true context vd vertex_buffer s1 d _ _
                 (fun _ => conj Hq (conj Hc (conj Hb Hvd))) Hd Hdecl))
    as ([] & s2 & Hen & Hcalls2 & Hheap2).
  rewrite <- Hheap2 in Hd.
  destruct (wp_returns _ _ _
              (DisableVertexDeclaration_wp true context vd s2 d _ _
                 (fun _ => conj Hq (conj Hc Hvd)) Hd Hdecl))
    as ([] & s3 & Hdis & Hcalls3 & _).
  exists vd, s1, s2, s3.
  split; [done|]. split; [done|]. split; [done|]. split.
  - rewrite Hcalls2, drop_app_length.
    cbn [enabled_indices omap list_omap].
    change (list_omap _ _ ?f ?l) with (omap f l).
    fold (enabled_indices
            (flat_map (enable_calls (wrap field_bits (total_bytes element)))
                      (imap (laid_out element) element))).
    rewrite enabled_indices_enable_calls, (indices_in_order _ Hidx).
    by rewrite length_imap.
  - rewrite Hcalls3, drop_app_length, disabled_indices_app.
    unfold disable_calls. rewrite disabled_indices_disable_calls_from.
    rewrite length_imap. simpl. by rewrite app_nil_r.
Qed.

End NativeCalls.

(** One step of a straight-line run; [check] discharges the error query of
    a strict run. *)
Ltac wp_step check :=
  lazymatch goal with
  | |- wp _ (bind _ _) _ _ => apply wp_bind
  | |- wp _ (native _) _ _ => apply wp_native
  | |- wp _ (native_answer _ _) _ _ => apply wp_native_answer
  | |- wp _ CHECK_GL_ERROR _ _ => apply wp_check; [check|intros _]
  | |- wp _ (ret _) _ _ => apply wp_ret
  end.

Ltac state_simpl :=
  unfold set_gdevice, set_calls, set_heap_vd, set_heap_tex, set_heap_rt;
  cbn [gdevice calls heap_vd heap_tex heap_rt m_Texture rt_Texture m_FboId m_RboId].

(** C2, an instance: the declaration of a position and a colour, enabled on
    buffer 5 and then disabled, with a native side that reports no error. *)
Lemma vertex_declaration_enable_disable_calls_witness :
  (exists s', @EnableVertexDeclaration quiet_driver 1 1 5 declared_state
                = Done tt s' /\ length (calls s') = 5%nat) /\
  (exists s', @DisableVertexDeclaration quiet_driver 1 1 declared_state
                = Done tt s' /\ length (calls s') = 4%nat).
Proof.
  destruct (@vertex_declaration_enable_disable_calls quiet_driver
              1 1 5 declared_state position_colour_declaration
              position_colour_streams 16)
    as (_ & Hen & Hdis & _ & _ & _ & Hret).
  - reflexivity.
  - split; [reflexivity|]. split; [reflexivity|].
    intros [|[|i]] st Hst; simpl in Hst; [by inversion Hst..|discriminate].
  - destruct Hret as [[s1 H1] [s2 H2]]; [done..|].
    split.
    + exists s1. split; [exact H1|]. by rewrite (proj1 (Hen s1 H1)).
    + exists s2. split; [exact H2|]. by rewrite (proj1 (Hdis s2 H2)).
Defined.

(** ** Buffer data operations *)

Lemma bound_buffer_snoc target history c :
  bound_buffer target (history ++ [c]) =
    match c with
    | glBindBufferARB t buffer =>
        if decide (t = target) then buffer else bound_buffer target history
    | _ => bound_buffer target history
    end.
Proof. unfold bound_buffer. by rewrite fold_left_app. Qed.

Lemma bound_buffer_after_op target history op :
  bound_buffer target
    (history ++ [glBindBufferARB (op_target op) (op_buffer op); op_work op;
                 glBindBufferARB (op_target op) 0]) =
  if decide (op_target op = target) then 0 else bound_buffer target history.
Proof.
  change (history ++ [?a; ?b; ?c]) with (history ++ [a] ++ [b] ++ [c]).
  rewrite !app_assoc, !bound_buffer_snoc.
  destruct op, target; reflexivity.
Qed.

Section BufferOperations.
Context `{Driver}.

Lemma run_buffer_op_wp strict op s :
  (strict = true -> quiet) ->
  wp strict (run_buffer_op op) s
    (fun _ s' =>
       calls s' = calls s ++ [glBindBufferARB (op_target op) (op_buffer op);
                              op_work op;
                              glBindBufferARB (op_target op) 0] /\
       gdevice s' = gdevice s /\ heap_vd s' = heap_vd s /\
       heap_tex s' = heap_tex s /\ heap_rt s' = heap_rt s).
Proof.
  intros Hq.
  destruct op; cbn [run_buffer_op op_target op_buffer op_work];
    unfold SetVertexBufferData, SetVertexBufferSubData, MapVertexBuffer,
      UnmapVertexBuffer, SetIndexBufferData, SetIndexBufferSubData,
      MapIndexBuffer, UnmapIndexBuffer;
    repeat wp_step ltac:(intros Hs; apply Hq, Hs);
    cbn [calls set_calls gdevice heap_vd heap_tex heap_rt];
    by rewrite <- !app_assoc.
Qed.

(** C10.  Each of the eight buffer data operations, when it returns, has
    made exactly three native calls: it bound its buffer to its binding
    point, did its work, and bound 0 to the same binding point.  So the
    buffer bound to that point is 0 afterwards, and the other binding point
    is as before.  No operation is undefined; each returns when the native
    side reports no error. *)
Theorem buffer_operations_leave_binding_zero (op : BufferOp) (s s' : State) :
  run_buffer_op op s = Done tt s' ->
  calls s' = calls s ++ [glBindBufferARB (op_target op) (op_buffer op);
                         op_work op;
                         glBindBufferARB (op_target op) 0] /\
  bound_buffer (op_target op) (calls s') = 0 /\
  (forall target, target <> op_target op ->
     bound_buffer target (calls s') = bound_buffer target (calls s)) /\
  (forall t, run_buffer_op op t <> Undefined) /\
  (quiet -> forall t, exists t', run_buffer_op op t = Done tt t').
Proof.
  intros Hrun.
  pose proof (run_buffer_op_wp false op s) as Hwp.
  eapply wp_done in Hwp; [|done|exact Hrun].
  destruct Hwp as (Hcalls & _). split; [done|].
  rewrite Hcalls. split; [|split; [|split]].
  - rewrite bound_buffer_after_op. by rewrite decide_True.
  - intros target Hne. rewrite bound_buffer_after_op. by rewrite decide_False.
  - intros t. eapply wp_not_undefined. by apply (run_buffer_op_wp false).
  - intros Hq t.
    destruct (wp_returns _ _ _ (run_buffer_op_wp true op t (fun _ => Hq)))
      as ([] & t' & Ht & _). eauto.
Qed.

End BufferOperations.

(** C10, an instance: uploading vertex data to buffer 3 while buffer 9 is
    bound for indices. *)
Lemma buffer_operations_leave_binding_zero_witness :
  exists s',
    @run_buffer_op quiet_driver (OpSetVertexBufferData 3 64 0 35044)
      (set_calls [glBindBufferARB GL_ELEMENT_ARRAY_BUFFER 9] empty_state)
      = Done tt s' /\
    bound_buffer GL_ARRAY_BUFFER (calls s') = 0 /\
    bound_buffer GL_ELEMENT_ARRAY_BUFFER (calls s') = 9.
Proof.
  eexists. split; [vm_compute; reflexivity|].
  match goal with
  | |- bound_buffer _ (calls ?s') = _ /\ _ =>
      destruct (@buffer_operations_leave_binding_zero quiet_driver
                  (OpSetVertexBufferData 3 64 0 35044)
                  (set_calls [glBindBufferARB GL_ELEMENT_ARRAY_BUFFER 9] empty_state)
                  s')
        as (_ & Hzero & Hother & _); [vm_compute; reflexivity|]
  end.
  split; [exact Hzero|].
  rewrite (Hother GL_ELEMENT_ARRAY_BUFFER); [reflexivity|discriminate].
Defined.

(** ** Program constants *)

Lemma register_writes_length type index vs :
  length (register_writes type index vs) = length vs.
Proof.
  revert index. induction vs as [|v vs IH]; intros index; simpl; [done|].
  by rewrite IH.
Qed.

Lemma register_writes_lookup type index vs (i : nat) v :
  vs !! i = Some v ->
  register_writes type index vs !! i =
    Some (glProgramLocalParameter4fARB type (index + Z.of_nat i)
            (v_x v) (v_y v) (v_z v) (v_w v)).
Proof.
  revert index i. induction vs as [|v0 vs IH]; intros index i Hv; [done|].
  destruct i as [|i]; simpl in *.
  - simplify_eq. by rewrite Z.add_0_r.
  - rewrite (IH _ _ Hv). do 2 f_equal. lia.
Qed.

(** The four floats of vector [i] in the array of floats. *)
Lemma floats_of_lookup data (i : nat) v :
  data !! i = Some v ->
  floats_of data !! (4 * i)%nat = Some (v_x v) /\
  floats_of data !! (4 * i + 1)%nat = Some (v_y v) /\
  floats_of data !! (4 * i + 2)%nat = Some (v_z v) /\
  floats_of data !! (4 * i + 3)%nat = Some (v_w v).
Proof.
  revert i. induction data as [|v0 data IH]; intros i Hv; [done|].
  destruct i as [|i].
  - simpl in Hv. simplify_eq. done.
  - simpl in Hv. destruct (IH i Hv) as (H0 & H1 & H2 & H3).
    replace (4 * S i)%nat with (S (S (S (S (4 * i))))) by lia.
    done.
Qed.

Lemma uint32_small x : 0 <= x <= INT_MAX -> uint32 x = x.
Proof.
  intros Hx. unfold uint32, wrap. apply Z.mod_small. unfold INT_MAX in Hx. lia.
Qed.

Section Constants.
Context `{Driver}.

Lemma wp_float_at strict f k reg x (s : State) (Q : float -> State -> Prop) :
  0 <= k + reg <= INT_MAX ->
  f !! Z.to_nat (k + reg) = Some x ->
  Q x s ->
  wp strict (float_at f k reg) s Q.
Proof.
  intros Hr Hx HQ. unfold float_at.
  apply wp_bind, wp_int_result; [unfold INT_MIN; lia|].
  rewrite decide_True by lia. by apply (wp_defined _ _ x).
Qed.

(** The loop with [n] iterations left, started at vector [i]. *)
Lemma SetProgramConstantBlock_loop_wp strict type data base_register :
  (strict = true -> quiet) ->
  0 <= base_register ->
  forall (n i : nat) s,
    (i + n <= length data)%nat ->
    (n = 0%nat \/ base_register + Z.of_nat (i + n) - 1 <= INT_MAX) ->
    4 * Z.of_nat (i + n) <= INT_MAX ->
    wp strict (SetProgramConstantBlock_loop n type (floats_of data) base_register
                 (Z.of_nat i) (4 * Z.of_nat i)) s
      (fun _ s' =>
         calls s' = calls s ++
           register_writes type (base_register + Z.of_nat i) (take n (drop i data))).
Proof.
  intros Hq Hb. induction n as [|n IH]; intros i s Hlen Hreg Hfour.
  { apply wp_ret. simpl. by rewrite app_nil_r. }
  destruct Hreg as [Hreg|Hreg]; [done|].
  destruct (lookup_lt_is_Some_2 data i ltac:(lia)) as [v Hv].
  destruct (floats_of_lookup _ _ _ Hv) as (H0 & H1 & H2 & H3).
  cbn [SetProgramConstantBlock_loop].
  apply wp_bind, wp_int_result; [unfold INT_MIN; lia|].
  apply wp_bind, (wp_float_at _ _ _ _ (v_x v)); [lia| |].
  { by replace (Z.to_nat (0 + 4 * Z.of_nat i)) with (4 * i)%nat by lia. }
  apply wp_bind, (wp_float_at _ _ _ _ (v_y v)); [lia| |].
  { by replace (Z.to_nat (1 + 4 * Z.of_nat i)) with (4 * i + 1)%nat by lia. }
  apply wp_bind, (wp_float_at _ _ _ _ (v_z v)); [lia| |].
  { by replace (Z.to_nat (2 + 4 * Z.of_nat i)) with (4 * i + 2)%nat by lia. }
  apply wp_bind, (wp_float_at _ _ _ _ (v_w v)); [lia| |].
  { by replace (Z.to_nat (3 + 4 * Z.of_nat i)) with (4 * i + 3)%nat by lia. }
  apply wp_bind, wp_native.
  apply wp_bind, wp_check; [intros Hs; apply Hq, Hs|intros _].
  apply wp_bind, wp_int_result; [unfold INT_MIN; lia|].
  apply wp_bind, wp_int_result; [unfold INT_MIN; lia|].
  replace (Z.of_nat i + 1) with (Z.of_nat (S i)) by lia.
  replace (4 * Z.of_nat i + 4) with (4 * Z.of_nat (S i)) by lia.
  eapply wp_mono.
  { apply IH; [lia| |lia].
    destruct n; [by left|right].
    replace (S i + S n)%nat with (i + S (S n))%nat by lia. done. }
  intros u s' Hs'. cbv beta in Hs' |- *. rewrite Hs'.
  cbn [calls set_calls]. rewrite (drop_S _ _ _ Hv). cbn [take register_writes].
  rewrite uint32_small by lia.
  rewrite <- app_assoc. cbn [app]. do 3 f_equal. lia.
Qed.

Lemma SetProgramConstantBlock_wp strict context type data base_register num_vectors s :
  (strict = true -> quiet /\ context <> NULL) ->
  0 <= base_register -> 0 <= num_vectors ->
  num_vectors <= Z.of_nat (length data) ->
  base_register + num_vectors - 1 <= INT_MAX ->
  4 * num_vectors <= INT_MAX ->
  wp strict (SetProgramConstantBlock context type (Some data) base_register num_vectors) s
    (fun _ s' =>
       calls s' = calls s ++
         register_writes type base_register (take (Z.to_nat num_vectors) data)).
Proof.
  intros Hstrict Hb Hn Hlen Hreg Hfour. unfold SetProgramConstantBlock.
  apply wp_bind, wp_assert;
    [intros Hs; apply bool_decide_eq_true_2; by destruct (Hstrict Hs)|intros _].
  apply wp_bind, wp_assert; [intros _; by apply bool_decide_eq_true_2|intros _].
  apply wp_bind, wp_assert; [intros _; apply bool_decide_eq_true_2; lia|intros _].
  apply wp_bind, wp_assert; [intros _; apply bool_decide_eq_true_2; lia|intros _].
  apply wp_bind, (wp_defined _ _ data); [done|].
  pose proof (SetProgramConstantBlock_loop_wp strict type data base_register
                (fun Hs => proj1 (Hstrict Hs)) Hb (Z.to_nat num_vectors) 0 s) as Hloop.
  cbn [Z.of_nat] in Hloop. rewrite Z.add_0_r, drop_0 in Hloop.
  apply Hloop; [lia| |lia].
  destruct (decide (num_vectors = 0)) as [->|Hne]; [by left|right; lia].
Qed.

Lemma SetVertexConstantBlock_wp strict context data base_register num_vectors s :
  (strict = true -> quiet /\ context <> NULL) ->
  0 <= base_register -> 0 <= num_vectors ->
  num_vectors <= Z.of_nat (length data) ->
  base_register + num_vectors - 1 <= INT_MAX ->
  4 * num_vectors <= INT_MAX ->
  wp strict (SetVertexConstantBlock context (Some data) base_register num_vectors) s
    (fun _ s' =>
       calls s' = calls s ++
         register_writes GL_VERTEX_PROGRAM_ARB base_register
           (take (Z.to_nat num_vectors) data)).
Proof.
  intros Hstrict Hb Hn Hlen Hreg Hfour. unfold SetVertexConstantBlock.
  apply wp_bind, wp_assert;
    [intros Hs; apply bool_decide_eq_true_2; by destruct (Hstrict Hs)|intros _].
  apply wp_bind. eapply wp_mono; [by apply SetProgramConstantBlock_wp|].
  intros u s' Hs'. cbv beta.
  apply wp_check; [intros Hs; by apply Hstrict|intros _]. done.
Qed.

Lemma SetFragmentConstantBlock_wp strict context data base_register num_vectors s :
  (strict = true -> quiet /\ context <> NULL) ->
  0 <= base_register -> 0 <= num_vectors ->
  num_vectors <= Z.of_nat (length data) ->
  base_register + num_vectors - 1 <= INT_MAX ->
  4 * num_vectors <= INT_MAX ->
  wp strict (SetFragmentConstantBlock context (Some data) base_register num_vectors) s
    (fun _ s' =>
       calls s' = calls s ++
         register_writes GL_FRAGMENT_PROGRAM_ARB base_register
           (take (Z.to_nat num_vectors) data)).
Proof.
  intros Hstrict Hb Hn Hlen Hreg Hfour. unfold SetFragmentConstantBlock.
  apply wp_bind, wp_assert;
    [intros Hs; apply bool_decide_eq_true_2; by destruct (Hstrict Hs)|intros _].
  apply wp_bind. eapply wp_mono; [by apply SetProgramConstantBlock_wp|].
  intros u s' Hs'. cbv beta.
  apply wp_check; [intros Hs; by apply Hstrict|intros _]. done.
Qed.

(** Once [reg] would pass [INT_MAX] within the remaining iterations, the
    loop cannot return. *)
Lemma SetProgramConstantBlock_loop_overflow type f base_register :
  forall (n : nat) i reg s s',
    (0 < n)%nat ->
    reg + 4 * Z.of_nat n > INT_MAX ->
    SetProgramConstantBlock_loop n type f base_register i reg s <> Done tt s'.
Proof.
  induction n as [|n IH]; intros i reg s s' Hn Hover; [lia|].
  cbn [SetProgramConstantBlock_loop]. unfold bind at 1.
  destruct (int_result (base_register + i) s) as [index s0| |]; [|done..].
  unfold bind at 1. destruct (float_at f 0 reg s0) as [f0 s1| |]; [|done..].
  unfold bind at 1. destruct (float_at f 1 reg s1) as [f1 s2| |]; [|done..].
  unfold bind at 1. destruct (float_at f 2 reg s2) as [f2 s3| |]; [|done..].
  unfold bind at 1. destruct (float_at f 3 reg s3) as [f3 s4| |]; [|done..].
  unfold bind at 1. destruct (native _ s4) as [u5 s5| |]; [|done..].
  unfold bind at 1. destruct (CHECK_GL_ERROR s5) as [u6 s6| |]; [|done..].
  unfold bind at 1. destruct (int_result (i + 1) s6) as [i' s7| |]; [|done..].
  unfold bind at 1. unfold int_result at 1.
  destruct (decide (INT_MIN <= reg + 4 <= INT_MAX)) as [Hok|Hno]; [|done].
  unfold ret. apply IH; [|lia].
  destruct n; [|lia]. simpl in Hover. lia.
Qed.

Lemma SetProgramConstantBlock_overflow context type data base_register num_vectors s s' :
  4 * num_vectors > INT_MAX ->
  SetProgramConstantBlock context type data base_register num_vectors s <> Done tt s'.
Proof.
  intros Hover. unfold SetProgramConstantBlock.
  unfold bind at 1. unfold assert_that at 1.
  destruct (bool_decide (context <> NULL)); [|done].
  unfold bind at 1. unfold assert_that at 1.
  destruct (bool_decide (is_Some data)); [|done].
  unfold bind at 1. unfold assert_that at 1.
  destruct (bool_decide (base_register >= 0)); [|done].
  unfold bind at 1. unfold assert_that at 1.
  destruct (bool_decide (num_vectors >= 0)); [|done].
  unfold bind at 1. destruct data as [vectors|]; [|done].
  cbn [defined]. unfold ret at 1.
  apply SetProgramConstantBlock_loop_overflow; unfold INT_MAX in *; lia.
Qed.

(** C8, as amended.  Let [base_register] and [num_vectors] be
    non-negative, [data] hold at least [num_vectors] vectors, and the
    [int] expressions of the loop stay in range:
    [base_register + num_vectors - 1 <= INT_MAX] and
    [4 * num_vectors <= INT_MAX].  Then [SetProgramConstantBlock], and
    [SetVertexConstantBlock] and [SetFragmentConstantBlock] through it, make
    exactly [num_vectors] calls of [glProgramLocalParameter4fARB] when they
    return; call [i] writes register [base_register + i] with the four
    components of vector [i] in order.  The calls are not undefined, and
    they return when the context is non-null and the native side reports no
    error. *)
Theorem constant_block_registers (context : Z) (data : list Vector4)
    (base_register num_vectors : Z) (s : State) :
  0 <= base_register -> 0 <= num_vectors ->
  num_vectors <= Z.of_nat (length data) ->
  base_register + num_vectors - 1 <= INT_MAX ->
  4 * num_vectors <= INT_MAX ->
  let writes type :=
    register_writes type base_register (take (Z.to_nat num_vectors) data) in
  (forall type,
     Z.of_nat (length (writes type)) = num_vectors /\
     forall (i : nat) v, Z.of_nat i < num_vectors -> data !! i = Some v ->
       writes type !! i =
         Some (glProgramLocalParameter4fARB type (base_register + Z.of_nat i)
                 (v_x v) (v_y v) (v_z v) (v_w v))) /\
  (forall type s',
     SetProgramConstantBlock context type (Some data) base_register num_vectors s
       = Done tt s' -> calls s' = calls s ++ writes type) /\
  (forall s',
     SetVertexConstantBlock context (Some data) base_register num_vectors s
       = Done tt s' -> calls s' = calls s ++ writes GL_VERTEX_PROGRAM_ARB) /\
  (forall s',
     SetFragmentConstantBlock context (Some data) base_register num_vectors s
       = Done tt s' -> calls s' = calls s ++ writes GL_FRAGMENT_PROGRAM_ARB) /\
  (forall type,
     SetProgramConstantBlock context type (Some data) base_register num_vectors s
       <> Undefined) /\
  SetVertexConstantBlock context (Some data) base_register num_vectors s <> Undefined /\
  SetFragmentConstantBlock context (Some data) base_register num_vectors s <> Undefined /\
  (quiet -> context <> NULL ->
   (forall type, exists s',
      SetProgramConstantBlock context type (Some data) base_register num_vectors s
        = Done tt s') /\
   (exists s', SetVertexConstantBlock context (Some data) base_register num_vectors s
                 = Done tt s') /\
   (exists s', SetFragmentConstantBlock context (Some data) base_register num_vectors s
                 = Done tt s')).
Proof.
  intros Hb Hn Hlen Hreg Hfour writes.
  split; [|split; [|split; [|split; [|split; [|split; [|split]]]]]].
  - intros type. unfold writes. split.
    + rewrite register_writes_length, length_take. lia.
    + intros i v Hi Hv. apply register_writes_lookup.
      rewrite lookup_take_lt by lia. done.
  - intros type s' Hrun.
    exact (wp_done _ _ _ _ _ _
             (SetProgramConstantBlock_wp false context type data base_register
                num_vectors s ltac:(done) Hb Hn Hlen Hreg Hfour) Hrun).
  - intros s' Hrun.
    exact (wp_done _ _ _ _ _ _
             (SetVertexConstantBlock_wp false context data base_register
                num_vectors s ltac:(done) Hb Hn Hlen Hreg Hfour) Hrun).
  - intros s' Hrun.
    exact (wp_done _ _ _ _ _ _
             (SetFragmentConstantBlock_wp false context data base_register
                num_vectors s ltac:(done) Hb Hn Hlen Hreg Hfour) Hrun).
  - intros type. eapply wp_not_undefined.
    by apply (SetProgramConstantBlock_wp false).
  - eapply wp_not_undefined. by apply (SetVertexConstantBlock_wp false).
  - eapply wp_not_undefined. by apply (SetFragmentConstantBlock_wp false).
  - intros Hq Hc. split; [|split].
    + intros type.
      destruct (wp_returns _ _ _
                  (SetProgramConstantBlock_wp true context type data base_register
                     num_vectors s (fun _ => conj Hq Hc) Hb Hn Hlen Hreg Hfour))
        as ([] & s' & Hrun & _). eauto.
    + destruct (wp_returns _ _ _
                  (SetVertexConstantBlock_wp true context data base_register
                     num_vectors s (fun _ => conj Hq Hc) Hb Hn Hlen Hreg Hfour))
        as ([] & s' & Hrun & _). eauto.
    + destruct (wp_returns _ _ _
                  (SetFragmentConstantBlock_wp true context data base_register
                     num_vectors s (fun _ => conj Hq Hc) Hb Hn Hlen Hreg Hfour))
        as ([] & s' & Hrun & _). eauto.
Qed.

End Constants.

(** C8, an instance: two vectors written from register 10. *)
Lemma constant_block_registers_witness :
  exists s',
    @SetVertexConstantBlock quiet_driver 1 (Some two_vectors) 10 2 empty_state
      = Done tt s' /\
    calls s' = [glProgramLocalParameter4fARB GL_VERTEX_PROGRAM_ARB 10 1 2 3 4;
                glProgramLocalParameter4fARB GL_VERTEX_PROGRAM_ARB 11 5 6 7 8].
Proof.
  destruct (@constant_block_registers quiet_driver 1 two_vectors 10 2 empty_state)
    as (_ & _ & Hvertex & _ & _ & _ & _ & Hret);
    [vm_compute; discriminate..|].
  destruct Hret as (_ & [s' Hrun] & _); [done|done|].
  exists s'. split; [exact Hrun|]. exact (Hvertex s' Hrun).
Defined.

(** The sentence of C8 read as written, for every non-negative base
    register and count, fails where an [int] expression of the loop leaves
    the type.  From register [INT_MAX] the index of the second vector,
    [base_register + 1], overflows.  With [2^29 + 1] vectors [reg] reaches
    [2^31] after vector [2^29 - 1], so the floats of the last vector are
    never read at their place; the call does not return having written all
    registers. *)
Lemma constant_block_overflow :
  @SetProgramConstantBlock quiet_driver 1 GL_VERTEX_PROGRAM_ARB (Some two_vectors)
     INT_MAX 2 empty_state = Undefined /\
  (Z.of_nat (length many_vectors) = 536870913 /\
   forall s',
     @SetProgramConstantBlock quiet_driver 1 GL_VERTEX_PROGRAM_ARB (Some many_vectors)
        0 536870913 empty_state <> Done tt s').
Proof.
  split; [vm_compute; reflexivity|]. split.
  - unfold many_vectors. rewrite length_replicate. lia.
  - intros s'. apply SetProgramConstantBlock_overflow. unfold INT_MAX. lia.
Qed.

(** ** Device creation *)

Section Device.
Context `{Driver}.

Lemma NewDevice_failure (params : CreateDeviceParams) (s : State) :
  glfwOpenWindow_result
    (calls s ++ [glfwInit;
                 glfwOpenWindow (p_DisplayWidth params) (p_DisplayHeight params)]) = 0 ->
  NewDevice (Some params) s =
    Done null_device
      (set_calls (calls s ++ [glfwInit;
                              glfwOpenWindow (p_DisplayWidth params) (p_DisplayHeight params);
                              glfwTerminate]) s).
Proof.
  intros Hfail.
  unfold NewDevice, native_answer, native, bind, assert_that, defined, ret,
    get_state, modify_state.
  cbn [bool_decide decide_rel calls set_calls]. simpl.
  rewrite <- !app_assoc. cbn [app]. rewrite Hfail. simpl.
  by rewrite <- !app_assoc.
Qed.

Lemma NewDevice_null_only_on_failure (params : CreateDeviceParams) (s s' : State) :
  NewDevice (Some params) s = Done null_device s' ->
  glfwOpenWindow_result
    (calls s ++ [glfwInit;
                 glfwOpenWindow (p_DisplayWidth params) (p_DisplayHeight params)]) = 0.
Proof.
  unfold NewDevice, native_answer, native, bind, assert_that, defined, ret,
    get_state, modify_state.
  simpl. rewrite <- !app_assoc. cbn [app].
  destruct (decide (glfwOpenWindow_result _ = 0)) as [Hz|Hnz]; [done|].
  unfold CHECK_GL_ERROR, bind, get_state, assert_that, ret. simpl.
  destruct (decide (glGetError _ = 0)); [|done].
  destruct (p_PrintDeviceInfo params); simpl; discriminate.
Qed.

(** C3.  When [glfwOpenWindow] fails, [NewDevice] returns the null handle.
    The program's own state is as before the call: the global device keeps
    its display width and height, and no object is allocated or freed.  The
    only native calls are [glfwInit], [glfwOpenWindow] and, after the
    failure, [glfwTerminate].  Conversely a null handle is returned only
    when [glfwOpenWindow] failed. *)
Theorem NewDevice_window_failure (params : CreateDeviceParams) (s : State) :
  glfwOpenWindow_result
    (calls s ++ [glfwInit;
                 glfwOpenWindow (p_DisplayWidth params) (p_DisplayHeight params)]) = 0 ->
  (exists s',
     NewDevice (Some params) s = Done null_device s' /\
     gdevice s' = gdevice s /\
     m_DisplayWidth (gdevice s') = m_DisplayWidth (gdevice s) /\
     m_DisplayHeight (gdevice s') = m_DisplayHeight (gdevice s) /\
     heap_vd s' = heap_vd s /\ heap_tex s' = heap_tex s /\ heap_rt s' = heap_rt s /\
     calls s' = calls s ++ [glfwInit;
                            glfwOpenWindow (p_DisplayWidth params) (p_DisplayHeight params);
                            glfwTerminate]) /\
  (forall t t', NewDevice (Some params) t = Done null_device t' ->
     glfwOpenWindow_result
       (calls t ++ [glfwInit;
                    glfwOpenWindow (p_DisplayWidth params) (p_DisplayHeight params)]) = 0).
Proof.
  intros Hfail. split.
  - eexists. split; [by apply NewDevice_failure|]. done.
  - intros t t'. apply NewDevice_null_only_on_failure.
Qed.

End Device.

(** C3, an instance: a native side on which no window opens, and a device
    that recorded a 320 by 200 display before. *)
Lemma NewDevice_window_failure_witness :
  exists s',
    @NewDevice no_window_driver (Some window_params)
      (set_gdevice {| m_DisplayWidth := 320; m_DisplayHeight := 200 |} empty_state)
      = Done null_device s' /\
    m_DisplayWidth (gdevice s') = 320 /\
    m_DisplayHeight (gdevice s') = 200.
Proof.
  destruct (@NewDevice_window_failure no_window_driver window_params
              (set_gdevice {| m_DisplayWidth := 320; m_DisplayHeight := 200 |}
                           empty_state))
    as [(s' & Hrun & _ & Hw & Hh & _) _]; [reflexivity|].
  exists s'. split; [exact Hrun|]. split; [exact Hw|exact Hh].
Defined.

(** ** Render targets *)

Lemma bound_framebuffer_snoc history c :
  bound_framebuffer (history ++ [c]) =
    match c with
    | glBindFramebuffer framebuffer => framebuffer
    | _ => bound_framebuffer history
    end.
Proof. unfold bound_framebuffer. by rewrite fold_left_app. Qed.

Lemma DeleteRenderTarget_run rendertarget fbo rbo texture name (s : State) :
  render_target_at s rendertarget fbo rbo texture name ->
  DeleteRenderTarget rendertarget s =
    Done tt
      (set_heap_rt (delete rendertarget (heap_rt s))
         (set_heap_tex (delete texture (heap_tex s))
            (set_calls (calls s ++ [glDeleteFramebuffers fbo;
                                    glDeleteRenderbuffers rbo;
                                    glDeleteTextures name]) s))).
Proof.
  intros (Hrt & Hnull & Htex).
  unfold DeleteRenderTarget, DeleteTexture, load_rt, load_tex, native, bind,
    assert_that, defined, ret, get_state, modify_state.
  rewrite Hrt. cbn [rt_Texture m_FboId m_RboId].
  rewrite bool_decide_eq_true_2 by done.
  state_simpl. rewrite Htex. state_simpl.
  by rewrite <- !app_assoc.
Qed.

Section RenderTargets.
Context `{Driver}.

Lemma wp_load_rt strict p r s (Q : RenderTarget -> State -> Prop) :
  heap_rt s !! p = Some r -> Q r s -> wp strict (load_rt p) s Q.
Proof. intros Hr HQ. unfold wp, load_rt, bind, get_state. by rewrite Hr. Qed.

Lemma wp_load_tex strict p t s (Q : Texture -> State -> Prop) :
  heap_tex s !! p = Some t -> Q t s -> wp strict (load_tex p) s Q.
Proof. intros Ht HQ. unfold wp, load_tex, bind, get_state. by rewrite Ht. Qed.

End RenderTargets.

Ltac wp_heap_step check :=
  lazymatch goal with
  | |- wp _ (bind _ _) _ _ => apply wp_bind
  | |- wp _ (native _) _ _ => apply wp_native; state_simpl
  | |- wp _ (native_answer _ _) _ _ => apply wp_native_answer; state_simpl
  | |- wp _ CHECK_GL_ERROR _ _ => apply wp_check; [check|intros _]
  | |- wp _ (ret _) _ _ => apply wp_ret
  | |- wp _ get_state _ _ => apply wp_get
  | |- wp _ (modify_state _) _ _ => apply wp_modify; state_simpl
  | |- wp _ (store_rt _ _) _ _ => apply wp_modify; state_simpl
  | |- wp _ (load_rt _) _ _ =>
      eapply wp_load_rt; [state_simpl; rewrite ?lookup_insert_eq; reflexivity|]
  | |- wp _ (load_tex _) _ _ =>
      eapply wp_load_tex; [state_simpl; rewrite ?lookup_insert_eq; reflexivity|]
  | |- wp _ (defined _) _ _ => eapply wp_defined; [state_simpl; reflexivity|]
  | |- wp _ NewTexture _ _ => unfold NewTexture
  | |- wp _ (SetTextureData _ _ _ _ _ _ _) _ _ => unfold SetTextureData
  | |- wp _ _ _ _ => progress cbn beta iota zeta
  end.

Section RenderTargetLifetime.
Context `{Driver}.

(** What [NewRenderTarget] returns is a render target in the sense of
    [render_target_at]. *)
Lemma NewRenderTarget_wp strict width height format s :
  (strict = true -> quiet) ->
  wp strict (NewRenderTarget width height format) s
    (fun rendertarget s' =>
       exists fbo rbo texture name,
         render_target_at s' rendertarget fbo rbo texture name).
Proof.
  intros Hq. unfold NewRenderTarget.
  repeat wp_heap_step ltac:(intros Hs; apply Hq, Hs).
  eexists _, _, _, _. unfold render_target_at. state_simpl.
  rewrite !lookup_insert_eq.
  split; [reflexivity|]. split; [apply new_address_not_null|reflexivity].
Qed.

Lemma NewRenderTarget_returns_render_target width height format s rendertarget s' :
  NewRenderTarget width height format s = Done rendertarget s' ->
  exists fbo rbo texture name, render_target_at s' rendertarget fbo rbo texture name.
Proof.
  intros Hrun.
  exact (wp_done _ _ _ _ _ _
           (NewRenderTarget_wp false width height format s ltac:(done)) Hrun).
Qed.

(** C6.  For a render target (one as [NewRenderTarget] returns it), in any
    state, [DeleteRenderTarget] returns after exactly three native calls,
    which release the framebuffer, the depth renderbuffer and the owned
    colour texture, and frees the two objects.  This is so when the target
    was just bound with [EnableRenderTarget] and when the default
    framebuffer was just bound with [DisableRenderTarget]: the calls made do
    not depend on the framebuffer binding. *)
Theorem DeleteRenderTarget_releases_three
    (context rendertarget fbo rbo texture name : Z) (s : State) :
  render_target_at s rendertarget fbo rbo texture name ->
  let released := [glDeleteFramebuffers fbo; glDeleteRenderbuffers rbo;
                   glDeleteTextures name] in
  count_calls is_release released = 3%nat /\
  (exists s', DeleteRenderTarget rendertarget s = Done tt s' /\
     calls s' = calls s ++ released /\
     heap_rt s' = delete rendertarget (heap_rt s) /\
     heap_tex s' = delete texture (heap_tex s) /\
     heap_vd s' = heap_vd s /\ gdevice s' = gdevice s) /\
  (exists s1 s2,
     EnableRenderTarget context rendertarget s = Done tt s1 /\
     bound_framebuffer (calls s1) = fbo /\
     DeleteRenderTarget rendertarget s1 = Done tt s2 /\
     calls s2 = calls s1 ++ released) /\
  (exists s1 s2,
     DisableRenderTarget context rendertarget s = Done tt s1 /\
     bound_framebuffer (calls s1) = 0 /\
     DeleteRenderTarget rendertarget s1 = Done tt s2 /\
     calls s2 = calls s1 ++ released).
Proof.
  intros Hrt released. split; [reflexivity|]. split; [|split].
  - eexists. split; [by apply DeleteRenderTarget_run|]. done.
  - pose proof Hrt as (Hobj & Hnull & Htex).
    eexists _, _. split.
    { unfold EnableRenderTarget, load_rt, native, bind, defined, ret, get_state,
        modify_state. rewrite Hobj. reflexivity. }
    split; [cbn [calls set_calls]; by rewrite bound_framebuffer_snoc|].
    split; [by apply DeleteRenderTarget_run|]. done.
  - eexists _, _. split; [reflexivity|].
    split; [cbn [calls set_calls]; by rewrite bound_framebuffer_snoc|].
    split; [by apply DeleteRenderTarget_run|]. done.
Qed.

End RenderTargetLifetime.

(** C6, an instance: the render target that [NewRenderTarget] creates from
    the empty state, deleted again. *)
Lemma DeleteRenderTarget_releases_three_witness :
  @NewRenderTarget quiet_driver 640 480 TEXTURE_FORMAT_RGBA empty_state
    = Done 1 created_render_state /\
  exists s',
    DeleteRenderTarget 1 created_render_state = Done tt s' /\
    calls s' = calls created_render_state
                 ++ [glDeleteFramebuffers 8; glDeleteRenderbuffers 10;
                     glDeleteTextures 1].
Proof.
  split; [vm_compute; reflexivity|].
  destruct (DeleteRenderTarget_releases_three 1 1 8 10 1 1 created_render_state)
    as (_ & (s' & Hrun & Hcalls & _) & _).
  - split; [vm_compute; reflexivity|]. split; [discriminate|vm_compute; reflexivity].
  - exists s'. split; [exact Hrun|exact Hcalls].
Defined.

(** ** Creating and deleting a vertex declaration *)

Lemma for_range_preserves {S} (Inv : S -> Prop) (body : Z -> M S unit) :
  (forall i sa sb, Inv sa -> body i sa = Done tt sb -> Inv sb) ->
  forall n i s s', Inv s -> for_range n i body s = Done tt s' -> Inv s'.
Proof.
  intros Hbody. induction n as [|n IH]; intros i s s' Hs Hrun.
  - injection Hrun as <-. exact Hs.
  - simpl in Hrun. unfold bind in Hrun.
    destruct (body i s) as [[] s1| |] eqn:Hb; [|done..].
    eapply IH; [|exact Hrun]. eapply Hbody; [exact Hs|exact Hb].
Qed.

(** [new] returns an address that is not in use. *)
Lemma new_address_unused {V} (heap : gmap Z V) : heap !! new_address heap = None.
Proof.
  unfold new_address.
  pose proof (is_fresh ({[NULL]} ∪ dom heap)) as Hfresh.
  apply not_elem_of_dom. set_solver.
Qed.

Lemma with_declaration_twice vd d d' s :
  with_declaration vd d' (with_declaration vd d s) = with_declaration vd d' s.
Proof.
  unfold with_declaration, set_heap_vd. cbn. by rewrite insert_insert_eq.
Qed.

Section VertexDeclarationLifetime.
Context `{Layout}.

Lemma body_frame vd element i sa sb :
  NewVertexDeclaration_body vd element i sa = Done tt sb ->
  exists d, sb = with_declaration vd d sa.
Proof.
  unfold NewVertexDeclaration_body, load_vd, store_vd, bind, get_state, defined,
    modify_state, ret, undefined.
  destruct (element !! Z.to_nat i) as [e|]; [|done].
  destruct (heap_vd sa !! vd) as [d|]; [|done].
  destruct (m_Stride d) as [stride|] eqn:Hs; [|done].
  destruct (decide _); [|done].
  rewrite GetTypeSize_run. destruct (type_size (ve_Type e)) as [n|]; [|done].
  cbn [heap_vd set_heap_vd]. rewrite !lookup_insert_eq. cbn [m_Stride with_Stream].
  rewrite Hs. intros Hrun. injection Hrun as <-.
  eexists. unfold with_declaration, set_heap_vd. cbn. by rewrite insert_insert_eq.
Qed.

Lemma body_frame_from vd element s i sa sb :
  (exists d, sa = with_declaration vd d s) ->
  NewVertexDeclaration_body vd element i sa = Done tt sb ->
  exists d, sb = with_declaration vd d s.
Proof.
  intros [d0 ->] Hb. destruct (body_frame _ _ _ _ _ Hb) as [d1 ->].
  exists d1. apply with_declaration_twice.
Qed.

Lemma NewVertexDeclaration_frame element count s vd s' :
  NewVertexDeclaration element count s = Done vd s' ->
  vd = new_address (heap_vd s) /\ exists d, s' = with_declaration vd d s.
Proof.
  unfold NewVertexDeclaration.
  set (p := new_address (heap_vd s)).
  unfold new_VertexDeclaration, load_vd, store_vd, bind, get_state, defined,
    modify_state, ret, undefined, assert_that. cbn [heap_vd set_heap_vd].
  fold p. rewrite !lookup_insert_eq.
  destruct (bool_decide (count < STREAM_CAPACITY)); [|done].
  match goal with
  | |- context [for_range ?n ?i ?b ?t] =>
      destruct (for_range n i b t) as [[] s1| |] eqn:Hloop; [|done..];
      pose proof (for_range_preserves (fun u => exists d, u = with_declaration p d s)
                    b (body_frame_from p element s) n i t s1) as Hinv
  end.
  destruct Hinv as [d1 ->]; [|exact Hloop|].
  { eexists. unfold with_declaration, set_heap_vd. cbn. by rewrite insert_insert_eq. }
  unfold with_declaration at 1. cbn [heap_vd set_heap_vd]. rewrite lookup_insert_eq.
  intros Hrun. injection Hrun as <- <-. split; [done|].
  eexists. unfold with_declaration, set_heap_vd. cbn. by rewrite insert_insert_eq.
Qed.

(** X1.  Creating a vertex declaration makes no native call and touches
    nothing but one new heap object: the handle is not null and was not in
    use, and every declaration that existed is as it was. *)
Theorem NewVertexDeclaration_fresh_handle (element : list VertexElement) (count : Z)
    (s s' : State) (vd : Z) :
  NewVertexDeclaration element count s = Done vd s' ->
  vd <> NULL /\ heap_vd s !! vd = None /\ is_Some (heap_vd s' !! vd) /\
  (forall p, p <> vd -> heap_vd s' !! p = heap_vd s !! p) /\
  calls s' = calls s /\ gdevice s' = gdevice s /\
  heap_tex s' = heap_tex s /\ heap_rt s' = heap_rt s.
Proof.
  intros Hrun. apply NewVertexDeclaration_frame in Hrun as [-> [d ->]].
  split; [apply new_address_not_null|]. split; [apply new_address_unused|].
  unfold with_declaration. cbn [heap_vd set_heap_vd calls gdevice heap_tex heap_rt].
  split; [by rewrite lookup_insert_eq|].
  split; [|done]. intros p Hp. by rewrite lookup_insert_ne.
Qed.

(** X2.  Deleting a declaration right after creating it gives back the
    state from before the creation; deleting it a second time is
    undefined.  Deleting the null handle does nothing. *)
Theorem NewVertexDeclaration_then_delete (element : list VertexElement) (count : Z)
    (s s' : State) (vd : Z) :
  NewVertexDeclaration element count s = Done vd s' ->
  DeleteVertexDeclaration vd s' = Done tt s /\
  DeleteVertexDeclaration vd s = Undefined /\
  DeleteVertexDeclaration NULL s' = Done tt s'.
Proof.
  intros Hrun. apply NewVertexDeclaration_frame in Hrun as [-> [d ->]].
  pose proof (new_address_not_null (heap_vd s)) as Hnn.
  pose proof (new_address_unused (heap_vd s)) as Hfresh.
  split; [|split; [|reflexivity]].
  - unfold DeleteVertexDeclaration. rewrite decide_False by done.
    unfold load_vd, bind, get_state, defined, modify_state, with_declaration.
    cbn [heap_vd set_heap_vd]. rewrite lookup_insert_eq. unfold ret.
    f_equal. unfold set_heap_vd. cbn. rewrite delete_insert_eq, delete_id by done.
    by destruct s.
  - unfold DeleteVertexDeclaration. rewrite decide_False by done.
    unfold load_vd, bind, get_state, defined. by rewrite Hfresh.
Qed.

(** X3.  [NewVertexDeclaration] on a sequence of descriptors returns
    exactly when the sequence is shorter than the stream array and every
    type tag is recognised; in every other case it stops in [assert].  A
    sequence that would fill the array exactly is refused. *)
Theorem NewVertexDeclaration_accepts (element : list VertexElement) (s : State) :
  let count := Z.of_nat (length element) in
  let accepted := count < STREAM_CAPACITY /\
                  Forall (fun e => is_Some (type_size (ve_Type e))) element in
  (accepted -> exists vd s', NewVertexDeclaration element count s = Done vd s') /\
  (~ accepted -> NewVertexDeclaration element count s = AssertFailed) /\
  (count = STREAM_CAPACITY -> NewVertexDeclaration element count s = AssertFailed).
Proof.
  intros count accepted.
  assert ((count < STREAM_CAPACITY ->
            (Forall (fun e => is_Some (type_size (ve_Type e))) element ->
               exists vd s', NewVertexDeclaration element count s = Done vd s') /\
            (~ Forall (fun e => is_Some (type_size (ve_Type e))) element ->
               NewVertexDeclaration element count s = AssertFailed)) /\
          (~ count < STREAM_CAPACITY ->
             NewVertexDeclaration element count s = AssertFailed)) as [Hlt Hge].
  { unfold NewVertexDeclaration.
    set (p := new_address (heap_vd s)).
    unfold new_VertexDeclaration, load_vd, store_vd, bind, get_state, defined,
      modify_state, ret, undefined, assert_that. cbn [heap_vd set_heap_vd].
    fold p. rewrite !lookup_insert_eq. split.
    - intros Hc. rewrite bool_decide_eq_true_2 by done. unfold count. rewrite Nat2Z.id.
      match goal with
      | |- context [for_range _ _ _ ?t] =>
          destruct (layout_loop_outcome p element (length element) 0%nat t)
            as [Hyes Hno]
      end.
      + eexists _, _. cbn [heap_vd set_heap_vd]. rewrite lookup_insert_eq.
        split; [done|]. split; [done|]. cbn. by rewrite length_replicate.
      + lia.
      + unfold count in Hc. lia.
      + rewrite drop_0, firstn_all in Hyes, Hno.
        change (Z.of_nat 0) with 0 in Hyes, Hno. split.
        * intros Hall. destruct (Hyes Hall) as (s1 & -> & [d1 ->]). eauto.
        * intros Hnall. by rewrite (Hno Hnall).
    - intros Hc. by rewrite bool_decide_eq_false_2. }
  split; [|split].
  - intros [Hc Hall]. by apply Hlt.
  - intros Hna. destruct (decide (count < STREAM_CAPACITY)) as [Hc|Hc]; [|by apply Hge].
    apply Hlt; [done|]. intros Hall. apply Hna. by split.
  - intros Heq. apply Hge. lia.
Qed.

End VertexDeclarationLifetime.

(** X1, an instance: position and colour declared in the empty program. *)
Lemma NewVertexDeclaration_fresh_handle_witness :
  exists vd s',
    @NewVertexDeclaration layout_8x32 position_colour 2 empty_state = Done vd s' /\
    vd <> NULL /\ calls s' = [].
Proof.
  assert (exists vd s',
            @NewVertexDeclaration layout_8x32 position_colour 2 empty_state
              = Done vd s') as (vd & s' & Hrun)
    by (eexists _, _; vm_compute; reflexivity).
  destruct (@NewVertexDeclaration_fresh_handle layout_8x32 position_colour 2
              empty_state s' vd Hrun) as (Hnn & _ & _ & _ & Hcalls & _).
  exists vd, s'. split; [exact Hrun|]. split; [exact Hnn|exact Hcalls].
Defined.

(** X2, an instance: the same declaration, created and deleted. *)
Lemma NewVertexDeclaration_then_delete_witness :
  exists vd s',
    @NewVertexDeclaration layout_8x32 position_colour 2 empty_state = Done vd s' /\
    DeleteVertexDeclaration vd s' = Done tt empty_state.
Proof.
  assert (exists vd s',
            @NewVertexDeclaration layout_8x32 position_colour 2 empty_state
              = Done vd s') as (vd & s' & Hrun)
    by (eexists _, _; vm_compute; reflexivity).
  exists vd, s'. split; [exact Hrun|].
  exact (proj1 (@NewVertexDeclaration_then_delete layout_8x32 position_colour 2
                  empty_state s' vd Hrun)).
Defined.

(** X3, an instance: two descriptors are accepted by an array of eight
    streams, eight are not. *)
Lemma NewVertexDeclaration_accepts_witness :
  (exists vd s',
     @NewVertexDeclaration layout_8x32 position_colour 2 empty_state = Done vd s') /\
  @NewVertexDeclaration layout_8x32 eight_elements 8 empty_state = AssertFailed.
Proof.
  split.
  - apply (proj1 (@NewVertexDeclaration_accepts layout_8x32 position_colour
                    empty_state)).
    split; [cbn; lia|].
    repeat (apply List.Forall_cons; [eexists; reflexivity|]). apply List.Forall_nil.
  - apply (proj2 (proj2 (@NewVertexDeclaration_accepts layout_8x32 eight_elements
                           empty_state))).
    reflexivity.
Defined.

(** ** The attribute arrays and buffer bindings a declaration leaves *)

Lemma same_but_calls_refl s : same_but_calls s s.
Proof. by repeat split. Qed.

Lemma same_but_calls_trans s1 s2 s3 :
  same_but_calls s1 s2 -> same_but_calls s2 s3 -> same_but_calls s1 s3.
Proof.
  intros (? & ? & ? & ?) (? & ? & ? & ?). repeat split; congruence.
Qed.

Lemma only_calls_ret {A} (a : A) : only_calls (ret a).
Proof. intros s b s' Hrun. injection Hrun as _ Hs; subst. apply same_but_calls_refl. Qed.

Lemma only_calls_bind {A B} (m : M State A) (k : A -> M State B) :
  only_calls m -> (forall a, only_calls (k a)) -> only_calls (bind m k).
Proof.
  intros Hm Hk s b s' Hrun. unfold bind in Hrun.
  destruct (m s) as [a s1| |] eqn:Hms; [|done..].
  eapply same_but_calls_trans; [by eapply Hm|by eapply Hk].
Qed.

Lemma only_calls_assert b : only_calls (assert_that b).
Proof.
  intros s u s' Hrun. unfold assert_that in Hrun. destruct b; [|done].
  injection Hrun as Hs; subst. apply same_but_calls_refl.
Qed.

Lemma only_calls_defined {A} (o : option A) : only_calls (defined o).
Proof. destruct o; [apply only_calls_ret|by intros s a s' Hrun]. Qed.

Lemma only_calls_get : only_calls get_state.
Proof. intros s a s' Hrun. injection Hrun as _ Hs; subst. apply same_but_calls_refl. Qed.

Lemma only_calls_native c : only_calls (native c).
Proof. intros s u s' Hrun. injection Hrun as Hs; subst. by repeat split. Qed.

Lemma only_calls_native_answer {A} c (answer : list Call -> A) :
  only_calls (native_answer c answer).
Proof.
  apply only_calls_bind; [apply only_calls_native|intros _].
  apply only_calls_bind; [apply only_calls_get|intros s]. apply only_calls_ret.
Qed.

Lemma only_calls_for_range n i (body : Z -> M State unit) :
  (forall j, only_calls (body j)) -> only_calls (for_range n i body).
Proof.
  intros Hbody. revert i. induction n as [|n IH]; intros i; [apply only_calls_ret|].
  simpl. apply only_calls_bind; [apply Hbody|intros _; apply IH].
Qed.

Lemma only_calls_check `{Driver} : only_calls CHECK_GL_ERROR.
Proof.
  apply only_calls_bind; [apply only_calls_get|intros s].
  destruct (decide _); [apply only_calls_ret|apply only_calls_assert].
Qed.

Lemma only_calls_load_vd p : only_calls (load_vd p).
Proof.
  apply only_calls_bind; [apply only_calls_get|intros s]. apply only_calls_defined.
Qed.

(** One step in showing that a computation only makes native calls. *)
Ltac only_calls_step :=
  cbv beta;
  lazymatch goal with
  | |- only_calls (bind _ _) => apply only_calls_bind; [|intros ?]
  | |- only_calls (assert_that _) => apply only_calls_assert
  | |- only_calls (native _) => apply only_calls_native
  | |- only_calls (native_answer _ _) => apply only_calls_native_answer
  | |- only_calls (defined _) => apply only_calls_defined
  | |- only_calls (ret _) => apply only_calls_ret
  | |- only_calls (for_range _ _ _) => apply only_calls_for_range; intros ?
  | |- only_calls (stream_at _ _) => unfold stream_at
  | |- only_calls (if _ then _ else _) => case_match
  | |- only_calls _ => first [apply only_calls_check | apply only_calls_load_vd]
  end.

Lemma attribute_enabled_app index history l :
  attribute_enabled index (history ++ l) =
    attribute_after index l (attribute_enabled index history).
Proof. unfold attribute_enabled, attribute_after. by rewrite fold_left_app. Qed.

Lemma attribute_after_app index l1 l2 b :
  attribute_after index (l1 ++ l2) b = attribute_after index l2 (attribute_after index l1 b).
Proof. unfold attribute_after. by rewrite fold_left_app. Qed.

Lemma attribute_after_enable_calls index stride streams b :
  attribute_after index (flat_map (enable_calls stride) streams) b =
    if decide (index ∈ m_Index <$> streams) then true else b.
Proof.
  revert b. induction streams as [|st rest IH]; intros b.
  - rewrite decide_False; [done|]. rewrite fmap_nil. apply not_elem_of_nil.
  - cbn [flat_map]. rewrite attribute_after_app, IH.
    cbn [enable_calls attribute_after fold_left].
    rewrite fmap_cons.
    destruct (decide (index ∈ m_Index <$> rest)) as [Hin|Hnin].
    + rewrite decide_True; [done|]. apply elem_of_cons. by right.
    + destruct (decide (m_Index st = index)) as [Heq|Hne].
      * rewrite decide_True; [done|]. apply elem_of_cons. by left.
      * rewrite decide_False; [done|].
        intros Hin. apply elem_of_cons in Hin as [Heq|Hin]; [by apply Hne|by apply Hnin].
Qed.

Lemma attribute_after_disable_calls index n b :
  attribute_after index (disable_calls n) b =
    if decide (0 <= index < Z.of_nat n) then false else b.
Proof.
  induction n as [|n IH].
  - rewrite decide_False; [done|]. lia.
  - unfold disable_calls in *. rewrite seq_S, fmap_app, attribute_after_app, IH.
    cbn [fmap list_fmap attribute_after fold_left Nat.add].
    destruct (decide (Z.of_nat n = index)) as [Heq|Hne].
    + rewrite decide_True; [done|]. lia.
    + destruct (decide (0 <= index < Z.of_nat n)).
      * rewrite decide_True; [done|]. lia.
      * rewrite decide_False; [done|]. lia.
Qed.

Lemma bound_buffer_app target history l :
  bound_buffer target (history ++ l) =
    fold_left (fun bound c =>
                 match c with
                 | glBindBufferARB t buffer =>
                     if decide (t = target) then buffer else bound
                 | _ => bound
                 end) l (bound_buffer target history).
Proof. unfold bound_buffer. by rewrite fold_left_app. Qed.

Lemma bound_buffer_enable_calls target stride streams b :
  fold_left (fun bound c =>
               match c with
               | glBindBufferARB t buffer =>
                   if decide (t = target) then buffer else bound
               | _ => bound
               end) (flat_map (enable_calls stride) streams) b = b.
Proof.
  revert b. induction streams as [|st l IH]; intros b; [done|]. cbn [flat_map].
  rewrite fold_left_app. cbn. apply IH.
Qed.

Section DeclarationState.
Context `{Driver}.

Lemma EnableVertexDeclaration_only_calls context vertex_declaration vertex_buffer :
  only_calls (EnableVertexDeclaration context vertex_declaration vertex_buffer).
Proof.
  unfold EnableVertexDeclaration. repeat only_calls_step.
Qed.

(** X4.  After [EnableVertexDeclaration] and then
    [DisableVertexDeclaration] on a declaration of [n] streams, the
    attribute arrays [0 .. n-1] are disabled, an array enabled for a stream
    whose index lies outside [0 .. n-1] is still enabled, every other array
    is as before, and no buffer is bound to either binding point.  For a
    declaration whose streams carry their own position as index, as
    [NewVertexDeclaration] makes them, nothing the declaration enabled
    stays enabled. *)
Theorem enable_then_disable_attributes
    (context vertex_declaration vertex_buffer : Z) (s s1 s2 : State)
    (d : VertexDeclaration) (streams : list Stream) (stride : Z) :
  heap_vd s !! vertex_declaration = Some d ->
  declares d streams stride ->
  EnableVertexDeclaration context vertex_declaration vertex_buffer s = Done tt s1 ->
  DisableVertexDeclaration context vertex_declaration s1 = Done tt s2 ->
  let n := Z.of_nat (length streams) in
  (forall index,
     attribute_enabled index (calls s2) =
       if decide (0 <= index < n) then false
       else if decide (index ∈ m_Index <$> streams) then true
       else attribute_enabled index (calls s)) /\
  bound_buffer GL_ARRAY_BUFFER (calls s2) = 0 /\
  bound_buffer GL_ELEMENT_ARRAY_BUFFER (calls s2) = 0 /\
  ((forall (i : nat) st, streams !! i = Some st -> m_Index st = Z.of_nat i) ->
   forall index, attribute_enabled index (calls s2) =
     if decide (0 <= index < n) then false else attribute_enabled index (calls s)).
Proof.
  intros Hd Hdecl Hen Hdis n.
  destruct (wp_done _ _ _ _ _ _
    (EnableVertexDeclaration_wp false context vertex_declaration vertex_buffer s d
       streams stride ltac:(done) Hd Hdecl) Hen) as [Hc1 Hheap].
  assert (heap_vd s1 !! vertex_declaration = Some d) as Hd1 by (by rewrite Hheap).
  destruct (wp_done _ _ _ _ _ _
    (DisableVertexDeclaration_wp false context vertex_declaration s1 d
       streams stride ltac:(done) Hd1 Hdecl) Hdis) as [Hc2 _].
  assert (forall index,
     attribute_enabled index (calls s2) =
       if decide (0 <= index < n) then false
       else if decide (index ∈ m_Index <$> streams) then true
       else attribute_enabled index (calls s)) as Hattr.
  { intros index. rewrite Hc2, Hc1.
    rewrite !attribute_enabled_app, attribute_after_app.
    rewrite attribute_after_disable_calls. fold n.
    destruct (decide (0 <= index < n)); [done|].
    change (glBindBufferARB GL_ARRAY_BUFFER vertex_buffer
              :: flat_map (enable_calls stride) streams)
      with ([glBindBufferARB GL_ARRAY_BUFFER vertex_buffer]
              ++ flat_map (enable_calls stride) streams).
    rewrite attribute_after_app, attribute_after_enable_calls. done. }
  split; [exact Hattr|].
  split; [|split].
  - rewrite Hc2, app_assoc, bound_buffer_app. done.
  - rewrite Hc2, app_assoc, bound_buffer_app. done.
  - intros Hidx index. rewrite Hattr.
    destruct (decide (0 <= index < n)) as [|Hout]; [done|].
    rewrite decide_False; [done|].
    intros Hin. apply list_elem_of_fmap in Hin as (st & -> & Hst).
    apply list_elem_of_lookup in Hst as [i Hi].
    rewrite (Hidx i st Hi) in Hout. apply lookup_lt_Some in Hi. unfold n in Hout. lia.
Qed.

(** X5.  [EnableVertexDeclaration], when it returns, leaves the given
    vertex buffer bound to the array binding point and the element-array
    binding as it was; it allocates and frees nothing and does not touch
    [gdevice]. *)
Theorem EnableVertexDeclaration_binds_vertex_buffer
    (context vertex_declaration vertex_buffer : Z) (s s1 : State)
    (d : VertexDeclaration) (streams : list Stream) (stride : Z) :
  heap_vd s !! vertex_declaration = Some d ->
  declares d streams stride ->
  EnableVertexDeclaration context vertex_declaration vertex_buffer s = Done tt s1 ->
  bound_buffer GL_ARRAY_BUFFER (calls s1) = vertex_buffer /\
  bound_buffer GL_ELEMENT_ARRAY_BUFFER (calls s1) =
    bound_buffer GL_ELEMENT_ARRAY_BUFFER (calls s) /\
  same_but_calls s s1.
Proof.
  intros Hd Hdecl Hen.
  destruct (wp_done _ _ _ _ _ _
    (EnableVertexDeclaration_wp false context vertex_declaration vertex_buffer s d
       streams stride ltac:(done) Hd Hdecl) Hen) as [Hc1 _].
  split; [|split].
  - rewrite Hc1, bound_buffer_app. cbn [fold_left].
    rewrite decide_True by done. apply bound_buffer_enable_calls.
  - rewrite Hc1, bound_buffer_app. cbn [fold_left].
    rewrite decide_False by done. apply bound_buffer_enable_calls.
  - exact (EnableVertexDeclaration_only_calls _ _ _ _ _ _ Hen).
Qed.

End DeclarationState.

Lemma position_colour_declared :
  declares position_colour_declaration position_colour_streams 16.
Proof.
  split; [reflexivity|]. split; [reflexivity|].
  intros [|[|i]] st Hst; simpl in Hst; [by inversion Hst..|discriminate].
Defined.

(** X4, an instance: the declaration of a position and a colour, enabled
    on buffer 5, then disabled. *)
Lemma enable_then_disable_attributes_witness :
  exists s1 s2,
    @EnableVertexDeclaration quiet_driver 1 1 5 declared_state = Done tt s1 /\
    @DisableVertexDeclaration quiet_driver 1 1 s1 = Done tt s2 /\
    attribute_enabled 1 (calls s1) = true /\
    attribute_enabled 1 (calls s2) = false /\
    bound_buffer GL_ARRAY_BUFFER (calls s2) = 0.
Proof.
  assert (exists s1 s2,
            @EnableVertexDeclaration quiet_driver 1 1 5 declared_state = Done tt s1 /\
            @DisableVertexDeclaration quiet_driver 1 1 s1 = Done tt s2 /\
            attribute_enabled 1 (calls s1) = true)
    as (s1 & s2 & Hen & Hdis & Hon)
    by (eexists _, _; repeat split; vm_compute; reflexivity).
  destruct (@enable_then_disable_attributes quiet_driver 1 1 5
              declared_state s1 s2 position_colour_declaration position_colour_streams
              16 eq_refl position_colour_declared Hen Hdis) as (Hattr & Hb & _).
  exists s1, s2. repeat split; try assumption.
  exact (Hattr 1).
Defined.

(** X5, an instance: enabling that declaration on buffer 5 leaves buffer 5
    bound. *)
Lemma EnableVertexDeclaration_binds_vertex_buffer_witness :
  exists s1,
    @EnableVertexDeclaration quiet_driver 1 1 5 declared_state = Done tt s1 /\
    bound_buffer GL_ARRAY_BUFFER (calls s1) = 5 /\
    heap_vd s1 = heap_vd declared_state.
Proof.
  assert (exists s1,
            @EnableVertexDeclaration quiet_driver 1 1 5 declared_state = Done tt s1)
    as (s1 & Hen) by (eexists; vm_compute; reflexivity).
  destruct (@EnableVertexDeclaration_binds_vertex_buffer quiet_driver 1 1 5
              declared_state s1 position_colour_declaration position_colour_streams
              16 eq_refl position_colour_declared Hen) as (Hb & _ & Hsame).
  exists s1. split; [exact Hen|]. split; [exact Hb|].
  exact (proj1 (proj2 Hsame)).
Defined.

(** ** From the descriptors to the attribute pointers *)

Lemma enable_calls_length stride streams :
  length (flat_map (enable_calls stride) streams) = (2 * length streams)%nat.
Proof.
  induction streams as [|st l IH]; [done|].
  cbn [flat_map]. rewrite length_app, IH. simpl. lia.
Qed.

Lemma enable_calls_lookup stride streams (i : nat) st :
  streams !! i = Some st ->
  flat_map (enable_calls stride) streams !! (2 * i)%nat =
    Some (glEnableVertexAttribArray (m_Index st)) /\
  flat_map (enable_calls stride) streams !! (2 * i + 1)%nat =
    Some (glVertexAttribPointer (m_Index st) (int32 (m_Size st)) (m_Type st) false
            (int32 stride) (m_Offset st)).
Proof.
  revert i. induction streams as [|st0 l IH]; intros i Hst; [done|].
  destruct i as [|i].
  - simpl in Hst. injection Hst as ->. done.
  - simpl in Hst. destruct (IH i Hst) as [H0 H1].
    replace (2 * S i)%nat with (S (S (2 * i))) by lia.
    replace (S (S (2 * i)) + 1)%nat with (S (S (2 * i + 1))) by lia.
    done.
Qed.

Section CreatedDeclaration.
Context `{Driver} `{Layout}.

(** X16.  The layout [NewVertexDeclaration] computes is the layout the
    native side is given.  For a sequence of descriptors with recognised
    type tags that fits the stream array, creating the declaration and
    enabling it binds the vertex buffer and then makes, for descriptor [i],
    [glEnableVertexAttribArray i] followed by [glVertexAttribPointer] for
    attribute [i] with the component count of the descriptor converted to
    [GLint], its type, the stride of the declaration converted to [GLsizei]
    and the offset of stream [i]; stride and offset are the sums of
    component count times component size, reduced modulo [2^field_bits].
    A stride or a component count from [2^31] arrives negative. *)
Theorem created_declaration_pointers (element : list VertexElement)
    (context vertex_buffer : Z) (s : State) :
  quiet ->
  0 <= field_bits <= 32 ->
  Z.of_nat (length element) < STREAM_CAPACITY ->
  Forall (fun e => is_Some (type_size (ve_Type e))) element ->
  context <> NULL -> vertex_buffer <> 0 ->
  exists vd s1 s2 issued,
    NewVertexDeclaration element (Z.of_nat (length element)) s = Done vd s1 /\
    EnableVertexDeclaration context vd vertex_buffer s1 = Done tt s2 /\
    calls s2 = calls s ++ glBindBufferARB GL_ARRAY_BUFFER vertex_buffer :: issued /\
    length issued = (2 * length element)%nat /\
    forall (i : nat) e, element !! i = Some e ->
      issued !! (2 * i)%nat = Some (glEnableVertexAttribArray (Z.of_nat i)) /\
      issued !! (2 * i + 1)%nat =
        Some (glVertexAttribPointer (Z.of_nat i) (int32 (ve_Size e)) (ve_Type e) false
                (int32 (wrap field_bits (total_bytes element)))
                (wrap field_bits (total_bytes (take i element)))).
Proof.
  intros Hq Hbits Hcap Hty Hc Hb.
  destruct (NewVertexDeclaration_declares element s Hbits Hcap Hty)
    as (vd & s1 & d & Hnew & Hd & Hvd & Hdecl & Hidx).
  destruct (wp_returns _ _ _
              (EnableVertexDeclaration_wp true context vd vertex_buffer s1 d _ _
                 (fun _ => conj Hq (conj Hc (conj Hb Hvd))) Hd Hdecl))
    as ([] & s2 & Hen & Hcalls2 & _).
  destruct (NewVertexDeclaration_frame _ _ _ _ _ Hnew) as [_ [d' ->]].
  exists vd, (with_declaration vd d' s), s2. eexists.
  split; [exact Hnew|]. split; [exact Hen|]. split; [exact Hcalls2|].
  split; [by rewrite enable_calls_length, length_imap|].
  intros i e He.
  assert (imap (laid_out element) element !! i = Some (laid_out element i e)) as Hst.
  { apply list_lookup_imap_Some. by exists e. }
  exact (enable_calls_lookup _ _ _ _ Hst).
Qed.

End CreatedDeclaration.

(** X16, two instances, created and enabled on buffer 5: a position of
    three floats and a colour of four bytes, with stride 16; and one stream
    of [2^30 - 1] floats, whose stride [2^32 - 4] arrives as [-4]. *)
Lemma created_declaration_pointers_witness :
  (exists vd s1 s2,
     @NewVertexDeclaration layout_8x32 position_colour 2 empty_state = Done vd s1 /\
     @EnableVertexDeclaration quiet_driver 1 vd 5 s1 = Done tt s2 /\
     calls s2 = [glBindBufferARB GL_ARRAY_BUFFER 5;
                 glEnableVertexAttribArray 0;
                 glVertexAttribPointer 0 3 TYPE_FLOAT false 16 0;
                 glEnableVertexAttribArray 1;
                 glVertexAttribPointer 1 4 TYPE_UNSIGNED_BYTE false 16 12]) /\
  (exists vd s1 s2,
     @NewVertexDeclaration layout_8x32 wide_stream 1 empty_state = Done vd s1 /\
     @EnableVertexDeclaration quiet_driver 1 vd 5 s1 = Done tt s2 /\
     calls s2 = [glBindBufferARB GL_ARRAY_BUFFER 5;
                 glEnableVertexAttribArray 0;
                 glVertexAttribPointer 0 1073741823 TYPE_FLOAT false (-4) 0]).
Proof.
  split.
  - destruct (@created_declaration_pointers quiet_driver layout_8x32 position_colour 1 5
                empty_state)
      as (vd & s1 & s2 & issued & Hnew & Hen & Hcalls & Hlen & Hat).
    + intros history. reflexivity.
    + vm_compute. split; discriminate.
    + vm_compute. reflexivity.
    + repeat (apply List.Forall_cons; [eexists; reflexivity|]). apply List.Forall_nil.
    + discriminate.
    + discriminate.
    + exists vd, s1, s2. split; [exact Hnew|]. split; [exact Hen|].
      rewrite Hcalls. cbn [calls empty_state app]. f_equal.
      destruct (Hat 0%nat _ eq_refl) as [H0 H1].
      destruct (Hat 1%nat _ eq_refl) as [H2 H3].
      destruct issued as [|c0 [|c1 [|c2 [|c3 [|c4 rest]]]]]; try discriminate Hlen.
      vm_compute in H0, H1, H2, H3.
      injection H0 as ->. injection H1 as ->. injection H2 as ->. injection H3 as ->.
      reflexivity.
  - destruct (@created_declaration_pointers quiet_driver layout_8x32 wide_stream 1 5
                empty_state)
      as (vd & s1 & s2 & issued & Hnew & Hen & Hcalls & Hlen & Hat).
    + intros history. reflexivity.
    + vm_compute. split; discriminate.
    + vm_compute. reflexivity.
    + repeat (apply List.Forall_cons; [eexists; reflexivity|]). apply List.Forall_nil.
    + discriminate.
    + discriminate.
    + exists vd, s1, s2. split; [exact Hnew|]. split; [exact Hen|].
      rewrite Hcalls. cbn [calls empty_state app]. f_equal.
      destruct (Hat 0%nat _ eq_refl) as [H0 H1].
      destruct issued as [|c0 [|c1 [|c2 rest]]]; try discriminate Hlen.
      vm_compute in H0, H1.
      injection H0 as ->. injection H1 as ->.
      reflexivity.
Defined.

(** ** A device that opens *)

Section DeviceOpened.
Context `{Driver}.

(** X6.  When the window opens and no error is pending, [NewDevice]
    returns the address of [gdevice] and records the display size it was
    given: [GetWindowWidth] and [GetWindowHeight] then return the width and
    height of the parameters.  It queries and prints the four device
    strings only when asked to, and allocates nothing. *)
Theorem NewDevice_records_display_size (params : CreateDeviceParams) (s : State) :
  let opening := [glfwInit;
                  glfwOpenWindow (p_DisplayWidth params) (p_DisplayHeight params)] in
  let setup := [glfwSetWindowTitle (p_AppTitle params); glfwSwapInterval 1] in
  glfwOpenWindow_result (calls s ++ opening) <> 0 ->
  glGetError (calls s ++ opening ++ setup) = 0 ->
  exists s',
    NewDevice (Some params) s = Done address_of_gdevice s' /\
    GetWindowWidth s' = Done (p_DisplayWidth params) s' /\
    GetWindowHeight s' = Done (p_DisplayHeight params) s' /\
    calls s' = calls s ++ opening ++ setup
                 ++ device_info_calls (p_PrintDeviceInfo params) /\
    heap_vd s' = heap_vd s /\ heap_tex s' = heap_tex s /\ heap_rt s' = heap_rt s.
Proof.
  intros opening setup Hopen Hok. unfold opening, setup in *. cbn [app] in Hok.
  unfold NewDevice, bind, assert_that, defined, native_answer, native, bind,
    modify_state, get_state, ret, CHECK_GL_ERROR. cbn.
  rewrite <- !app_assoc. cbn [app].
  rewrite decide_False by done. cbn. rewrite <- !app_assoc. cbn [app].
  rewrite decide_True by done.
  unfold device_info_calls, GetWindowWidth, GetWindowHeight, bind, get_state, ret.
  destruct (p_PrintDeviceInfo params); cbn;
    eexists; (split; [reflexivity|]); cbn; rewrite <- ?app_assoc; cbn;
    by rewrite ?app_nil_r.
Qed.

(** X7.  [NewDevice] stops in [assert] in two cases: at once when it is
    given no parameter block; and, once the window has opened, when the
    error query that follows [glfwSwapInterval] finds an error. *)
Theorem NewDevice_assertions (params : CreateDeviceParams) (s : State) :
  let opening := [glfwInit;
                  glfwOpenWindow (p_DisplayWidth params) (p_DisplayHeight params)] in
  let setup := [glfwSetWindowTitle (p_AppTitle params); glfwSwapInterval 1] in
  NewDevice None s = AssertFailed /\
  (glfwOpenWindow_result (calls s ++ opening) <> 0 ->
   glGetError (calls s ++ opening ++ setup) <> 0 ->
   NewDevice (Some params) s = AssertFailed).
Proof.
  intros opening setup. split; [reflexivity|].
  intros Hopen Herr. unfold opening, setup in *. cbn [app] in Herr.
  unfold NewDevice, bind, assert_that, defined, native_answer, native, bind,
    modify_state, get_state, ret, CHECK_GL_ERROR. cbn.
  rewrite <- !app_assoc. cbn [app].
  rewrite decide_False by done. cbn. rewrite <- !app_assoc. cbn [app].
  by rewrite decide_False by done.
Qed.

End DeviceOpened.

(** X6, an instance: a 640 by 480 window on a native side that opens it. *)
Lemma NewDevice_records_display_size_witness :
  exists s',
    @NewDevice quiet_driver (Some window_params) empty_state
      = Done address_of_gdevice s' /\
    GetWindowWidth s' = Done 640 s' /\ GetWindowHeight s' = Done 480 s'.
Proof.
  destruct (@NewDevice_records_display_size quiet_driver window_params empty_state)
    as (s' & Hrun & Hw & Hh & _).
  - discriminate.
  - reflexivity.
  - exists s'. repeat split; assumption.
Defined.

(** X7, an instance: a native side that opens the window and then reports
    an error. *)
Lemma NewDevice_assertions_witness :
  @NewDevice error_driver None empty_state = AssertFailed /\
  @NewDevice error_driver (Some window_params) empty_state = AssertFailed.
Proof.
  destruct (@NewDevice_assertions error_driver window_params empty_state)
    as [Hnone Herr].
  split; [exact Hnone|]. apply Herr; discriminate.
Defined.

(** ** Single constants and the limit on the number of vectors *)

Section ConstantLimits.
Context `{Driver}.

Lemma runs_issuing_intro (m : M State unit) s issued (healthy : Prop) :
  (forall strict, (strict = true -> healthy) ->
     wp strict m s (fun _ s' => calls s' = calls s ++ issued)) ->
  runs_issuing m s issued healthy.
Proof.
  intros Hwp. split; [|split].
  - eapply (wp_not_undefined false). by apply Hwp.
  - intros s' Hrun.
    exact (wp_done false m s _ tt s' (Hwp false ltac:(done)) Hrun).
  - intros Hh. destruct (wp_returns m s _ (Hwp true (fun _ => Hh))) as ([] & s' & Hrun & _).
    eauto.
Qed.

(** X8.  [SetFragmentConstant] writes the first vector of its input to the
    fragment register it is given, for every register index an [int] can
    hold, and makes no other call; it is not undefined, and it returns when
    the context is non-null and the native side reports no error. *)
Theorem SetFragmentConstant_one_register (context base_register : Z) (v : Vector4)
    (rest : list Vector4) (s : State) :
  0 <= base_register <= INT_MAX ->
  runs_issuing (SetFragmentConstant context (Some (v :: rest)) base_register) s
    [glProgramLocalParameter4fARB GL_FRAGMENT_PROGRAM_ARB base_register
                                  (v_x v) (v_y v) (v_z v) (v_w v)]
    (quiet /\ context <> NULL).
Proof.
  intros Hb. apply runs_issuing_intro. intros strict Hs.
  unfold SetFragmentConstant.
  apply wp_bind, wp_assert;
    [intros Hst; apply bool_decide_eq_true_2; by destruct (Hs Hst)|intros _].
  apply wp_bind. eapply wp_mono.
  - apply (SetProgramConstantBlock_wp strict context GL_FRAGMENT_PROGRAM_ARB (v :: rest)
             base_register 1 s Hs); cbn [length]; unfold INT_MAX in *; lia.
  - intros u s' Hs'. cbv beta.
    apply wp_check; [intros Hst; by apply Hs|intros _].
    rewrite Hs'. reflexivity.
Qed.

Lemma floats_of_length data : length (floats_of data) = (4 * length data)%nat.
Proof.
  induction data as [|v data IH]; [done|].
  change (floats_of (v :: data)) with ([v_x v; v_y v; v_z v; v_w v] ++ floats_of data).
  rewrite length_app, IH. simpl. lia.
Qed.

Lemma float_at_done f k reg x (s s' : State) :
  float_at f k reg s = Done x s' ->
  0 <= k + reg /\ (Z.to_nat (k + reg) < length f)%nat.
Proof.
  unfold float_at, bind, int_result.
  destruct (decide (INT_MIN <= k + reg <= INT_MAX)); [|done]. cbn.
  destruct (decide (0 <= k + reg)) as [Hpos|]; [|done].
  destruct (f !! Z.to_nat (k + reg)) as [y|] eqn:Hf; [|done].
  intros _. split; [done|]. by eapply lookup_lt_Some.
Qed.

(** A loop that returns has read inside the data and kept its [int]
    expressions in range. *)
Lemma SetProgramConstantBlock_loop_range type data base_register :
  forall (n i : nat) s s',
    SetProgramConstantBlock_loop n type (floats_of data) base_register
      (Z.of_nat i) (4 * Z.of_nat i) s = Done tt s' ->
    n = 0%nat \/
    ((i + n <= length data)%nat /\
     base_register + Z.of_nat (i + n) - 1 <= INT_MAX /\
     4 * Z.of_nat (i + n) <= INT_MAX).
Proof.
  induction n as [|n IH]; intros i s s'; [by left|].
  cbn [SetProgramConstantBlock_loop]. unfold bind at 1. unfold int_result at 1.
  destruct (decide (INT_MIN <= base_register + Z.of_nat i <= INT_MAX)) as [Hin|];
    [|done].
  cbn [ret]. unfold bind at 1.
  destruct (float_at _ 0 _ s) as [f0 s1| |] eqn:Hf0; [|done..].
  apply float_at_done in Hf0 as [_ Hlt]. rewrite floats_of_length in Hlt.
  unfold bind at 1. destruct (float_at _ 1 _ s1) as [f1 s2| |]; [|done..].
  unfold bind at 1. destruct (float_at _ 2 _ s2) as [f2 s3| |]; [|done..].
  unfold bind at 1. destruct (float_at _ 3 _ s3) as [f3 s4| |]; [|done..].
  unfold bind at 1. destruct (native _ s4) as [u5 s5| |]; [|done..].
  unfold bind at 1. destruct (CHECK_GL_ERROR s5) as [u6 s6| |]; [|done..].
  unfold bind at 1. unfold int_result at 1.
  destruct (decide (INT_MIN <= Z.of_nat i + 1 <= INT_MAX)); [|done].
  cbn [ret]. unfold bind at 1. unfold int_result at 1.
  destruct (decide (INT_MIN <= 4 * Z.of_nat i + 4 <= INT_MAX)); [|done].
  cbn [ret].
  replace (Z.of_nat i + 1) with (Z.of_nat (S i)) by lia.
  replace (4 * Z.of_nat i + 4) with (4 * Z.of_nat (S i)) by lia.
  intros Hrun. right. destruct (IH _ _ _ Hrun) as [->|(Hlen & Hreg & Hfour)]; lia.
Qed.

Lemma SetProgramConstantBlock_range context type data base_register num_vectors s s' :
  SetProgramConstantBlock context type data base_register num_vectors s = Done tt s' ->
  context <> NULL /\ 0 <= base_register /\ 0 <= num_vectors /\
  exists vectors, data = Some vectors /\
    (num_vectors = 0 \/
     (num_vectors <= Z.of_nat (length vectors) /\
      base_register + num_vectors - 1 <= INT_MAX /\
      4 * num_vectors <= INT_MAX)).
Proof.
  unfold SetProgramConstantBlock.
  unfold bind at 1. unfold assert_that at 1.
  destruct (bool_decide (context <> NULL)) eqn:Hc; [|done].
  apply bool_decide_eq_true_1 in Hc.
  unfold bind at 1. unfold assert_that at 1.
  destruct (bool_decide (is_Some data)); [|done].
  unfold bind at 1. unfold assert_that at 1.
  destruct (bool_decide (base_register >= 0)) eqn:Hb; [|done].
  apply bool_decide_eq_true_1 in Hb.
  unfold bind at 1. unfold assert_that at 1.
  destruct (bool_decide (num_vectors >= 0)) eqn:Hn; [|done].
  apply bool_decide_eq_true_1 in Hn.
  unfold bind at 1. destruct data as [vectors|]; [|done].
  cbn [defined]. unfold ret at 1.
  intros Hrun.
  split; [done|]. split; [lia|]. split; [lia|]. exists vectors. split; [done|].
  destruct (SetProgramConstantBlock_loop_range type vectors base_register
              (Z.to_nat num_vectors) 0 s s' Hrun) as [Hz|(Hlen & Hreg & Hfour)].
  - left. lia.
  - right. lia.
Qed.

Lemma CHECK_GL_ERROR_quiet (s : State) : quiet -> CHECK_GL_ERROR s = Done tt s.
Proof.
  intros Hq. unfold CHECK_GL_ERROR, bind, get_state.
  by rewrite decide_True by apply Hq.
Qed.

Lemma float_at_not_assert f k reg (s : State) : float_at f k reg s <> AssertFailed.
Proof.
  unfold float_at, bind, int_result.
  destruct (decide (INT_MIN <= k + reg <= INT_MAX)); [|done]. cbn.
  destruct (decide (0 <= k + reg)); [|done].
  by destruct (f !! Z.to_nat (k + reg)).
Qed.

(** With a native side that reports no error, nothing in the loop stops in
    [assert]. *)
Lemma SetProgramConstantBlock_loop_not_assert type f base_register :
  quiet ->
  forall (n : nat) i reg s,
    SetProgramConstantBlock_loop n type f base_register i reg s <> AssertFailed.
Proof.
  intros Hq. induction n as [|n IH]; intros i reg s; [done|].
  cbn [SetProgramConstantBlock_loop]. unfold bind at 1. unfold int_result at 1.
  destruct (decide (INT_MIN <= base_register + i <= INT_MAX)); [|done].
  cbn [ret]. unfold bind at 1.
  destruct (float_at f 0 reg s) as [f0 s1| |] eqn:H0;
    [|by apply float_at_not_assert in H0|done].
  unfold bind at 1.
  destruct (float_at f 1 reg s1) as [f1 s2| |] eqn:H1;
    [|by apply float_at_not_assert in H1|done].
  unfold bind at 1.
  destruct (float_at f 2 reg s2) as [f2 s3| |] eqn:H2;
    [|by apply float_at_not_assert in H2|done].
  unfold bind at 1.
  destruct (float_at f 3 reg s3) as [f3 s4| |] eqn:H3;
    [|by apply float_at_not_assert in H3|done].
  unfold bind at 1. unfold native at 1, modify_state at 1.
  unfold bind at 1. rewrite (CHECK_GL_ERROR_quiet _ Hq).
  unfold bind at 1. unfold int_result at 1.
  destruct (decide (INT_MIN <= i + 1 <= INT_MAX)); [|done].
  cbn [ret]. unfold bind at 1. unfold int_result at 1.
  destruct (decide (INT_MIN <= reg + 4 <= INT_MAX)); [|done].
  cbn [ret]. apply IH.
Qed.

Lemma SetProgramConstantBlock_not_assert context type data base_register num_vectors s :
  quiet -> context <> NULL -> 0 <= base_register -> 0 <= num_vectors ->
  SetProgramConstantBlock context type (Some data) base_register num_vectors s
    <> AssertFailed.
Proof.
  intros Hq Hc Hb Hn. unfold SetProgramConstantBlock.
  unfold bind at 1. unfold assert_that at 1. rewrite bool_decide_eq_true_2 by done.
  unfold bind at 1. unfold assert_that at 1. rewrite bool_decide_eq_true_2 by done.
  unfold bind at 1. unfold assert_that at 1. rewrite bool_decide_eq_true_2 by lia.
  unfold bind at 1. unfold assert_that at 1. rewrite bool_decide_eq_true_2 by lia.
  unfold bind at 1. cbn [defined]. unfold ret at 1.
  by apply SetProgramConstantBlock_loop_not_assert.
Qed.

(** X9.  The constant-block functions check no bound.  With a non-null
    context, data that is not null, a base register and a count that are
    not negative and a native side that reports no error,
    [SetProgramConstantBlock], [SetVertexConstantBlock] and
    [SetFragmentConstantBlock] return when the count is zero, or the data
    holds at least [num_vectors] vectors and
    [base_register + num_vectors - 1] and [4 * num_vectors] are at most
    [INT_MAX].  In every other case the behaviour of the call is undefined:
    the loop reads past the end of the data or overflows an [int]. *)
Theorem constant_block_defined_range (context : Z) (data : list Vector4)
    (base_register num_vectors : Z) (s : State) :
  quiet -> context <> NULL ->
  0 <= base_register <= INT_MAX -> 0 <= num_vectors ->
  let in_range :=
    num_vectors = 0 \/
    (num_vectors <= Z.of_nat (length data) /\
     base_register + num_vectors - 1 <= INT_MAX /\
     4 * num_vectors <= INT_MAX) in
  (in_range ->
   (forall type, exists s',
      SetProgramConstantBlock context type (Some data) base_register num_vectors s
        = Done tt s') /\
   (exists s', SetVertexConstantBlock context (Some data) base_register num_vectors s
                 = Done tt s') /\
   (exists s', SetFragmentConstantBlock context (Some data) base_register num_vectors s
                 = Done tt s')) /\
  (~ in_range ->
   (forall type,
      SetProgramConstantBlock context type (Some data) base_register num_vectors s
        = Undefined) /\
   SetVertexConstantBlock context (Some data) base_register num_vectors s = Undefined /\
   SetFragmentConstantBlock context (Some data) base_register num_vectors s = Undefined).
Proof.
  intros Hq Hc Hb Hn in_range. split.
  - intros Hin.
    assert (num_vectors <= Z.of_nat (length data) /\
            base_register + num_vectors - 1 <= INT_MAX /\
            4 * num_vectors <= INT_MAX) as (Hlen & Hreg & Hfour).
    { destruct Hin as [->|Hin]; [|exact Hin]. unfold INT_MAX in *. lia. }
    split; [|split].
    + intros type.
      destruct (wp_returns _ _ _
                  (SetProgramConstantBlock_wp true context type data base_register
                     num_vectors s (fun _ => conj Hq Hc) (proj1 Hb) Hn Hlen Hreg Hfour))
        as ([] & s' & Hrun & _). eauto.
    + destruct (wp_returns _ _ _
                  (SetVertexConstantBlock_wp true context data base_register
                     num_vectors s (fun _ => conj Hq Hc) (proj1 Hb) Hn Hlen Hreg Hfour))
        as ([] & s' & Hrun & _). eauto.
    + destruct (wp_returns _ _ _
                  (SetFragmentConstantBlock_wp true context data base_register
                     num_vectors s (fun _ => conj Hq Hc) (proj1 Hb) Hn Hlen Hreg Hfour))
        as ([] & s' & Hrun & _). eauto.
  - intros Hout.
    assert (forall type,
              SetProgramConstantBlock context type (Some data) base_register
                num_vectors s = Undefined) as Hundef.
    { intros type.
      destruct (SetProgramConstantBlock context type (Some data) base_register
                  num_vectors s) as [[] s'| |] eqn:Hrun; [| |done].
      - apply SetProgramConstantBlock_range in Hrun
          as (_ & _ & _ & vectors & Hdata & Hrange).
        injection Hdata as <-. by destruct Hout.
      - destruct (SetProgramConstantBlock_not_assert _ _ _ _ _ _ Hq Hc (proj1 Hb) Hn
                    Hrun). }
    split; [exact Hundef|]. split.
    + unfold SetVertexConstantBlock, bind, assert_that.
      rewrite bool_decide_eq_true_2 by done. by rewrite Hundef.
    + unfold SetFragmentConstantBlock, bind, assert_that.
      rewrite bool_decide_eq_true_2 by done. by rewrite Hundef.
Qed.

End ConstantLimits.



(** X8, an instance: the first of the two vectors written to fragment
    register 5. *)
Lemma SetFragmentConstant_one_register_witness :
  exists s',
    @SetFragmentConstant quiet_driver 1 (Some two_vectors) 5 empty_state
      = Done tt s' /\
    calls s' = [glProgramLocalParameter4fARB GL_FRAGMENT_PROGRAM_ARB 5 1 2 3 4].
Proof.
  destruct (@SetFragmentConstant_one_register quiet_driver 1 5
              {| v_x := 1; v_y := 2; v_z := 3; v_w := 4 |}
              [ {| v_x := 5; v_y := 6; v_z := 7; v_w := 8 |} ] empty_state)
    as (_ & Hcalls & Hok).
  - unfold INT_MAX. lia.
  - destruct Hok as [s' Hs'].
    { split; [intros history; reflexivity|discriminate]. }
    exists s'. split; [exact Hs'|]. exact (Hcalls s' Hs').
Defined.

(** X9, an instance: two vectors are written from data that holds two;
    asking for three of them is undefined. *)
Lemma constant_block_defined_range_witness :
  (exists s',
     @SetFragmentConstantBlock quiet_driver 1 (Some two_vectors) 0 2 empty_state
       = Done tt s') /\
  @SetFragmentConstantBlock quiet_driver 1 (Some two_vectors) 0 3 empty_state
    = Undefined.
Proof.
  split.
  - apply (proj1 (@constant_block_defined_range quiet_driver 1 two_vectors 0 2
                    empty_state ltac:(intros history; reflexivity)
                    ltac:(discriminate) ltac:(unfold INT_MAX; lia) ltac:(lia))).
    right. cbn. unfold INT_MAX. lia.
  - apply (proj2 (@constant_block_defined_range quiet_driver 1 two_vectors 0 3
                    empty_state ltac:(intros history; reflexivity)
                    ltac:(discriminate) ltac:(unfold INT_MAX; lia) ltac:(lia))).
    intros [Hzero|[Hlen _]]; [discriminate|]. cbn in Hlen. lia.
Defined.

(** ** Textures *)

Section Textures.
Context `{Driver}.

Lemma NewTexture_wp strict s :
  (strict = true -> quiet) ->
  wp strict NewTexture s
    (fun p s' =>
       p = new_address (heap_tex s) /\
       s' = set_heap_tex
              (<[new_address (heap_tex s) :=
                   {| m_Texture := Some (glGen_name (calls s ++ [glGenTextures])) |}]>
                 (heap_tex s))
              (set_calls
                 (calls s ++ texture_calls (glGen_name (calls s ++ [glGenTextures]))) s)).
Proof.
  intros Hq. unfold NewTexture.
  repeat wp_heap_step ltac:(intros Hs; apply Hq, Hs).
  split; [reflexivity|]. unfold texture_calls. state_simpl.
  rewrite insert_insert_eq, <- !app_assoc. reflexivity.
Qed.

Lemma SetTextureData_wp strict texture mip_map width height format data data_size
    s name c :
  (strict = true -> quiet) ->
  heap_tex s !! texture = Some {| m_Texture := Some name |} ->
  upload_call format (mip_map mod 2 ^ 16) (width mod 2 ^ 16) (height mod 2 ^ 16)
              data data_size = Some c ->
  wp strict (SetTextureData texture mip_map width height format data data_size) s
    (fun _ s' => s' = set_calls (calls s ++ [glBindTexture name; c]) s).
Proof.
  intros Hq Htex Hc. unfold SetTextureData, wrap. cbv zeta.
  apply wp_bind, (wp_load_tex _ _ _ _ _ Htex).
  destruct format; cbn in Hc; try discriminate; injection Hc as <-;
    repeat wp_heap_step ltac:(intros Hs; apply Hq, Hs);
    by rewrite <- !app_assoc.
Qed.

(** X10.  [SetTextureData] on a live texture binds it and makes exactly one
    upload: [glTexImage2D] with 1, 3 or 4 components for the luminance, RGB
    and RGBA formats, [glCompressedTexImage2D] for the four DXT formats,
    with the data size converted to [GLsizei], so that a size from [2^31]
    arrives negative; the mip level, width and height arrive reduced
    modulo [2^16].  For any other format it stops in [assert]. *)
Theorem SetTextureData_uploads_once (texture mip_map width height : Z)
    (format : TextureFormat) (data data_size : Z) (s : State) (name : Z) :
  heap_tex s !! texture = Some {| m_Texture := Some name |} ->
  match upload_call format (mip_map mod 2 ^ 16) (width mod 2 ^ 16)
                    (height mod 2 ^ 16) data data_size with
  | Some c =>
      runs_issuing (SetTextureData texture mip_map width height format data data_size)
        s [glBindTexture name; c] quiet
  | None =>
      SetTextureData texture mip_map width height format data data_size s = AssertFailed
  end.
Proof.
  intros Htex.
  destruct (upload_call _ _ _ _ _ _) as [c|] eqn:Hc.
  - apply runs_issuing_intro. intros strict Hs.
    eapply wp_mono; [by eapply SetTextureData_wp|]. by intros u s' ->.
  - destruct format; try discriminate.
    unfold SetTextureData, load_tex, bind, get_state, defined, native, modify_state,
      ret, assert_that, CHECK_GL_ERROR. cbv zeta. rewrite Htex. cbn.
    destruct (decide _); cbn; done.
Qed.

Lemma DeleteTexture_run texture name s :
  texture <> NULL ->
  heap_tex s !! texture = Some {| m_Texture := Some name |} ->
  DeleteTexture texture s =
    Done tt (set_heap_tex (delete texture (heap_tex s))
               (set_calls (calls s ++ [glDeleteTextures name]) s)).
Proof.
  intros Hnn Htex.
  unfold DeleteTexture, load_tex, bind, get_state, defined, native, modify_state,
    assert_that, ret.
  rewrite bool_decide_eq_true_2 by done. rewrite Htex. reflexivity.
Qed.

Lemma DeleteTexture_dangling texture s :
  texture <> NULL -> heap_tex s !! texture = None ->
  DeleteTexture texture s = Undefined.
Proof.
  intros Hnn Htex.
  unfold DeleteTexture, load_tex, bind, get_state, defined, assert_that.
  rewrite bool_decide_eq_true_2 by done. by rewrite Htex.
Qed.

(** X11.  A texture made by [NewTexture] has a non-null handle that was
    not in use and carries the name the driver generated; no other texture
    is touched.  [DeleteTexture] on it releases that name and leaves the
    heap as it was before the creation, and a second [DeleteTexture] on
    the same handle is undefined.  [DeleteTexture] on the null handle stops
    in [assert]. *)
Theorem NewTexture_then_delete (s s1 : State) (texture : Z) :
  NewTexture s = Done texture s1 ->
  let name := glGen_name (calls s ++ [glGenTextures]) in
  texture <> NULL /\ heap_tex s !! texture = None /\
  heap_tex s1 = <[texture := {| m_Texture := Some name |}]> (heap_tex s) /\
  DeleteTexture NULL s1 = AssertFailed /\
  exists s2,
    DeleteTexture texture s1 = Done tt s2 /\
    calls s2 = calls s1 ++ [glDeleteTextures name] /\
    heap_tex s2 = heap_tex s /\ heap_rt s2 = heap_rt s /\ heap_vd s2 = heap_vd s /\
    DeleteTexture texture s2 = Undefined.
Proof.
  intros Hnew name.
  destruct (wp_done _ _ _ _ _ _ (NewTexture_wp false s ltac:(done)) Hnew) as [-> ->].
  pose proof (new_address_not_null (heap_tex s)) as Hnn.
  pose proof (new_address_unused (heap_tex s)) as Hfresh.
  split; [done|]. split; [done|]. split; [reflexivity|]. split; [reflexivity|].
  eexists. split.
  { apply (DeleteTexture_run _ name); [done|].
    cbn [heap_tex set_heap_tex]. by rewrite lookup_insert_eq. }
  cbn [calls heap_tex heap_rt heap_vd set_heap_tex set_calls].
  rewrite delete_insert_eq, delete_id by done.
  repeat split.
  apply DeleteTexture_dangling; [done|].
  cbn [heap_tex set_heap_tex]. exact Hfresh.
Qed.

End Textures.

(** X10, two instances on the texture of the created render target: a
    65537 by 2 RGB upload arrives with width 1, and a DXT5 upload of
    [2^32 - 1] bytes arrives with data size [-1]. *)
Lemma SetTextureData_uploads_once_witness :
  (exists s',
     @SetTextureData quiet_driver 1 0 65537 2 TEXTURE_FORMAT_RGB 100 0
       created_render_state = Done tt s' /\
     calls s' = calls created_render_state
                  ++ [glBindTexture 1; glTexImage2D 0 3 1 2 TEXTURE_FORMAT_RGB 100]) /\
  (exists s',
     @SetTextureData quiet_driver 1 0 4 4 TEXTURE_FORMAT_RGBA_DXT5 100 4294967295
       created_render_state = Done tt s' /\
     calls s' = calls created_render_state
                  ++ [glBindTexture 1;
                      glCompressedTexImage2D 0 TEXTURE_FORMAT_RGBA_DXT5 4 4 (-1) 100]).
Proof.
  split.
  - destruct (@SetTextureData_uploads_once quiet_driver 1 0 65537 2 TEXTURE_FORMAT_RGB
                100 0 created_render_state 1 eq_refl) as (_ & Hcalls & Hok).
    destruct Hok as [s' Hs']; [intros history; reflexivity|].
    exists s'. split; [exact Hs'|]. exact (Hcalls s' Hs').
  - destruct (@SetTextureData_uploads_once quiet_driver 1 0 4 4 TEXTURE_FORMAT_RGBA_DXT5
                100 4294967295 created_render_state 1 eq_refl) as (_ & Hcalls & Hok).
    destruct Hok as [s' Hs']; [intros history; reflexivity|].
    exists s'. split; [exact Hs'|]. exact (Hcalls s' Hs').
Defined.

(** X11, an instance: a texture created and deleted in the empty program. *)
Lemma NewTexture_then_delete_witness :
  exists texture s1 s2,
    @NewTexture quiet_driver empty_state = Done texture s1 /\
    texture <> NULL /\
    DeleteTexture texture s1 = Done tt s2 /\
    heap_tex s2 = heap_tex empty_state.
Proof.
  assert (exists texture s1,
            @NewTexture quiet_driver empty_state = Done texture s1)
    as (texture & s1 & Hnew)
    by (eexists _, _; vm_compute; reflexivity).
  destruct (@NewTexture_then_delete quiet_driver empty_state s1 texture Hnew)
    as (Hnn & _ & _ & _ & s2 & Hdel & _ & Htex & _).
  exists texture, s1, s2. repeat split; assumption.
Defined.

(** ** The lifetime of a render target and of its texture *)


Lemma DeleteRenderTarget_dangling rendertarget fbo rbo texture s :
  heap_rt s !! rendertarget =
    Some {| rt_Texture := Some texture; m_FboId := Some fbo; m_RboId := Some rbo |} ->
  texture <> NULL -> heap_tex s !! texture = None ->
  DeleteRenderTarget rendertarget s = Undefined.
Proof.
  intros Hrt Hnn Htex.
  unfold DeleteRenderTarget, DeleteTexture, load_rt, load_tex, bind, get_state, defined,
    native, assert_that, modify_state, ret.
  rewrite Hrt. cbn [rt_Texture m_FboId m_RboId].
  rewrite bool_decide_eq_true_2 by done. state_simpl. by rewrite Htex.
Qed.

Section RenderTargetCreation.
Context `{Driver}.

Lemma NewRenderTarget_state_wp strict width height format s :
  (strict = true -> quiet) ->
  wp strict (NewRenderTarget width height format) s
    (fun p s' =>
       p = new_address (heap_rt s) /\
       exists t fbo rbo, s' = with_render_target t fbo rbo width height s).
Proof.
  intros Hq. unfold NewRenderTarget.
  repeat wp_heap_step ltac:(intros Hs; apply Hq, Hs).
  split; [reflexivity|].
  eexists _, _, _. unfold with_render_target, texture_calls, render_target_calls, wrap.
  state_simpl. rewrite !insert_insert_eq, <- !app_assoc. reflexivity.
Qed.




(** X14.  Deleting the texture of a render target through [DeleteTexture]
    leaves the render target holding a dangling handle: a later
    [DeleteRenderTarget] is undefined. *)
Theorem render_target_texture_deleted_early (width height : Z) (format : TextureFormat)
    (s s1 s2 : State) (rt tex : Z) :
  NewRenderTarget width height format s = Done rt s1 ->
  GetRenderTargetTexture rt s1 = Done tex s1 ->
  DeleteTexture tex s1 = Done tt s2 ->
  DeleteRenderTarget rt s2 = Undefined.
Proof.
  intros Hnew Hget Hdel.
  destruct (wp_done _ _ _ _ _ _ (NewRenderTarget_state_wp false width height format s
                                   ltac:(done)) Hnew) as [-> (t & fbo & rbo & ->)].
  pose proof (new_address_not_null (heap_tex s)) as Hnn'.
  assert (tex = new_address (heap_tex s)) as ->.
  { revert Hget.
    unfold GetRenderTargetTexture, load_rt, bind, get_state, defined, with_render_target.
    cbn [heap_rt set_heap_rt]. rewrite lookup_insert_eq. cbn [rt_Texture].
    by intros [= <-]. }
  rewrite (DeleteTexture_run _ t) in Hdel;
    [|done|unfold with_render_target; cbn [heap_tex set_heap_rt set_heap_tex];
           by rewrite lookup_insert_eq].
  injection Hdel as <-.
  apply (DeleteRenderTarget_dangling _ fbo rbo (new_address (heap_tex s))); [|done|];
    unfold with_render_target; state_simpl;
    [by rewrite lookup_insert_eq|by rewrite lookup_delete_eq].
Qed.

End RenderTargetCreation.



(** X14, an instance: the texture of that render target deleted before the
    target. *)
Lemma render_target_texture_deleted_early_witness :
  exists rt s1 tex s2,
    @NewRenderTarget quiet_driver 65537 480 TEXTURE_FORMAT_LUMINANCE empty_state
      = Done rt s1 /\
    GetRenderTargetTexture rt s1 = Done tex s1 /\
    DeleteTexture tex s1 = Done tt s2 /\
    DeleteRenderTarget rt s2 = Undefined.
Proof.
  assert (exists rt s1 tex s2,
            @NewRenderTarget quiet_driver 65537 480 TEXTURE_FORMAT_LUMINANCE
              empty_state = Done rt s1 /\
            GetRenderTargetTexture rt s1 = Done tex s1 /\
            DeleteTexture tex s1 = Done tt s2)
    as (rt & s1 & tex & s2 & Hnew & Hget & Hdel)
    by (eexists _, _, _, _; repeat split; vm_compute; reflexivity).
  exists rt, s1, tex, s2. repeat split; try assumption.
  exact (@render_target_texture_deleted_early quiet_driver 65537 480
           TEXTURE_FORMAT_LUMINANCE empty_state s1 s2 rt tex Hnew Hget Hdel).
Defined.

End GraphicsProofs.

Module SocketsProofs.
Import dmTestUtil SocketsSpec.

(** ** Reading the sockets from a configuration *)

Section WithConfigFile.
Context `{ConfigFile}.

Lemma GetSocketsFromConfig_in_order config socket socket_ssl socket_ssl_test :
  GetSocketsFromConfig config socket socket_ssl socket_ssl_test =
  read_in_order config (pointers socket socket_ssl socket_ssl_test)
    [Socket; SocketSsl; SocketSslTest].
Proof. reflexivity. Qed.

Lemma stored_cons config pointer k rest m :
  stored config pointer (k :: rest) m =
    stored config pointer rest
      (if decide (pointer k <> 0)
       then <[pointer k := GetInt_value config (key_name k) (-1)]> m
       else m).
Proof. reflexivity. Qed.

Lemma read_key_run config pointer k s :
  read_key config pointer k s =
    Done tt {| memory := stored config pointer [k] (memory s);
               events := events s ++ block config pointer k |}.
Proof.
  unfold read_key, block, stored. simpl.
  destruct (decide (pointer k <> 0)); simpl.
  - unfold bind, GetInt, store_int, modify_state, ret. simpl.
    by rewrite <- app_assoc.
  - unfold ret. rewrite app_nil_r. by destruct s.
Qed.

Lemma read_in_order_run config pointer order s :
  read_in_order config pointer order s =
    Done tt {| memory := stored config pointer order (memory s);
               events := events s ++ concat (block config pointer <$> order) |}.
Proof.
  revert s. induction order as [|k rest IH]; intros s.
  - simpl. unfold ret. rewrite app_nil_r. by destruct s.
  - destruct rest as [|k' rest].
    + cbn [read_in_order]. rewrite read_key_run. simpl. by rewrite app_nil_r.
    + change (read_in_order config pointer (k :: k' :: rest))
        with (bind (read_key config pointer k)
                (fun _ => read_in_order config pointer (k' :: rest))).
      unfold bind. rewrite read_key_run, IH.
      cbn [memory events]. rewrite <- app_assoc. reflexivity.
Qed.

(** An address that no block writes keeps its value. *)
Lemma stored_lookup_other config pointer order m a :
  (forall k, k ∈ order -> pointer k <> 0 -> a <> pointer k) ->
  stored config pointer order m !! a = m !! a.
Proof.
  revert m. induction order as [|k rest IH]; intros m Hne; [done|].
  rewrite stored_cons.
  rewrite IH by (intros k' Hk'; apply Hne; by right).
  destruct (decide (pointer k <> 0)) as [Hp|]; [|done].
  rewrite lookup_insert_ne; [done|]. intros Heq. eapply Hne; [by left|done|done].
Qed.

(** A non-null output that no other output of the order aliases holds the
    value looked up for its key. *)
Lemma stored_lookup_pointer config pointer order m k :
  NoDup order ->
  (forall k', k' ∈ order -> k' <> k -> pointer k' <> pointer k) ->
  k ∈ order -> pointer k <> 0 ->
  stored config pointer order m !! pointer k =
    Some (GetInt_value config (key_name k) (-1)).
Proof.
  intros Hnd. revert m.
  induction Hnd as [|k0 rest Hnotin Hnd IH]; intros m Hna Hin Hp.
  - by apply elem_of_nil in Hin.
  - rewrite stored_cons.
    apply elem_of_cons in Hin as [->|Hin].
    + rewrite stored_lookup_other.
      * rewrite decide_True by done. by rewrite lookup_insert_eq.
      * intros k' Hk' _ Heq. eapply (Hna k'); [by right| |done].
        intros ->. done.
    + apply IH; [|done|done]. intros k' Hk'. apply Hna. by right.
Qed.

Lemma stored_permutation config pointer order1 order2 m :
  NoDup order1 -> no_alias pointer -> order1 ≡ₚ order2 ->
  stored config pointer order1 m = stored config pointer order2 m.
Proof.
  intros Hnd Hna Hperm. apply map_eq. intros a.
  assert (NoDup order2) as Hnd2 by (by rewrite <- Hperm).
  destruct (decide (Exists (fun k => pointer k <> 0 /\ a = pointer k) order1))
    as [Hsome|Hnone];
    rewrite Exists_exists in *; [destruct Hsome as (k & Hin & Hp & ->)|].
  - assert (forall k', k' <> k -> pointer k' <> pointer k) as Hk.
    { intros k' Hne Heq. apply (Hna k k'); [done|done|done]. }
    rewrite !stored_lookup_pointer; try done; try (intros k' _; apply Hk).
    by rewrite <- Hperm.
  - rewrite !stored_lookup_other; [done|..].
    + intros k Hin Hp ->. apply Hnone. exists k. by rewrite Hperm.
    + intros k Hin Hp ->. apply Hnone. by exists k.
Qed.

Lemma block_null config pointer k :
  (pointer k <> 0 ->
   block config pointer k =
     [Lookup (key_name k);
      Store (pointer k) (GetInt_value config (key_name k) (-1))]) /\
  (pointer k = 0 -> block config pointer k = []).
Proof.
  unfold block. split; intros Hp.
  - by rewrite decide_True.
  - by rewrite decide_False by (intros Hne; by apply Hne).
Qed.

Lemma all_keys_NoDup : NoDup [Socket; SocketSsl; SocketSslTest].
Proof. by apply (bool_decide_unpack _). Qed.

Lemma all_keys k : k ∈ [Socket; SocketSsl; SocketSslTest].
Proof. destruct k; set_solver. Qed.

(** C9.  [GetSocketsFromConfig] returns for any three output pointers, null
    or not.  For each output on its own, the lookup of its key and the
    store through its pointer happen exactly when the pointer is non-null:
    the events of the call are the events of the three outputs in turn, and
    those of a null output are none.  Memory changes only at the non-null
    pointers, nothing is stored at the null address, and a non-null output
    that is not aliased by another receives the value looked up for its
    key whether the other two pointers are null or not. *)
Theorem GetSocketsFromConfig_null_outputs (config : HConfig)
    (socket socket_ssl socket_ssl_test : Z) (s : State) :
  let pointer := pointers socket socket_ssl socket_ssl_test in
  let made := block config pointer Socket ++ block config pointer SocketSsl
              ++ block config pointer SocketSslTest in
  exists s',
    GetSocketsFromConfig config socket socket_ssl socket_ssl_test s = Done tt s' /\
    events s' = events s ++ made /\
    (forall k,
       (pointer k <> 0 ->
        block config pointer k =
          [Lookup (key_name k);
           Store (pointer k) (GetInt_value config (key_name k) (-1))]) /\
       (pointer k = 0 -> block config pointer k = [])) /\
    (forall k, Lookup (key_name k) ∈ made <-> pointer k <> 0) /\
    (forall a v, Store a v ∈ made -> a <> 0) /\
    (forall a, (forall k, pointer k <> 0 -> a <> pointer k) ->
       memory s' !! a = memory s !! a) /\
    (forall k, pointer k <> 0 ->
       (forall k', k' <> k -> pointer k' <> pointer k) ->
       memory s' !! pointer k = Some (GetInt_value config (key_name k) (-1))).
Proof.
  intros pointer made.
  rewrite GetSocketsFromConfig_in_order, read_in_order_run.
  fold pointer. eexists. split; [reflexivity|]. cbn [memory events].
  split; [|split; [|split; [|split; [|split]]]].
  - unfold made. simpl. by rewrite app_nil_r.
  - intros k. apply block_null.
  - intros k. unfold made, block.
    destruct k; repeat case_decide; cbn [key_name];
      rewrite ?app_nil_l, ?app_nil_r, ?elem_of_app, ?elem_of_cons, ?elem_of_nil;
      intuition (try congruence; try discriminate).
  - intros a v. unfold made, block.
    repeat case_decide;
      rewrite ?app_nil_l, ?app_nil_r, ?elem_of_app, ?elem_of_cons, ?elem_of_nil;
      intuition (try congruence; try discriminate).
  - intros a Ha. apply stored_lookup_other. intros k _. apply Ha.
  - intros k Hp Hk. apply stored_lookup_pointer.
    + apply all_keys_NoDup.
    + intros k' _. apply Hk.
    + apply all_keys.
    + done.
Qed.

End WithConfigFile.

(** C4.  With the configuration store of the specification, each non-null
    output receives -1 when the store has no entry for its key and the
    stored integer otherwise.  Running the three lookups in any other order
    stores the same value for each key, and leaves the same memory when no
    two outputs share an object. *)
Theorem GetSocketsFromConfig_values (config : gmap string Z)
    (socket socket_ssl socket_ssl_test : Z) (s : State) :
  let pointer := pointers socket socket_ssl socket_ssl_test in
  let value k := default (-1) (config !! key_name k) in
  let made k :=
    if decide (pointer k <> 0)
    then [Lookup (key_name k); Store (pointer k) (value k)] else [] in
  (forall k, (config !! key_name k = None -> value k = -1) /\
             (forall v, config !! key_name k = Some v -> value k = v)) /\
  exists s',
    @GetSocketsFromConfig spec_ConfigFile config socket socket_ssl socket_ssl_test s
      = Done tt s' /\
    events s' = events s ++ made Socket ++ made SocketSsl ++ made SocketSslTest /\
    (forall k, pointer k <> 0 ->
       (forall k', k' <> k -> pointer k' <> pointer k) ->
       memory s' !! pointer k = Some (value k)) /\
    (forall order, order ≡ₚ [Socket; SocketSsl; SocketSslTest] ->
       exists s'',
         @read_in_order spec_ConfigFile config pointer order s = Done tt s'' /\
         events s'' = events s ++ concat (made <$> order) /\
         (no_alias pointer -> memory s'' = memory s')).
Proof.
  intros pointer value made. split.
  - intros k. unfold value. split; [by intros ->|by intros v ->].
  - rewrite (@GetSocketsFromConfig_in_order spec_ConfigFile).
    rewrite (@read_in_order_run spec_ConfigFile).
    fold pointer. eexists. split; [reflexivity|]. cbn [memory events].
    split; [|split].
    + simpl. by rewrite app_nil_r.
    + intros k Hp Hk.
      apply (@stored_lookup_pointer spec_ConfigFile).
      * apply all_keys_NoDup.
      * intros k' _. apply Hk.
      * apply all_keys.
      * done.
    + intros order Hperm.
      rewrite (@read_in_order_run spec_ConfigFile).
      eexists. split; [reflexivity|]. cbn [memory events].
      split; [reflexivity|].
      intros Hna. apply (@stored_permutation spec_ConfigFile); [|done|done].
      rewrite Hperm. apply all_keys_NoDup.
Qed.

(** ** Outputs that share an object *)

Section AliasedOutputs.
Context `{ConfigFile}.

Lemma stored_step_lookup (p v : Z) (m : gmap Z Z) (a : Z) :
  (if decide (p <> 0) then <[p := v]> m else m) !! a =
    if decide (p <> 0 /\ p = a) then Some v else m !! a.
Proof.
  destruct (decide (p <> 0)) as [Hp|Hp].
  - rewrite lookup_insert. destruct (decide (p = a)).
    + by rewrite decide_True.
    + rewrite decide_False; [done|]. by intros [_ ?].
  - rewrite decide_False; [done|]. by intros [? _].
Qed.

(** X15.  When output pointers alias, the last block of
    [GetSocketsFromConfig] that writes wins: a non-null output ends with
    the lookup result of its own key as soon as no output of a later block
    aliases it, whatever the outputs of the earlier blocks are.  With one
    pointer given for all three outputs, the three lookups and stores are
    made in the order socket, secure socket, secure test socket and the
    caller reads the secure test socket. *)
Theorem GetSocketsFromConfig_aliased_outputs (config : HConfig)
    (socket socket_ssl socket_ssl_test : Z) (s : State) :
  let pointer := pointers socket socket_ssl socket_ssl_test in
  exists s',
    GetSocketsFromConfig config socket socket_ssl socket_ssl_test s = Done tt s' /\
    (forall k, pointer k <> 0 ->
       (forall k', (key_index k < key_index k')%nat ->
                   pointer k' = 0 \/ pointer k' <> pointer k) ->
       memory s' !! pointer k = Some (GetInt_value config (key_name k) (-1))) /\
    (socket <> 0 -> socket_ssl = socket -> socket_ssl_test = socket ->
       memory s' !! socket =
         Some (GetInt_value config "server.socket_ssl_test" (-1)) /\
       events s' = events s ++
         [Lookup "server.socket";
          Store socket (GetInt_value config "server.socket" (-1));
          Lookup "server.socket_ssl";
          Store socket (GetInt_value config "server.socket_ssl" (-1));
          Lookup "server.socket_ssl_test";
          Store socket (GetInt_value config "server.socket_ssl_test" (-1))]).
Proof.
  intros pointer.
  rewrite GetSocketsFromConfig_in_order, read_in_order_run.
  fold pointer. eexists. split; [reflexivity|]. cbn [memory events]. split.
  - intros k Hk Hlater. unfold stored. cbn [foldl]. rewrite !stored_step_lookup.
    pose proof (Hlater Socket) as H1. pose proof (Hlater SocketSsl) as H2.
    pose proof (Hlater SocketSslTest) as H3.
    destruct k; cbn [pointer pointers key_name key_index] in *;
      repeat case_decide; try done;
      repeat match goal with
             | Hk : (?a < ?b)%nat -> _ |- _ =>
                 first [ specialize (Hk ltac:(lia)) | clear Hk ]
             end; lia.
  - intros Hnn -> ->. split.
    + unfold stored. cbn [foldl]. rewrite !stored_step_lookup.
      cbn [pointer pointers key_name]. by rewrite decide_True.
    + unfold block. cbn [fmap list_fmap concat pointer pointers key_name].
      by rewrite !decide_True.
Qed.

End AliasedOutputs.

(** X15, an instance: one [int] at address 100 given for all three
    outputs. *)
Lemma GetSocketsFromConfig_aliased_outputs_witness :
  exists s',
    @GetSocketsFromConfig spec_ConfigFile two_socket_config 100 100 100 empty_memory
      = Done tt s' /\
    memory s' !! 100 = Some 9003.
Proof.
  destruct (@GetSocketsFromConfig_aliased_outputs spec_ConfigFile two_socket_config
              100 100 100 empty_memory) as (s' & Hrun & _ & Hall).
  exists s'. split; [exact Hrun|].
  exact (proj1 (Hall ltac:(discriminate) eq_refl eq_refl)).
Defined.

End SocketsProofs.
